(** * SPICE PWL Generator: the waveform data and view model of [main.pyw]

    A shallow embedding of the [PWLTool] class of [src/main.pyw]: the point
    list, grid snapping, the search for a free time, the insert, move and
    delete handlers, the pan and zoom arithmetic, the PWL text codec and the
    JSON snapshot loader, followed by the properties the specification states
    about them.

    Numbers.  Python computes with binary64 floats; here a number is an exact
    rational ([Q]): every finite float is a rational, and the arithmetic of
    the program is read without rounding error.  Equality of numbers is
    [Qeq] ([==]).  The literals [inf] and [nan], which [float()] accepts, have
    no rational value and are reported as such by the model of [float()].

    Text.  A string is a list of 8-bit characters; the white space of
    [str.split] and [str.strip] is the ASCII white space of Python and the
    digits of [float()] are the ASCII digits.

    Exceptions.  A method that raises ([KeyError] of an unknown unit,
    [IndexError] of a stale selection) ends in the state it had reached;
    see [outcome]. *)

From Stdlib Require Import ZArith QArith Qround Qabs Qpower.
From Stdlib Require Import List String Ascii Bool Lia Lqa.
From Stdlib Require Import Sorting.Sorted Sorting.Permutation.
Import ListNotations.

Local Open Scope Q_scope.

(* ================================================================== *)
(** * Python numbers *)
(* ================================================================== *)

Module PyNum.

(** [a < b] as a boolean. *)
Definition ltb (a b : Q) : bool := negb (Qle_bool b a).

(** [a <= b] as a boolean. *)
Definition leb (a b : Q) : bool := Qle_bool a b.

(** [max(0, x)]: Python's [max] answers its first argument unless a later
    one is strictly greater. *)
Definition max0 (x : Q) : Q := if ltb 0 x then x else 0.

(** [max(a, b)]. *)
Definition max (a b : Q) : Q := if ltb a b then b else a.

(** [abs(x)]. *)
Definition abs (x : Q) : Q := Qabs x.

(** [round(x)] with one argument: the nearest integer, a tie going to the
    even neighbour. *)
Definition round (x : Q) : Z :=
  let f := Qfloor x in
  let r := x - inject_Z f in
  if ltb r (1 # 2) then f
  else if ltb (1 # 2) r then (f + 1)%Z
  else if Z.even f then f else (f + 1)%Z.

(** [10 ** e] for an integer [e] of either sign. *)
Definition pow10 (e : Z) : Q := (10 # 1) ^ e.

End PyNum.

(* ================================================================== *)
(** * Python strings *)
(* ================================================================== *)

Module PyStr.

Definition text := list ascii.

(** [c.isspace()] on the ASCII range: tab, line feed, vertical tab, form
    feed, carriage return, the four separators 28 to 31, and the space. *)
Definition isspace (c : ascii) : bool :=
  let n := nat_of_ascii c in
  ((9 <=? n) && (n <=? 13) || (28 <=? n) && (n <=? 32))%nat.

Definition isdigit (c : ascii) : bool :=
  let n := nat_of_ascii c in ((48 <=? n) && (n <=? 57))%nat.

(** The white space of C's [isspace], which [float()] skips around a
    number: the separators 28 to 31 are not part of it. *)
Definition isspace_c (c : ascii) : bool :=
  let n := nat_of_ascii c in
  ((9 <=? n) && (n <=? 13) || (n =? 32))%nat.

(** Leading characters of the class [sp] removed. *)
Fixpoint lstrip_with (sp : ascii -> bool) (s : text) : text :=
  match s with
  | c :: r => if sp c then lstrip_with sp r else s
  | [] => []
  end.

Definition rstrip_with (sp : ascii -> bool) (s : text) : text :=
  rev (lstrip_with sp (rev s)).

Definition strip_with (sp : ascii -> bool) (s : text) : text :=
  rstrip_with sp (lstrip_with sp s).

(** [s.strip()] *)
Definition strip (s : text) : text := strip_with isspace s.

(** [s.split()] without argument: the maximal runs of characters that are
    not white space.  [cur] is the run being read, in reverse. *)
Fixpoint split_aux (cur : text) (s : text) : list text :=
  match s with
  | [] => match cur with [] => [] | _ => [rev cur] end
  | c :: r =>
      if isspace c
      then match cur with
           | [] => split_aux [] r
           | _ => rev cur :: split_aux [] r
           end
      else split_aux (c :: cur) r
  end.

Definition split (s : text) : list text := split_aux [] s.

(** [sep.join(parts)] *)
Fixpoint join (sep : text) (parts : list text) : text :=
  match parts with
  | [] => []
  | [p] => p
  | p :: rest => p ++ sep ++ join sep rest
  end.

Fixpoint text_eqb (a b : text) : bool :=
  match a, b with
  | [], [] => true
  | x :: a', y :: b' => Ascii.eqb x y && text_eqb a' b'
  | _, _ => false
  end.

(** [s.startswith(p)] *)
Fixpoint startswith (p s : text) : bool :=
  match p, s with
  | [], _ => true
  | x :: p', y :: s' => Ascii.eqb x y && startswith p' s'
  | _ :: _, [] => false
  end.

(** [s.endswith(p)] *)
Definition endswith (p s : text) : bool := startswith (rev p) (rev s).

(** [s[a:-1]] for [a <= len(s) - 1]; empty when the slice is empty. *)
Definition slice_inner (a : nat) (s : text) : text :=
  skipn a (removelast s).

Definition of_string (s : string) : text := list_ascii_of_string s.
Definition to_string (s : text) : string := string_of_list_ascii s.

End PyStr.

(* ================================================================== *)
(** * Numbers as text: [format(x, ".6g")] and [float(s)] *)
(* ================================================================== *)

Module FloatText.
Import PyStr.

Definition digit_char (d : Z) : ascii := ascii_of_nat (48 + Z.to_nat d).
Definition digit_val (c : ascii) : Z := Z.of_nat (nat_of_ascii c) - 48.

(** The [k] decimal digits of [m], most significant first. *)
Fixpoint digits_fixed (k : nat) (m : Z) : list Z :=
  match k with
  | O => []
  | S k' => digits_fixed k' (m / 10) ++ [(m mod 10)%Z]
  end.

(** The decimal digits of [n >= 0] without leading zeros. *)
Fixpoint digits_nat (fuel : nat) (n : Z) : list Z :=
  match fuel with
  | O => []
  | S f => if (n <? 10)%Z then [n] else digits_nat f (n / 10) ++ [(n mod 10)%Z]
  end.

(** The exponent field of the [e] style: two digits at least. *)
Definition exp_digits (n : Z) : list Z :=
  if (n <? 10)%Z then [0%Z; n] else digits_nat (S (Z.to_nat n)) n.

Fixpoint drop_zeros (ds : list Z) : list Z :=
  match ds with
  | d :: r => if (d =? 0)%Z then drop_zeros r else ds
  | [] => []
  end.

(** Trailing zeros removed. *)
Definition rstrip_zeros (ds : list Z) : list Z := rev (drop_zeros (rev ds)).

Definition show_digits (ds : list Z) : text := map digit_char ds.

(** [q / 10] while [q >= 10], counting the steps. *)
Fixpoint exp_down (fuel : nat) (q : Q) (e : Z) : Z :=
  match fuel with
  | O => e
  | S f => if PyNum.leb 10 q then exp_down f (q / 10) (e + 1) else e
  end.

(** [q * 10] while [q < 1], counting the steps. *)
Fixpoint exp_up (fuel : nat) (q : Q) (e : Z) : Z :=
  match fuel with
  | O => e
  | S f => if PyNum.ltb q 1 then exp_up f (q * 10) (e - 1) else e
  end.

(** The decimal exponent of [q > 0]: the [e] with
    [10^e <= q < 10^(e+1)]. *)
Definition decimal_exponent (q : Q) : Z :=
  if PyNum.leb 1 q
  then exp_down (Pos.size_nat (Z.to_pos (Qnum q))) q 0
  else exp_up (Pos.size_nat (Qden q)) q 0.

(** Six significant digits of [q > 0]: the integer [m] with
    [10^5 <= m < 10^6] and the exponent [e] such that [m * 10^(e-5)] is
    the decimal of six digits nearest to [q], a tie going to the even
    [m].  Rounding up to [10^6] carries into the exponent. *)
Definition sci6 (q : Q) : Z * Z :=
  let e := decimal_exponent q in
  let m := PyNum.round (q * PyNum.pow10 (5 - e)) in
  if (m =? 1000000)%Z then (100000%Z, (e + 1)%Z) else (m, e).

(** The value a pair [(m, e)] of [sci6] stands for. *)
Definition sci_value (me : Z * Z) : Q :=
  inject_Z (fst me) * PyNum.pow10 (snd me - 5).

(** [x] rounded to six significant digits. *)
Definition round6 (x : Q) : Q :=
  if Qeq_bool x 0 then 0
  else if PyNum.ltb x 0 then - sci_value (sci6 (- x))
  else sci_value (sci6 x).

(** A digit string with its fraction: the point is written only when
    digits follow it. *)
Definition with_fraction (int_ds frac_ds : list Z) : text :=
  match frac_ds with
  | [] => show_digits int_ds
  | _ => show_digits int_ds ++ ["."%char] ++ show_digits frac_ds
  end.

(** The [g] presentation of [m * 10^(e-5)] at precision 6: fixed notation
    when [-4 <= e < 6], scientific notation otherwise, trailing zeros of
    the fraction removed in both. *)
Definition render_g6 (me : Z * Z) : text :=
  let (m, e) := me in
  let ds := digits_fixed 6 m in
  if ((-4 <=? e) && (e <? 6))%Z
  then
    if (0 <=? e)%Z
    then with_fraction (firstn (S (Z.to_nat e)) ds)
                       (rstrip_zeros (skipn (S (Z.to_nat e)) ds))
    else with_fraction [0%Z]
                       (rstrip_zeros (repeat 0%Z (Z.to_nat (- e - 1)) ++ ds))
  else
    with_fraction (firstn 1 ds) (rstrip_zeros (skipn 1 ds))
      ++ ["e"%char] ++ [if (e <? 0)%Z then "-"%char else "+"%char]
      ++ show_digits (exp_digits (Z.abs e)).

(** [format(x, ".6g")], the conversion of the f-string [f"{x:.6g}"]. *)
Definition fmt_g6 (x : Q) : text :=
  if Qeq_bool x 0 then ["0"%char]
  else if PyNum.ltb x 0 then "-"%char :: render_g6 (sci6 (- x))
  else render_g6 (sci6 x).

(** What [float(s)] does with a string. *)
Inductive float_result : Type :=
| FloatValue (q : Q)      (* a finite number *)
| FloatNonFinite          (* inf or nan: accepted, no rational value *)
| ValueError.             (* rejected *)

Fixpoint span_digits (s : text) : text * text :=
  match s with
  | c :: r =>
      if isdigit c
      then let (d, rest) := span_digits r in (c :: d, rest)
      else ([], s)
  | [] => ([], [])
  end.

Definition digits_value (ds : text) : Z :=
  fold_left (fun a c => (10 * a + digit_val c)%Z) ds 0%Z.

Definition is_underscore (prev : option ascii) : bool :=
  match prev with
  | Some p => Ascii.eqb p "_"
  | None => false
  end.

(** Digit separators: an underscore is legal after a digit and before a
    digit only, and is dropped before the number is read.  [prev] is the
    character before [s]. *)
Fixpoint remove_underscores (prev : option ascii) (s : text) : option text :=
  match s with
  | [] => if is_underscore prev then None else Some []
  | c :: r =>
      if Ascii.eqb c "_"
      then match prev with
           | Some p => if isdigit p then remove_underscores (Some c) r else None
           | None => None
           end
      else
        if is_underscore prev && negb (isdigit c) then None
        else option_map (cons c) (remove_underscores (Some c) r)
  end.

Definition lower (c : ascii) : ascii :=
  let n := nat_of_ascii c in
  if ((65 <=? n) && (n <=? 90))%nat then ascii_of_nat (n + 32) else c.

Definition is_inf_or_nan (s : text) : bool :=
  let l := map lower s in
  text_eqb l (of_string "inf") || text_eqb l (of_string "infinity")
  || text_eqb l (of_string "nan").

Definition decimal_value (neg : bool) (ip fp : text) (e : Z) : Q :=
  let v := inject_Z (digits_value (ip ++ fp))
           * PyNum.pow10 (e - Z.of_nat (List.length fp)) in
  if neg then - v else v.

(** The fraction after the integer digits: a point and the digits that
    follow it, if there is a point. *)
Definition fraction_part (r1 : text) : text * text :=
  match r1 with
  | "."%char :: r => span_digits r
  | _ => ([], r1)
  end.

(** The exponent that ends the number: nothing, or [e] or [E], an optional
    sign and one digit at least.  [None]: something else is left, an [e]
    without digits included. *)
Definition exponent_part (r2 : text) : option Z :=
  match r2 with
  | [] => Some 0%Z
  | c :: r3 =>
      if Ascii.eqb (lower c) "e"
      then
        let (eneg, r4) := match r3 with
                          | "-"%char :: r => (true, r)
                          | "+"%char :: r => (false, r)
                          | _ => (false, r3)
                          end in
        let (ed, r5) := span_digits r4 in
        match ed, r5 with
        | _ :: _, [] =>
            let e := digits_value ed in Some (if eneg then (- e)%Z else e)
        | _, _ => None
        end
      else None
  end.

(** The decimal grammar: digits, an optional point and fraction with a
    digit on one side at least, an optional exponent, nothing after. *)
Definition parse_decimal (neg : bool) (s : text) : float_result :=
  let (ip, r1) := span_digits s in
  let (fp, r2) := fraction_part r1 in
  match ip, fp with
  | [], [] => ValueError
  | _, _ =>
      match exponent_part r2 with
      | Some e => FloatValue (decimal_value neg ip fp e)
      | None => ValueError
      end
  end.

(** [float(s)] for a string [s]: white space around the number is
    dropped, digit separators are dropped, then comes a sign, then [inf],
    [infinity] or [nan] in any case, or a decimal number. *)
Definition py_float (s : text) : float_result :=
  match remove_underscores None (strip_with isspace_c s) with
  | None => ValueError
  | Some t =>
      let (neg, body) := match t with
                         | "-"%char :: r => (true, r)
                         | "+"%char :: r => (false, r)
                         | _ => (false, t)
                         end in
      if is_inf_or_nan body then FloatNonFinite
      else parse_decimal neg body
  end.

End FloatText.

Import FloatText.

(* ================================================================== *)
(** * The editor state *)
(* ================================================================== *)

(** A breakpoint [(time, value)] in SI units. *)
Definition point : Type := (Q * Q)%type.

(** The unit tables of [__init__]. *)
Module Units.

Definition table := list (string * Q).

Definition time_prefixes : table :=
  [ ("fs"%string, 1 # 1000000000000000); ("ps"%string, 1 # 1000000000000);
    ("ns"%string, 1 # 1000000000); ("μs"%string, 1 # 1000000);
    ("ms"%string, 1 # 1000); ("s"%string, 1) ].

Definition voltage_prefixes : table :=
  [ ("μV"%string, 1 # 1000000); ("mV"%string, 1 # 1000);
    ("V"%string, 1); ("kV"%string, 1000) ].

Definition current_prefixes : table :=
  [ ("pA"%string, 1 # 1000000000000); ("nA"%string, 1 # 1000000000);
    ("μA"%string, 1 # 1000000); ("mA"%string, 1 # 1000); ("A"%string, 1) ].

(** [table[key]]; [None] stands for the [KeyError]. *)
Fixpoint lookup (key : string) (t : table) : option Q :=
  match t with
  | [] => None
  | (k, v) :: r => if String.eqb k key then Some v else lookup key r
  end.

(** [key in table] *)
Definition mem (key : string) (t : table) : bool :=
  match lookup key t with Some _ => true | None => false end.

End Units.

(** The four bounds of the visible window, in display units. *)
Record bounds : Type := mkBounds
  { x_min : Q; x_max : Q; y_min : Q; y_max : Q }.

(** Source kind and the two unit symbols. *)
Record unit_sel : Type := mkUnits
  { source_type : string; time_unit : string; value_unit : string }.

(** Grid snapping: the switch and the two cell sizes, in display units. *)
Record grid_cfg : Type := mkGrid
  { grid_snap_enabled : bool; time_grid_size : Q; value_grid_size : Q }.

(** A message box shown to the user. *)
Inductive dialog : Type :=
| ShowWarning (title : string)
| ShowInfo (title : string)
| ShowError (title : string).

(** The attributes of [PWLTool] the model follows.  The attributes of the
    object come first; [unit_vars], [view_vars] and [grid_vars] are the Tk
    variables bound to the widgets ([source_var], [time_unit_var],
    [value_unit_var]; [x_min_var] to [y_max_var]; [grid_snap_var],
    [time_grid_var], [value_grid_var]); [pwl_text] is the content of the
    text widget and [dialogs] the message boxes shown so far, latest
    first. *)
Record state : Type := mkState
  { pwl_points : list point;
    units : unit_sel;
    view : bounds;
    selected_point : option nat;
    panning : bool;
    pan_start : option (Q * Q);
    grid : grid_cfg;
    unit_vars : unit_sel;
    view_vars : bounds;
    grid_vars : grid_cfg;
    pwl_text : PyStr.text;
    dialogs : list dialog }.

Definition set_points (l : list point) (s : state) : state :=
  mkState l (units s) (view s) (selected_point s) (panning s) (pan_start s)
    (grid s) (unit_vars s) (view_vars s) (grid_vars s) (pwl_text s) (dialogs s).
Definition set_units (u : unit_sel) (s : state) : state :=
  mkState (pwl_points s) u (view s) (selected_point s) (panning s) (pan_start s)
    (grid s) (unit_vars s) (view_vars s) (grid_vars s) (pwl_text s) (dialogs s).
Definition set_view (v : bounds) (s : state) : state :=
  mkState (pwl_points s) (units s) v (selected_point s) (panning s) (pan_start s)
    (grid s) (unit_vars s) (view_vars s) (grid_vars s) (pwl_text s) (dialogs s).
Definition set_selected (i : option nat) (s : state) : state :=
  mkState (pwl_points s) (units s) (view s) i (panning s) (pan_start s)
    (grid s) (unit_vars s) (view_vars s) (grid_vars s) (pwl_text s) (dialogs s).
Definition set_grid (g : grid_cfg) (s : state) : state :=
  mkState (pwl_points s) (units s) (view s) (selected_point s) (panning s)
    (pan_start s) g (unit_vars s) (view_vars s) (grid_vars s) (pwl_text s)
    (dialogs s).
Definition set_unit_vars (u : unit_sel) (s : state) : state :=
  mkState (pwl_points s) (units s) (view s) (selected_point s) (panning s)
    (pan_start s) (grid s) u (view_vars s) (grid_vars s) (pwl_text s) (dialogs s).
Definition set_view_vars (v : bounds) (s : state) : state :=
  mkState (pwl_points s) (units s) (view s) (selected_point s) (panning s)
    (pan_start s) (grid s) (unit_vars s) v (grid_vars s) (pwl_text s) (dialogs s).
Definition set_grid_vars (g : grid_cfg) (s : state) : state :=
  mkState (pwl_points s) (units s) (view s) (selected_point s) (panning s)
    (pan_start s) (grid s) (unit_vars s) (view_vars s) g (pwl_text s) (dialogs s).
Definition set_text (t : PyStr.text) (s : state) : state :=
  mkState (pwl_points s) (units s) (view s) (selected_point s) (panning s)
    (pan_start s) (grid s) (unit_vars s) (view_vars s) (grid_vars s) t (dialogs s).
Definition show (d : dialog) (s : state) : state :=
  mkState (pwl_points s) (units s) (view s) (selected_point s) (panning s)
    (pan_start s) (grid s) (unit_vars s) (view_vars s) (grid_vars s) (pwl_text s)
    (d :: dialogs s).

(** How a method ends: it returns, or an exception leaves it.  Either way
    the object is in the state reached at that moment; Tk reports an
    exception that leaves a callback and the program goes on. *)
Inductive outcome : Type :=
| Returned (s : state)
| Raised (s : state).

Definition final (o : outcome) : state :=
  match o with Returned s | Raised s => s end.

(** Sequencing: what follows runs only after a return. *)
Definition andThen (o : outcome) (k : state -> outcome) : outcome :=
  match o with
  | Returned s => k s
  | Raised s => Raised s
  end.

Notation "o >>= k" := (andThen o k) (at level 50, left associativity).

(** [__init__]: the attributes before the first redraw. *)
Definition initial_points : list point := [(0, 0); (1 # 1000000, 0)].

Definition init_state : state :=
  let u := mkUnits "Voltage" "μs" "mV" in
  let v := mkBounds 0 10 (-5) 5 in
  let g := mkGrid false 1 1 in
  mkState initial_points u v None false None g u v g [] [].

(* ================================================================== *)
(** * Sorting and the text of the PWL command *)
(* ================================================================== *)

(** [list.sort(key=lambda x: x[0])] is stable: elements of equal time keep
    their order.  [insert_by_time p l] puts [p], which came before all of
    [l], in front of the first element whose time is not smaller. *)
Fixpoint insert_by_time (p : point) (l : list point) : list point :=
  match l with
  | [] => [p]
  | q :: r =>
      if PyNum.ltb (fst q) (fst p) then q :: insert_by_time p r else p :: l
  end.

Definition sort_by_time (l : list point) : list point :=
  fold_right insert_by_time [] l.

Definition sentinel : PyStr.text := PyStr.of_string "Need at least 2 points".

(** [f"{t:.6g} {v:.6g}"] *)
Definition fmt_pair (p : point) : PyStr.text :=
  fmt_g6 (fst p) ++ [" "%char] ++ fmt_g6 (snd p).

(** The string [pwl_cmd] computed by [generate_pwl_text]. *)
Definition pwl_cmd (pts : list point) : PyStr.text :=
  if (List.length pts <? 2)%nat then sentinel
  else PyStr.of_string "PWL("
       ++ PyStr.join [" "%char] (map fmt_pair (sort_by_time pts))
       ++ [")"%char].

(** [generate_pwl_text]: the widget is rewritten unless it already shows
    the command, white space around it apart. *)
Definition generate_pwl_text (s : state) : state :=
  let cmd := pwl_cmd (pwl_points s) in
  if PyStr.text_eqb (PyStr.strip (pwl_text s)) cmd then s else set_text cmd s.

(** The scale factors the methods look up first: [time_prefixes[time_unit]]
    and the value table chosen by [source_type]. *)
Definition time_scale (s : state) : option Q :=
  Units.lookup (time_unit (units s)) Units.time_prefixes.

Definition value_scale (s : state) : option Q :=
  if String.eqb (source_type (units s)) "Voltage"
  then Units.lookup (value_unit (units s)) Units.voltage_prefixes
  else Units.lookup (value_unit (units s)) Units.current_prefixes.

(** [update_plot]: nothing but the cleared axes when there is no point;
    otherwise the units are looked up, the plot is drawn and the text is
    regenerated.  Drawing has no effect on the attributes. *)
Definition update_plot (s : state) : outcome :=
  match pwl_points s with
  | [] => Returned s
  | _ =>
      match time_scale s, value_scale s with
      | Some _, Some _ => Returned (generate_pwl_text s)
      | _, _ => Raised s
      end
  end.

(* ================================================================== *)
(** * Grid snapping *)
(* ================================================================== *)

(** [snap_to_grid] *)
Definition snap_to_grid (g : grid_cfg) (time_display value_display : Q)
  : Q * Q :=
  if negb (grid_snap_enabled g) then (time_display, value_display)
  else if PyNum.leb (time_grid_size g) 0 || PyNum.leb (value_grid_size g) 0
  then (time_display, value_display)
  else
    let snapped_time :=
      inject_Z (PyNum.round (time_display / time_grid_size g))
      * time_grid_size g in
    let snapped_value :=
      inject_Z (PyNum.round (value_display / value_grid_size g))
      * value_grid_size g in
    (PyNum.max0 snapped_time, snapped_value).

(** The loop body of [snap_all_points_to_grid]. *)
Definition snap_point (g : grid_cfg) (ts vs : Q) (p : point) : point :=
  let (t_snapped, v_snapped) := snap_to_grid g (fst p / ts) (snd p / vs) in
  (t_snapped * ts, v_snapped * vs).

(** [snap_all_points_to_grid] *)
Definition snap_all_points_to_grid (s : state) : outcome :=
  if negb (grid_snap_enabled (grid s)) then Returned s
  else
    match time_scale s, value_scale s with
    | Some ts, Some vs =>
        update_plot
          (set_points
             (sort_by_time (map (snap_point (grid s) ts vs) (pwl_points s))) s)
    | _, _ => Raised s
    end.

(* ================================================================== *)
(** * The point store *)
(* ================================================================== *)

(** [min_offset] of [find_unique_time]. *)
Definition min_offset (g : grid_cfg) (ts : Q) : Q :=
  let base := (1 # 1000000) * ts in
  if grid_snap_enabled g && PyNum.ltb 0 (time_grid_size g)
  then PyNum.max base (time_grid_size g * ts * (1 # 10000))
  else base.

(** [existing_times]: the times of the points, the excluded index apart. *)
Fixpoint existing_times_from (i : nat) (exclude_index : option nat)
  (pts : list point) : list Q :=
  match pts with
  | [] => []
  | (t, _) :: r =>
      let keep := match exclude_index with
                  | None => true
                  | Some j => negb (i =? j)%nat
                  end in
      if keep then t :: existing_times_from (S i) exclude_index r
      else existing_times_from (S i) exclude_index r
  end.

Definition existing_times (exclude_index : option nat) (pts : list point)
  : list Q :=
  existing_times_from 0 exclude_index pts.

(** The inner loop: is [current_time] within [min_offset / 2] of a stored
    time? *)
Definition is_duplicate (mo current_time : Q) (existing : list Q) : bool :=
  existsb (fun e => PyNum.ltb (PyNum.abs (current_time - e)) (mo / 2)) existing.

(** The [for attempt in range(max_attempts)] loop over the attempts still to
    come; [Some] is the [return] inside the loop, [None] its exhaustion. *)
Fixpoint probe (attempts : list nat) (target mo : Q) (existing : list Q)
  (current_time : Q) (offset_direction : Z) : option Q :=
  match attempts with
  | [] => None
  | attempt :: rest =>
      if negb (is_duplicate mo current_time existing) && PyNum.leb 0 current_time
      then Some current_time
      else
        let a := inject_Z (Z.of_nat attempt) in
        if (0 <? offset_direction)%Z
        then
          let c := target + mo * a in
          if PyNum.ltb c 0
          then probe rest target mo existing target (-1)
          else probe rest target mo existing c offset_direction
        else
          let c := target - mo * a in
          if PyNum.ltb c 0
          then probe rest target mo existing (target + mo * (a + 1))
                 offset_direction
          else probe rest target mo existing c offset_direction
  end.

Definition max_attempts : nat := 100.

(** [max(existing_times)] of a list with head [t]. *)
Definition list_max (t : Q) (l : list Q) : Q := fold_left PyNum.max l t.

(** The two lines after the loop. *)
Definition fallback (target mo : Q) (existing : list Q) : Q :=
  match existing with
  | t :: l => list_max t l + mo
  | [] => PyNum.max0 target
  end.

(** [find_unique_time]; [None] is the [KeyError] of an unknown time unit. *)
Definition find_unique_time (s : state) (target_time : Q)
  (exclude_index : option nat) : option Q :=
  match time_scale s with
  | None => None
  | Some ts =>
      let mo := min_offset (grid s) ts in
      let existing := existing_times exclude_index (pwl_points s) in
      match probe (seq 0 max_attempts) target_time mo existing target_time 1 with
      | Some t => Some t
      | None => Some (fallback target_time mo existing)
      end
  end.

(** The scan of [add_point_at] for the place of the new point: one past the
    last point of the leading run of points earlier than [unique_time]. *)
Fixpoint insert_index (unique_time : Q) (pts : list point) : nat :=
  match pts with
  | [] => O
  | (t, _) :: r =>
      if PyNum.ltb t unique_time then S (insert_index unique_time r) else O
  end.

(** [l.insert(i, p)] for [i <= len(l)]. *)
Definition list_insert (i : nat) (p : point) (l : list point) : list point :=
  firstn i l ++ p :: skipn i l.

(** [x if x is not None else 0] *)
Definition or_zero (x : option Q) : Q :=
  match x with Some v => v | None => 0 end.

(** The first lines shared by [add_point_at] and [move_point]: display
    coordinates, snapped, back to SI, the time clamped at 0. *)
Definition to_real (g : grid_cfg) (ts vs : Q) (x y : option Q) : Q * Q :=
  let (t_display, v_display) := snap_to_grid g (or_zero x) (or_zero y) in
  (PyNum.max0 (t_display * ts), v_display * vs).

(** [add_point_at] *)
Definition add_point_at (s : state) (x y : option Q) : outcome :=
  match time_scale s, value_scale s with
  | Some ts, Some vs =>
      let (real_time, real_value) := to_real (grid s) ts vs x y in
      match find_unique_time s real_time None with
      | None => Raised s
      | Some unique_time =>
          let i := insert_index unique_time (pwl_points s) in
          update_plot
            (set_points (list_insert i (unique_time, real_value) (pwl_points s)) s)
      end
  | _, _ => Raised s
  end.

(** [l[i] = p]; [None] is the [IndexError]. *)
Fixpoint list_assign (i : nat) (p : point) (l : list point)
  : option (list point) :=
  match l, i with
  | [], _ => None
  | _ :: r, O => Some (p :: r)
  | q :: r, S j => option_map (cons q) (list_assign j p r)
  end.

(** The search of [move_point] for the moved point after the sort. *)
Fixpoint relocate_from (i : nat) (unique_time real_value : Q)
  (pts : list point) : option nat :=
  match pts with
  | [] => None
  | (t, v) :: r =>
      if PyNum.ltb (PyNum.abs (t - unique_time)) (1 # 1000000000000)
         && PyNum.ltb (PyNum.abs (v - real_value)) (1 # 1000000000000)
      then Some i
      else relocate_from (S i) unique_time real_value r
  end.

(** [move_point] *)
Definition move_point (s : state) (x y : option Q) : outcome :=
  match selected_point s with
  | None => Returned s
  | Some sel =>
      match time_scale s, value_scale s with
      | Some ts, Some vs =>
          let (real_time, real_value) := to_real (grid s) ts vs x y in
          match find_unique_time s real_time (Some sel) with
          | None => Raised s
          | Some unique_time =>
              match list_assign sel (unique_time, real_value) (pwl_points s) with
              | None => Raised s
              | Some l =>
                  let sorted := sort_by_time l in
                  let s1 := set_points sorted s in
                  let s2 :=
                    match relocate_from 0 unique_time real_value sorted with
                    | Some i => set_selected (Some i) s1
                    | None => s1
                    end in
                  update_plot s2
              end
          end
      | _, _ => Raised s
      end
  end.

(** [del l[i]]; [None] is the [IndexError]. *)
Fixpoint list_delete (i : nat) (l : list point) : option (list point) :=
  match l, i with
  | [], _ => None
  | _ :: r, O => Some r
  | q :: r, S j => option_map (cons q) (list_delete j r)
  end.

(** [delete_point].  [update_info_label], which follows the redraw, writes a
    label only. *)
Definition delete_point (s : state) : outcome :=
  match selected_point s with
  | Some sel =>
      if (2 <? List.length (pwl_points s))%nat
      then
        match list_delete sel (pwl_points s) with
        | None => Raised s
        | Some l => update_plot (set_selected None (set_points l s))
        end
      else
        if (List.length (pwl_points s) <=? 2)%nat
        then Returned (show (ShowWarning "Minimum Points") s)
        else Returned s
  | None => Returned (show (ShowWarning "No Selection") s)
  end.

(* ================================================================== *)
(** * The view: range variables, pan and zoom *)
(* ================================================================== *)

(** [x_min_var.set(v)] with its write trace [validate_x_min], which puts a
    negative value back to 0. *)
Definition set_x_min_var (v : Q) (s : state) : state :=
  let b := view_vars s in
  set_view_vars
    (mkBounds (if PyNum.ltb v 0 then 0 else v) (x_max b) (y_min b) (y_max b)) s.

Definition set_x_max_var (v : Q) (s : state) : state :=
  let b := view_vars s in
  set_view_vars (mkBounds (x_min b) v (y_min b) (y_max b)) s.

Definition set_y_min_var (v : Q) (s : state) : state :=
  let b := view_vars s in
  set_view_vars (mkBounds (x_min b) (x_max b) v (y_max b)) s.

Definition set_y_max_var (v : Q) (s : state) : state :=
  let b := view_vars s in
  set_view_vars (mkBounds (x_min b) (x_max b) (y_min b) v) s.

(** [update_range]: the bounds are read from the range variables, the lower
    time bound not below 0. *)
Definition update_range (s : state) : outcome :=
  let b := view_vars s in
  let xm := PyNum.max0 (x_min b) in
  let s1 := set_view (mkBounds xm (x_max b) (y_min b) (y_max b)) s in
  let s2 := if Qeq_bool xm (x_min b) then s1 else set_x_min_var xm s1 in
  update_plot s2.

(** [zoom_in]: half the span around the centre. *)
Definition zoom_in (s : state) : outcome :=
  let v := view s in
  let x_center := (x_min v + x_max v) / 2 in
  let y_center := (y_min v + y_max v) / 2 in
  let x_range := (x_max v - x_min v) * (1 # 4) in
  let y_range := (y_max v - y_min v) * (1 # 4) in
  update_range
    (set_y_max_var (y_center + y_range)
       (set_y_min_var (y_center - y_range)
          (set_x_max_var (x_center + x_range)
             (set_x_min_var (x_center - x_range) s)))).

(** [zoom_out]: twice the span around the centre. *)
Definition zoom_out (s : state) : outcome :=
  let v := view s in
  let x_center := (x_min v + x_max v) / 2 in
  let y_center := (y_min v + y_max v) / 2 in
  let x_range := (x_max v - x_min v) * 1 in
  let y_range := (y_max v - y_min v) * 1 in
  update_range
    (set_y_max_var (y_center + y_range)
       (set_y_min_var (y_center - y_range)
          (set_x_max_var (x_center + x_range)
             (set_x_min_var (x_center - x_range) s)))).

(** The lines of [pan_left], [on_motion] and [on_scroll] that keep the
    window at or right of 0: a negative lower bound is moved to 0 and the
    upper bound is moved by the same amount. *)
Definition shift_right (new_x_min new_x_max : Q) : Q * Q :=
  if PyNum.ltb new_x_min 0 then (0, new_x_max - new_x_min)
  else (new_x_min, new_x_max).

(** [pan_left] *)
Definition pan_left (s : state) : outcome :=
  let v := view s in
  let x_range := x_max v - x_min v in
  let shift := x_range * (1 # 4) in
  let (new_x_min, new_x_max) := shift_right (x_min v - shift) (x_max v - shift) in
  update_range (set_x_max_var new_x_max (set_x_min_var new_x_min s)).

(** [pan_right] *)
Definition pan_right (s : state) : outcome :=
  let v := view s in
  let shift := (x_max v - x_min v) * (1 # 4) in
  update_range
    (set_x_max_var (x_max v + shift) (set_x_min_var (x_min v + shift) s)).

(** [pan_up] *)
Definition pan_up (s : state) : outcome :=
  let v := view s in
  let shift := (y_max v - y_min v) * (1 # 4) in
  update_range
    (set_y_max_var (y_max v + shift) (set_y_min_var (y_min v + shift) s)).

(** [pan_down] *)
Definition pan_down (s : state) : outcome :=
  let v := view s in
  let shift := (y_max v - y_min v) * (1 # 4) in
  update_range
    (set_y_max_var (y_max v - shift) (set_y_min_var (y_min v - shift) s)).

(** The button of a Matplotlib event: a mouse button by number, or the
    direction of the wheel. *)
Inductive button_t : Type :=
| MouseButton (n : nat)
| Wheel (direction : string)
| NoButton.

(** The fields of a Matplotlib event the handlers read. *)
Record event : Type := mkEvent
  { inaxes : bool;            (* event.inaxes == self.ax *)
    button : button_t;
    key : option string;
    xdata : option Q;
    ydata : option Q }.

Definition key_is (k : string) (ev : event) : bool :=
  match key ev with
  | Some k' => String.eqb k' k
  | None => false
  end.

(** [zoom_factor = 0.9 if event.button == "up" else 1.1] *)
Definition zoom_factor_of (ev : event) : Q :=
  match button ev with
  | Wheel d => if String.eqb d "up" then 9 # 10 else 11 # 10
  | _ => 11 # 10
  end.

(** [on_scroll] *)
Definition on_scroll (s : state) (ev : event) : outcome :=
  if negb (inaxes ev) then Returned s
  else
    let zoom_factor := zoom_factor_of ev in
    match xdata ev, ydata ev with
    | Some x_center, Some y_center =>
        let v := view s in
        if key_is "control" ev
        then
          let y_range := (y_max v - y_min v) * zoom_factor / 2 in
          update_range
            (set_y_max_var (y_center + y_range)
               (set_y_min_var (y_center - y_range) s))
        else if key_is "shift" ev
        then
          let x_range := (x_max v - x_min v) * zoom_factor / 2 in
          let (new_x_min, new_x_max) :=
            shift_right (x_center - x_range) (x_center + x_range) in
          update_range (set_x_max_var new_x_max (set_x_min_var new_x_min s))
        else
          let x_range := (x_max v - x_min v) * zoom_factor / 2 in
          let y_range := (y_max v - y_min v) * zoom_factor / 2 in
          let (new_x_min, new_x_max) :=
            shift_right (x_center - x_range) (x_center + x_range) in
          update_range
            (set_y_max_var (y_center + y_range)
               (set_y_min_var (y_center - y_range)
                  (set_x_max_var new_x_max (set_x_min_var new_x_min s))))
    | _, _ => Returned s
    end.

(** [on_motion]: a drag with the middle or right button pans, a drag with
    the left button moves the selected point. *)
Definition on_motion (s : state) (ev : event) : outcome :=
  if negb (inaxes ev) then Returned s
  else
    match panning s, pan_start s with
    | true, Some (px, py) =>
        match xdata ev, ydata ev with
        | Some x, Some y =>
            let v := view s in
            let dx := px - x in
            let dy := py - y in
            let (new_x_min, new_x_max) :=
              shift_right (x_min v + dx) (x_max v + dx) in
            update_range
              (set_y_max_var (y_max v + dy)
                 (set_y_min_var (y_min v + dy)
                    (set_x_max_var new_x_max (set_x_min_var new_x_min s))))
        | _, _ => Returned s
        end
    | _, _ =>
        match selected_point s, button ev with
        | Some _, MouseButton 1 => move_point s (xdata ev) (ydata ev)
        | _, _ => Returned s
        end
    end.

(** [on_source_type_change] *)
Definition on_source_type_change (s : state) : outcome :=
  let u := units s in
  let st := source_type (unit_vars s) in
  let fix_unit (t : Units.table) (dflt : string) (s : state) : state :=
    if Units.mem (value_unit u) t
    then set_units (mkUnits st (time_unit u) (value_unit u)) s
    else
      set_unit_vars
        (mkUnits (source_type (unit_vars s)) (time_unit (unit_vars s)) dflt)
        (set_units (mkUnits st (time_unit u) dflt) s) in
  if String.eqb st "Voltage"
  then update_plot (fix_unit Units.voltage_prefixes "mV"%string s)
  else update_plot (fix_unit Units.current_prefixes "mA"%string s).

(** [on_unit_change] *)
Definition on_unit_change (s : state) : outcome :=
  update_plot
    (set_units
       (mkUnits (source_type (units s)) (time_unit (unit_vars s))
          (value_unit (unit_vars s))) s).

(* ================================================================== *)
(** * Reading the PWL text *)
(* ================================================================== *)

(** What the text yields. *)
Inductive parse_result : Type :=
| Parsed (pts : list point)   (* the new points, sorted *)
| Ignored                     (* an early [return]: nothing is changed *)
| NonFinite.                  (* accepted with an inf or nan among the numbers *)

(** The loop [for i in range(0, len(parts), 2)].  The tokens are converted
    in order and the first [ValueError] ends the method, so a rejected token
    anywhere wins over an inf or nan.  A last token without partner cannot
    occur after the length test; there [parts[i + 1]] would raise, which the
    outer [except] swallows. *)
Fixpoint parse_pairs (parts : list PyStr.text) : parse_result :=
  match parts with
  | [] => Parsed []
  | [_] => Ignored
  | t :: v :: rest =>
      match py_float t with
      | ValueError => Ignored
      | rt =>
          match py_float v with
          | ValueError => Ignored
          | rv =>
              match parse_pairs rest with
              | Ignored => Ignored
              | NonFinite => NonFinite
              | Parsed l =>
                  match rt, rv with
                  | FloatValue time_val, FloatValue voltage_val =>
                      Parsed
                        ((if PyNum.ltb time_val 0 then 0 else time_val,
                          voltage_val) :: l)
                  | _, _ => NonFinite
                  end
              end
          end
      end
  end.

(** The text of [parse_pwl_text] after [pwl_text = ....strip()] and up to
    the assignment of the new points. *)
Definition parse_stripped (pwl_text : PyStr.text) : parse_result :=
  match pwl_text with
  | [] => Ignored
  | _ =>
      if PyStr.text_eqb pwl_text sentinel then Ignored
      else
        let content :=
          if PyStr.startswith (PyStr.of_string "PWL(") pwl_text
             && PyStr.endswith [")"%char] pwl_text
          then PyStr.slice_inner 4 pwl_text
          else pwl_text in
        let parts := PyStr.split content in
        if (List.length parts <? 4)%nat || negb (List.length parts mod 2 =? 0)%nat
        then Ignored
        else
          match parse_pairs parts with
          | Parsed new_points =>
              let sorted := sort_by_time new_points in
              if (List.length sorted <? 2)%nat then Ignored else Parsed sorted
          | r => r
          end
  end.

(** The same from the content [raw] of the text widget. *)
Definition parse_points (raw : PyStr.text) : parse_result :=
  parse_stripped (PyStr.strip raw).

(** [parse_pwl_text].  The whole body sits in [try ... except Exception:
    pass], so the method ends in the state reached, raised or not.  [None]:
    the text holds an inf or nan and the new points are no rationals. *)
Definition parse_pwl_text (s : state) : option state :=
  match parse_points (pwl_text s) with
  | Ignored => Some s
  | NonFinite => None
  | Parsed new_points =>
      let s1 := set_selected None (set_points new_points s) in
      Some (final (if grid_snap_enabled (grid s1)
                   then snap_all_points_to_grid s1
                   else update_plot s1))
  end.

(* ================================================================== *)
(** * Loading a snapshot *)
(* ================================================================== *)

(** The JSON document of [save_file]: an object whose keys may be missing.
    A range is a list of two numbers. *)
Module Snapshot.
Record t : Type := mk
  { pwl_points : option (list point);
    source_type : option string;
    time_unit : option string;
    value_unit : option string;
    x_range : option (Q * Q);
    y_range : option (Q * Q);
    grid_snap_enabled : option bool;
    time_grid_size : option Q;
    value_grid_size : option Q }.
End Snapshot.

(** [data.get(key, default)] *)
Definition get {A : Type} (field : option A) (default : A) : A :=
  match field with Some v => v | None => default end.

(** The write trace [validate_grid_size] of the two grid variables: a size
    that is not positive becomes 0.001. *)
Definition validate_grid_size (g : grid_cfg) : grid_cfg :=
  mkGrid (grid_snap_enabled g)
    (if PyNum.leb (time_grid_size g) 0 then 1 # 1000 else time_grid_size g)
    (if PyNum.leb (value_grid_size g) 0 then 1 # 1000 else value_grid_size g).

Definition set_grid_snap_var (b : bool) (s : state) : state :=
  let g := grid_vars s in
  set_grid_vars (mkGrid b (time_grid_size g) (value_grid_size g)) s.

(** [time_grid_var.set(v)] and [value_grid_var.set(v)], each followed by the
    trace. *)
Definition set_time_grid_var (v : Q) (s : state) : state :=
  let g := grid_vars s in
  set_grid_vars
    (validate_grid_size (mkGrid (grid_snap_enabled g) v (value_grid_size g))) s.

Definition set_value_grid_var (v : Q) (s : state) : state :=
  let g := grid_vars s in
  set_grid_vars
    (validate_grid_size (mkGrid (grid_snap_enabled g) (time_grid_size g) v)) s.

(** [load_file], from the parsed document on.  The body sits in a [try]
    whose handler shows the error box. *)
Definition load_file (data : Snapshot.t) (s : state) : state :=
  let u := mkUnits (get (Snapshot.source_type data) "Voltage"%string)
                   (get (Snapshot.time_unit data) "μs"%string)
                   (get (Snapshot.value_unit data) "mV"%string) in
  let g := mkGrid (get (Snapshot.grid_snap_enabled data) false)
                  (get (Snapshot.time_grid_size data) 1)
                  (get (Snapshot.value_grid_size data) 1) in
  let x_range := get (Snapshot.x_range data) (0, 10) in
  let y_range := get (Snapshot.y_range data) (-5, 5) in
  let s1 := set_grid g
              (set_units u
                 (set_points (get (Snapshot.pwl_points data) initial_points) s)) in
  let s2 := set_unit_vars u s1 in
  let s3 := set_value_grid_var (value_grid_size g)
              (set_time_grid_var (time_grid_size g)
                 (set_grid_snap_var (grid_snap_enabled g) s2)) in
  let s4 := set_y_max_var (snd y_range)
              (set_y_min_var (fst y_range)
                 (set_x_max_var (snd x_range)
                    (set_x_min_var (fst x_range) s3))) in
  match on_source_type_change s4 >>= update_range with
  | Returned s5 => show (ShowInfo "Loaded") s5
  | Raised s5 => show (ShowError "Error") s5
  end.

(** The state when the window opens: [__init__] ends with [update_plot]. *)
Definition startup : state := final (update_plot init_state).

(** The snapshot of the example: two points, the second off the grid of
    1 us by 1 mV, with grid snapping switched on. *)
Definition off_grid_snapshot : Snapshot.t :=
  Snapshot.mk (Some [(0, 0); (26 # 10000000, 34 # 10000)]) None None None
    None None (Some true) None None.

(* ================================================================== *)
(** * The rest of the editor: grid settings, clicks, the Add Point button,
      auto scale, saving *)
(* ================================================================== *)

(** [on_grid_snap_change]: the check box is read; switching snapping on
    snaps the points there are. *)
Definition on_grid_snap_change (s : state) : outcome :=
  let g := grid s in
  let s1 := set_grid (mkGrid (grid_snap_enabled (grid_vars s))
                        (time_grid_size g) (value_grid_size g)) s in
  if grid_snap_enabled (grid s1) then snap_all_points_to_grid s1
  else Returned s1.

(** [on_grid_size_change].  The body sits in a [try]; an exception, which
    here can only come from the unit look-up of [snap_all_points_to_grid],
    is answered by a warning and by cell sizes of 1. *)
Definition on_grid_size_change (s : state) : state :=
  let time_size := time_grid_size (grid_vars s) in
  let value_size := value_grid_size (grid_vars s) in
  let s1 := if PyNum.leb time_size 0 then set_time_grid_var (1 # 1000) s else s in
  let time_size := if PyNum.leb time_size 0 then 1 # 1000 else time_size in
  let s2 := if PyNum.leb value_size 0
            then set_value_grid_var (1 # 1000) s1 else s1 in
  let value_size := if PyNum.leb value_size 0 then 1 # 1000 else value_size in
  let s3 := set_grid (mkGrid (grid_snap_enabled (grid s2)) time_size value_size)
              s2 in
  match (if grid_snap_enabled (grid s3) then snap_all_points_to_grid s3
         else Returned s3) with
  | Returned s4 => s4
  | Raised s4 =>
      set_value_grid_var 1
        (set_time_grid_var 1
           (set_grid (mkGrid (grid_snap_enabled (grid s4)) 1 1)
              (show (ShowWarning "Grid Size Error") s4)))
  end.

(** [add_point]: a point of value 0 one time unit after the last one. *)
Definition add_point (s : state) : outcome :=
  let new_time :=
    match pwl_points s with
    | [] => Some 0
    | (t, _) :: r =>
        option_map (fun ts => list_max t (map fst r) + ts) (time_scale s)
    end in
  match new_time with
  | None => Raised s
  | Some nt =>
      match find_unique_time s nt None with
      | None => Raised s
      | Some unique_time =>
          update_plot
            (set_points (sort_by_time (pwl_points s ++ [(unique_time, 0)])) s)
      end
  end.

(** [min(a, b)]: the first argument unless the second is strictly
    smaller. *)
Definition py_min (a b : Q) : Q := if PyNum.ltb b a then b else a.

(** [min(l)] of a list with head [t]. *)
Definition list_min (t : Q) (l : list Q) : Q := fold_left py_min l t.

(** [margin = range * 0.1 if range > 0 else 1] *)
Definition margin_of (lo hi : Q) : Q :=
  if PyNum.ltb 0 (hi - lo) then (hi - lo) * (1 # 10) else 1.

(** [auto_scale] *)
Definition auto_scale (s : state) : outcome :=
  match pwl_points s with
  | [] => Returned s
  | (t, v) :: r =>
      let t_min := list_min t (map fst r) in
      let t_max := list_max t (map fst r) in
      let margin := margin_of t_min t_max in
      match time_scale s with
      | None => Raised s
      | Some ts =>
          let s1 := set_x_max_var ((t_max + margin) / ts)
                      (set_x_min_var ((t_min - margin) / ts) s) in
          let v_min := list_min v (map snd r) in
          let v_max := list_max v (map snd r) in
          let margin := margin_of v_min v_max in
          match value_scale s with
          | None => Raised s1
          | Some vs =>
              update_range
                (set_y_max_var ((v_max + margin) / vs)
                   (set_y_min_var ((v_min - margin) / vs) s1))
          end
      end
  end.

(** A mouse press.  Matplotlib gives every event inside the axes its data
    coordinates, and the handler returns at once for the others, so the
    coordinates are numbers here. *)
Record press : Type := mkPress
  { press_inaxes : bool;       (* event.inaxes == self.ax *)
    press_button : nat;
    press_x : Q;               (* event.xdata *)
    press_y : Q;               (* event.ydata *)
    dblclick : bool }.

Definition set_pan (p : bool) (start : option (Q * Q)) (s : state) : state :=
  mkState (pwl_points s) (units s) (view s) (selected_point s) p start
    (grid s) (unit_vars s) (view_vars s) (grid_vars s) (pwl_text s) (dialogs s).

(** The list [distances] of [on_click]: for each point the sum of the
    distances in display time and in display value. *)
Definition distances (ts vs x y : Q) (pts : list point) : list Q :=
  map (fun p => PyNum.abs (x - fst p / ts) + PyNum.abs (y - snd p / vs)) pts.

(** [l.index(d)]: the first position of a number equal to [d]; [None] is
    the [ValueError] of a missing value. *)
Fixpoint index_of (d : Q) (l : list Q) : option nat :=
  match l with
  | [] => None
  | e :: r => if Qeq_bool e d then Some O else option_map S (index_of d r)
  end.

(** [tolerance] of [on_click]. *)
Definition tolerance (v : bounds) : Q :=
  (1 # 10) * PyNum.max (x_max v - x_min v) (y_max v - y_min v).

(** The end of [on_click] when no point is hit: the selection is dropped
    and a double click adds a point. *)
Definition click_miss (s : state) (ev : press) : outcome :=
  update_plot (set_selected None s) >>= fun s1 =>
  if dblclick ev then add_point_at s1 (Some (press_x ev)) (Some (press_y ev))
  else Returned s1.

(** [on_click] *)
Definition on_click (s : state) (ev : press) : outcome :=
  if negb (press_inaxes ev) then Returned s
  else if (press_button ev =? 2)%nat || (press_button ev =? 3)%nat
  then Returned (set_pan true (Some (press_x ev, press_y ev)) s)
  else if (press_button ev =? 1)%nat
  then
    match pwl_points s with
    | [] => click_miss s ev
    | _ :: _ =>
        match time_scale s, value_scale s with
        | Some ts, Some vs =>
            let ds := distances ts vs (press_x ev) (press_y ev) (pwl_points s) in
            let min_distance :=
              match ds with
              | d :: r => list_min d r
              | [] => 0
              end in
            if PyNum.ltb min_distance (tolerance (view s))
            then
              match index_of min_distance ds with
              | Some i => update_plot (set_selected (Some i) s)
              | None => Raised s
              end
            else click_miss s ev
        | _, _ => Raised s
        end
    end
  else Returned s.

(** [on_release] *)
Definition on_release (s : state) (button : nat) : state :=
  if (button =? 2)%nat || (button =? 3)%nat then set_pan false None s else s.




(** [generate_pwl]: the text is regenerated and copied to the clipboard,
    which the model leaves out, and a message box is shown. *)
Definition generate_pwl (s : state) : state :=
  show (ShowInfo "PWL Generated") (generate_pwl_text s).

(** The dictionary [data] that [save_file] writes as JSON. *)
Definition snapshot_of (s : state) : Snapshot.t :=
  Snapshot.mk (Some (pwl_points s))
    (Some (source_type (units s))) (Some (time_unit (units s)))
    (Some (value_unit (units s)))
    (Some (x_min (view s), x_max (view s)))
    (Some (y_min (view s), y_max (view s)))
    (Some (grid_snap_enabled (grid s))) (Some (time_grid_size (grid s)))
    (Some (value_grid_size (grid s))).

(** [save_file], once a file name is chosen: the document written and the
    state with its message box. *)
Definition save_file (s : state) : Snapshot.t * state :=
  (snapshot_of s, show (ShowInfo "Saved") s).

(* ================================================================== *)
(** * The words of the specification *)
(* ================================================================== *)

(** The failures of [delete] the specification names, as the warning boxes
    of [delete_point]. *)
Definition MinimumPointsViolation : dialog := ShowWarning "Minimum Points".
Definition NoSelection : dialog := ShowWarning "No Selection".

(** Ascending by time. *)
Definition sorted_by_time (l : list point) : Prop :=
  StronglySorted (fun p q => fst p <= fst q) l.



(** Any two points of [l] are [d] apart in time at least: no two times are
    within [d] of each other. *)
Definition separated (d : Q) (l : list point) : Prop :=
  ForallOrdPairs (fun p q => d <= Qabs (fst p - fst q)) l.

(** [r] is [x] to six significant digits: zero for zero; otherwise a decimal
    of six digits, [m * 10^k] with [10^5 <= m < 10^6], of the sign of [x],
    within half a unit of the sixth digit of [x]: with [10^e <= |x| <
    10^(e+1)], the distance from [r] to [x] is [10^(e-5) / 2] at most. *)
Definition rounds6 (x r : Q) : Prop :=
  (x == 0 /\ r == 0)
  \/ exists m k e,
       (100000 <= m <= 999999)%Z
       /\ Qabs r == inject_Z m * PyNum.pow10 k
       /\ 0 < r * x
       /\ PyNum.pow10 e <= Qabs x /\ Qabs x < PyNum.pow10 (e + 1)
       /\ Qabs (r - x) <= (1 # 2) * PyNum.pow10 (e - 5).

(** A point list read back: each number is the original one rounded to six
    significant digits. *)
Definition rounded_to (pts pts' : list point) : Prop :=
  Forall2 (fun p p' => (fst p' == round6 (fst p) /\ snd p' == round6 (snd p))
                       /\ rounds6 (fst p) (fst p')
                       /\ rounds6 (snd p) (snd p')) pts pts'.

(** [parse] in the words of the specification: the wrapper [PWL( ... )] is
    removed if it is there, the rest is split at white space, the tokens
    must be four or more and even in number, each must read as a number, the
    numbers are paired, negative times become 0, and the points are sorted
    by time. *)
Definition strip_wrapper (t : PyStr.text) : PyStr.text :=
  if PyStr.startswith (PyStr.of_string "PWL(") t && PyStr.endswith [")"%char] t
  then PyStr.slice_inner 4 t
  else t.

Definition is_value_error (r : float_result) : bool :=
  match r with ValueError => true | _ => false end.

Fixpoint all_numbers (rs : list float_result) : option (list Q) :=
  match rs with
  | [] => Some []
  | FloatValue q :: r => option_map (cons q) (all_numbers r)
  | _ :: _ => None
  end.

Fixpoint pair_up (nums : list Q) : list point :=
  match nums with
  | t :: v :: r => (t, v) :: pair_up r
  | _ => []
  end.

Definition clamp_time (p : point) : point :=
  (if PyNum.ltb (fst p) 0 then 0 else fst p, snd p).



(** The time span of a window. *)
Definition span (v : bounds) : Q := x_max v - x_min v.

(** The range variables hold the bounds in force: no edit of a range field
    is waiting to be applied. *)
Definition synced (s : state) : Prop := view_vars s = view s.

(** A direct edit of the range fields: the four spin boxes write their
    variables, then their command [update_range] runs. *)
Definition edit_range (b : bounds) (s : state) : outcome :=
  update_range
    (set_y_max_var (y_max b)
       (set_y_min_var (y_min b)
          (set_x_max_var (x_max b) (set_x_min_var (x_min b) s)))).

(* ================================================================== *)
(** * Notions used in the proofs *)
(* ================================================================== *)

(** [t] is the target moved by [k] steps of [mo], for some [k] from -99 to
    100. *)
Definition within_steps (target mo t : Q) : Prop :=
  exists k, (-100 < k <= 100)%Z /\ t == target + mo * inject_Z k.

(** The number a list of decimal digits writes, most significant first. *)
Definition digits_number (ds : list Z) : Z :=
  fold_left (fun a d => (10 * a + d)%Z) ds 0%Z.

(** A list of decimal digits. *)
Definition is_digit_list (ds : list Z) : Prop :=
  Forall (fun d => (0 <= d <= 9)%Z) ds.

(** The tails [format] puts after the digits: nothing, or an exponent. *)
Inductive tail_of : PyStr.text -> Z -> Prop :=
| tail_none : tail_of [] 0%Z
| tail_exp (eneg : bool) (E : list Z) :
    is_digit_list E -> E <> [] ->
    tail_of ("e"%char :: (if eneg then "-"%char else "+"%char) :: show_digits E)
            (if eneg then (- digits_number E)%Z else digits_number E).

(** The characters [format] writes a number with. *)
Definition number_char (c : ascii) : bool :=
  PyStr.isdigit c || Ascii.eqb c "." || Ascii.eqb c "e" || Ascii.eqb c "+"
  || Ascii.eqb c "-".

(** A text made of such characters. *)
Definition number_text (s : PyStr.text) : Prop :=
  Forall (fun c => number_char c = true) s.

(** A token: not empty, no white space. *)
Definition plain (t : PyStr.text) : Prop :=
  t <> [] /\ Forall (fun c => PyStr.isspace c = false) t.

(** The tokens of the PWL command, two for each point. *)
Definition tokens_of (pts : list point) : list PyStr.text :=
  flat_map (fun p => [fmt_g6 (fst p); fmt_g6 (snd p)]) pts.

(* ================================================================== *)
(** * Notions of the further properties *)
(* ================================================================== *)

(** Equal as numbers, component by component. *)
Definition same_point (p q : point) : Prop :=
  fst p == fst q /\ snd p == snd q.

Definition same_bounds (a b : bounds) : Prop :=
  x_min a == x_min b /\ x_max a == x_max b
  /\ y_min a == y_min b /\ y_max a == y_max b.

(** [p], taken to display units, lies on a crossing of the grid lines, at
    or right of time 0. *)
Definition on_grid (g : grid_cfg) (ts vs : Q) (p : point) : Prop :=
  (exists k : Z, (0 <= k)%Z /\ fst p / ts == inject_Z k * time_grid_size g)
  /\ exists j : Z, snd p / vs == inject_Z j * value_grid_size g.

(** What a user can do to the editor, file loading apart: write a field
    (a range or grid size field with its write trace, a unit or source
    choice, the check box, the text box), or set off a handler bound in
    [setup_ui]. *)
Inductive action : Type :=
| TypeXMin (v : Q) | TypeXMax (v : Q) | TypeYMin (v : Q) | TypeYMax (v : Q)
| ChooseUnits (u : unit_sel)
| TickSnap (b : bool) | TypeTimeGrid (v : Q) | TypeValueGrid (v : Q)
| TypeText (txt : PyStr.text)
| UpdateRange | SourceTypeChanged | UnitChanged
| GridSnapChanged | GridSizeChanged | ParseText
| AddPoint | DeletePoint | GeneratePwl | SaveFile | AutoScale
| ZoomIn | ZoomOut | PanLeft | PanRight | PanUp | PanDown
| Click (ev : press) | Motion (ev : event) | Release (button : nat)
| Scroll (ev : event).

(** The state an action leaves, returned or raised; [None] when the text
    read holds an inf or nan. *)
Definition handle (a : action) (s : state) : option state :=
  match a with
  | TypeXMin v => Some (set_x_min_var v s)
  | TypeXMax v => Some (set_x_max_var v s)
  | TypeYMin v => Some (set_y_min_var v s)
  | TypeYMax v => Some (set_y_max_var v s)
  | ChooseUnits u => Some (set_unit_vars u s)
  | TickSnap b => Some (set_grid_snap_var b s)
  | TypeTimeGrid v => Some (set_time_grid_var v s)
  | TypeValueGrid v => Some (set_value_grid_var v s)
  | TypeText txt => Some (set_text txt s)
  | UpdateRange => Some (final (update_range s))
  | SourceTypeChanged => Some (final (on_source_type_change s))
  | UnitChanged => Some (final (on_unit_change s))
  | GridSnapChanged => Some (final (on_grid_snap_change s))
  | GridSizeChanged => Some (on_grid_size_change s)
  | ParseText => parse_pwl_text s
  | AddPoint => Some (final (add_point s))
  | DeletePoint => Some (final (delete_point s))
  | GeneratePwl => Some (generate_pwl s)
  | SaveFile => Some (snd (save_file s))
  | AutoScale => Some (final (auto_scale s))
  | ZoomIn => Some (final (zoom_in s))
  | ZoomOut => Some (final (zoom_out s))
  | PanLeft => Some (final (pan_left s))
  | PanRight => Some (final (pan_right s))
  | PanUp => Some (final (pan_up s))
  | PanDown => Some (final (pan_down s))
  | Click ev => Some (final (on_click s ev))
  | Motion ev => Some (final (on_motion s ev))
  | Release b => Some (on_release s b)
  | Scroll ev => Some (final (on_scroll s ev))
  end.

(** A session: actions one after the other. *)
Fixpoint run (l : list action) (s : state) : option state :=
  match l with
  | [] => Some s
  | a :: r =>
      match handle a s with
      | Some s' => run r s'
      | None => None
      end
  end.

(** A store in order: two points at least, ascending by time, no negative
    time. *)
Definition store_ok (pts : list point) : Prop :=
  (2 <= List.length pts)%nat
  /\ sorted_by_time pts
  /\ Forall (fun p => 0 <= fst p) pts.

(** The selection, if there is one, is an index of the store. *)
Definition selection_ok (sel : option nat) (pts : list point) : Prop :=
  match sel with
  | Some i => (i < List.length pts)%nat
  | None => True
  end.

Definition consistent (s : state) : Prop :=
  store_ok (pwl_points s)
  /\ selection_ok (selected_point s) (pwl_points s)
  /\ 0 <= x_min (view s).

(* ================================================================== *)
(** * Properties *)
(* ================================================================== *)

(** ** The redraw *)

(** [update_plot] writes the text widget and nothing else. *)
Lemma update_plot_text_only (s : state) :
  exists t, final (update_plot s) = set_text t s.
Proof.
  assert (Same : s = set_text (pwl_text s) s) by (destruct s; reflexivity).
  unfold update_plot.
  destruct (pwl_points s); [exists (pwl_text s); exact Same|].
  destruct (time_scale s), (value_scale s);
    try (exists (pwl_text s); exact Same).
  unfold generate_pwl_text. simpl final.
  destruct (PyStr.text_eqb _ _); eexists; [exact Same | reflexivity].
Qed.

Lemma update_plot_points (s : state) :
  pwl_points (final (update_plot s)) = pwl_points s.
Proof. destruct (update_plot_text_only s) as [t ->]. reflexivity. Qed.

Lemma update_plot_view (s : state) : view (final (update_plot s)) = view s.
Proof. destruct (update_plot_text_only s) as [t ->]. reflexivity. Qed.

Lemma update_plot_view_vars (s : state) :
  view_vars (final (update_plot s)) = view_vars s.
Proof. destruct (update_plot_text_only s) as [t ->]. reflexivity. Qed.

Lemma update_plot_selected (s : state) :
  selected_point (final (update_plot s)) = selected_point s.
Proof. destruct (update_plot_text_only s) as [t ->]. reflexivity. Qed.

Lemma update_plot_units (s : state) : units (final (update_plot s)) = units s.
Proof. destruct (update_plot_text_only s) as [t ->]. reflexivity. Qed.

Lemma update_plot_grid (s : state) : grid (final (update_plot s)) = grid s.
Proof. destruct (update_plot_text_only s) as [t ->]. reflexivity. Qed.

(** ** Deleting from a store of two points *)

(** C4, as the code has it.  On a store of exactly two points
    [delete_point] removes nothing: with a point selected it shows the
    "Minimum Points" warning (MinimumPointsViolation), with no selection it
    shows the "No Selection" warning (NoSelection); in both cases it returns
    with the points, the selection and everything but the list of message
    boxes as they were. *)
Theorem delete_point_two_points (s : state) :
  List.length (pwl_points s) = 2%nat ->
  delete_point s =
    Returned (show (match selected_point s with
                    | Some _ => MinimumPointsViolation
                    | None => NoSelection
                    end) s)
  /\ pwl_points (final (delete_point s)) = pwl_points s
  /\ List.length (pwl_points (final (delete_point s))) = 2%nat
  /\ selected_point (final (delete_point s)) = selected_point s.
Proof.
  intros H.
  assert (E : delete_point s =
    Returned (show (match selected_point s with
                    | Some _ => MinimumPointsViolation
                    | None => NoSelection
                    end) s)).
  { unfold delete_point. rewrite H. simpl.
    destruct (selected_point s); reflexivity. }
  rewrite E. simpl. auto.
Qed.

Lemma delete_point_two_points_witness :
  List.length (pwl_points (set_selected (Some 1%nat) startup)) = 2%nat
  /\ delete_point (set_selected (Some 1%nat) startup) =
       Returned (show MinimumPointsViolation (set_selected (Some 1%nat) startup)).
Proof.
  split; [reflexivity|].
  exact (proj1 (delete_point_two_points (set_selected (Some 1%nat) startup)
                  eq_refl)).
Defined.

(** C4 as stated fails when nothing is selected: on the two points of the
    start-up state, [delete_point] with no selection reports NoSelection and
    not MinimumPointsViolation. *)
Lemma delete_point_no_selection_counterexample :
  List.length (pwl_points startup) = 2%nat
  /\ selected_point startup = None
  /\ delete_point startup = Returned (show NoSelection startup)
  /\ delete_point startup <> Returned (show MinimumPointsViolation startup).
Proof.
  repeat split; try reflexivity.
  intros H. vm_compute in H. discriminate H.
Qed.

(** ** Comparison tests *)

Lemma ltb_true (a b : Q) : PyNum.ltb a b = true <-> a < b.
Proof.
  unfold PyNum.ltb. rewrite negb_true_iff.
  split; intros H.
  - apply Qnot_le_lt. intros L. apply Qle_bool_iff in L. congruence.
  - destruct (Qle_bool b a) eqn:E; [|reflexivity].
    apply Qle_bool_iff in E. exfalso. apply (Qlt_not_le _ _ H E).
Qed.

Lemma ltb_false (a b : Q) : PyNum.ltb a b = false <-> b <= a.
Proof.
  unfold PyNum.ltb. rewrite negb_false_iff. apply Qle_bool_iff.
Qed.

Lemma leb_true (a b : Q) : PyNum.leb a b = true <-> a <= b.
Proof. apply Qle_bool_iff. Qed.

Lemma leb_false (a b : Q) : PyNum.leb a b = false <-> b < a.
Proof.
  unfold PyNum.leb. split; intros H.
  - apply Qnot_le_lt. intros L. apply Qle_bool_iff in L. congruence.
  - destruct (Qle_bool a b) eqn:E; [|reflexivity].
    apply Qle_bool_iff in E. exfalso. apply (Qlt_not_le _ _ H E).
Qed.

(** Case analysis on the first comparison test of the goal. *)
Ltac case_cmp :=
  match goal with
  | |- context [PyNum.ltb ?a ?b] =>
      let E := fresh "E" in
      destruct (PyNum.ltb a b) eqn:E;
      [apply ltb_true in E | apply ltb_false in E]
  | |- context [PyNum.leb ?a ?b] =>
      let E := fresh "E" in
      destruct (PyNum.leb a b) eqn:E;
      [apply leb_true in E | apply leb_false in E]
  end.

Lemma max0_nonneg (x : Q) : 0 <= PyNum.max0 x.
Proof. unfold PyNum.max0. case_cmp; lra. Qed.

Lemma max0_id (x : Q) : 0 <= x -> PyNum.max0 x == x.
Proof. intros H. unfold PyNum.max0. case_cmp; lra. Qed.

(** ** Unit changes *)

(** C9.  [on_unit_change] takes the time and value units from the two
    selectors and redraws: the stored SI points, the four view bounds and
    the range variables are the same numbers afterwards; nothing is rescaled
    into the new unit. *)
Theorem on_unit_change_keeps_points_and_bounds (s : state) :
  pwl_points (final (on_unit_change s)) = pwl_points s
  /\ view (final (on_unit_change s)) = view s
  /\ view_vars (final (on_unit_change s)) = view_vars s
  /\ time_unit (units (final (on_unit_change s))) = time_unit (unit_vars s)
  /\ value_unit (units (final (on_unit_change s))) = value_unit (unit_vars s).
Proof.
  unfold on_unit_change.
  rewrite update_plot_points, update_plot_view, update_plot_view_vars,
    update_plot_units.
  simpl. auto.
Qed.

(** The same bounds are read in the new unit: after the switch from
    microseconds to milliseconds the window of the start-up state, still
    [0, 10], stands for 10 ms instead of 10 us. *)
Example unit_switch_changes_window :
  let s := set_unit_vars (mkUnits "Voltage" "ms" "mV") startup in
  let s' := final (on_unit_change s) in
  x_max (view s') = x_max (view s)
  /\ option_map (Qmult (x_max (view s))) (time_scale s) = Some (10 * (1 # 1000000))
  /\ option_map (Qmult (x_max (view s'))) (time_scale s') = Some (10 * (1 # 1000)).
Proof. vm_compute. auto. Qed.

(** ** The view *)

Lemma update_range_view (s : state) :
  view (final (update_range s)) =
  mkBounds (PyNum.max0 (x_min (view_vars s))) (x_max (view_vars s))
    (y_min (view_vars s)) (y_max (view_vars s)).
Proof.
  unfold update_range. rewrite update_plot_view.
  destruct (Qeq_bool _ _); reflexivity.
Qed.

Lemma update_range_x_min (s : state) : 0 <= x_min (view (final (update_range s))).
Proof. rewrite update_range_view. simpl. apply max0_nonneg. Qed.

Lemma shift_right_nonneg (a b : Q) : 0 <= fst (shift_right a b).
Proof. unfold shift_right. case_cmp; simpl; lra. Qed.

Lemma shift_right_span (a b : Q) :
  snd (shift_right a b) - fst (shift_right a b) == b - a.
Proof. unfold shift_right. case_cmp; simpl; lra. Qed.

Lemma shift_right_clamped (a b : Q) :
  a < 0 -> fst (shift_right a b) = 0 /\ snd (shift_right a b) == b + (0 - a).
Proof.
  intros H. unfold shift_right.
  apply ltb_true in H. rewrite H. simpl. split; [reflexivity|lra].
Qed.

Lemma move_point_view (s : state) (x y : option Q) :
  view (final (move_point s x y)) = view s.
Proof.
  unfold move_point.
  destruct (selected_point s); [|reflexivity].
  destruct (time_scale s); [|reflexivity].
  destruct (value_scale s); [|reflexivity].
  destruct (to_real _ _ _ _ _) as [rt rv].
  destruct (find_unique_time _ _ _); [|reflexivity].
  destruct (list_assign _ _ _); [|reflexivity].
  rewrite update_plot_view.
  destruct (relocate_from _ _ _ _); reflexivity.
Qed.

Lemma update_range_x (a b : Q) (s : state) :
  0 <= a ->
  view_vars s = mkBounds (if PyNum.ltb a 0 then 0 else a) b
                  (y_min (view_vars s)) (y_max (view_vars s)) ->
  x_min (view (final (update_range s))) == a
  /\ x_max (view (final (update_range s))) = b.
Proof.
  intros Ha E. rewrite update_range_view, E. simpl.
  pose proof Ha as Hb. apply ltb_false in Hb. rewrite Hb.
  split; [apply max0_id; exact Ha | reflexivity].
Qed.

Lemma pan_left_view (s : state) :
  x_min (view (final (pan_left s)))
    == fst (shift_right (x_min (view s) - span (view s) * (1 # 4))
              (x_max (view s) - span (view s) * (1 # 4)))
  /\ x_max (view (final (pan_left s)))
     = snd (shift_right (x_min (view s) - span (view s) * (1 # 4))
              (x_max (view s) - span (view s) * (1 # 4))).
Proof.
  unfold pan_left, span.
  pose proof (shift_right_nonneg
                (x_min (view s) - (x_max (view s) - x_min (view s)) * (1 # 4))
                (x_max (view s) - (x_max (view s) - x_min (view s)) * (1 # 4))) as H.
  destruct (shift_right _ _) as [a b]. simpl in *.
  apply update_range_x; [exact H | reflexivity].
Qed.

Lemma drag_view (s : state) (ev : event) (px py x y : Q) :
  inaxes ev = true -> panning s = true -> pan_start s = Some (px, py) ->
  xdata ev = Some x -> ydata ev = Some y ->
  x_min (view (final (on_motion s ev)))
    == fst (shift_right (x_min (view s) + (px - x)) (x_max (view s) + (px - x)))
  /\ x_max (view (final (on_motion s ev)))
     = snd (shift_right (x_min (view s) + (px - x)) (x_max (view s) + (px - x))).
Proof.
  intros Hin Hp Hs Hx Hy. unfold on_motion. rewrite Hin, Hp, Hs, Hx, Hy. simpl.
  pose proof (shift_right_nonneg (x_min (view s) + (px - x))
                (x_max (view s) + (px - x))) as H.
  destruct (shift_right _ _) as [a b]. simpl in *.
  apply update_range_x; [exact H | reflexivity].
Qed.

Lemma scroll_view_x (s : state) (ev : event) (cx cy : Q) :
  inaxes ev = true -> xdata ev = Some cx -> ydata ev = Some cy ->
  key_is "control" ev = false ->
  let h := span (view s) * zoom_factor_of ev / 2 in
  x_min (view (final (on_scroll s ev))) == fst (shift_right (cx - h) (cx + h))
  /\ x_max (view (final (on_scroll s ev))) = snd (shift_right (cx - h) (cx + h)).
Proof.
  intros Hin Hx Hy Hk h. unfold on_scroll. rewrite Hin, Hx, Hy, Hk. simpl.
  fold (span (view s)). fold h.
  pose proof (shift_right_nonneg (cx - h) (cx + h)) as H.
  destruct (key_is "shift" ev);
    destruct (shift_right _ _) as [a b]; simpl in *;
    (apply update_range_x; [exact H | reflexivity]).
Qed.

Lemma on_scroll_x_min (s : state) (ev : event) :
  0 <= x_min (view s) -> 0 <= x_min (view (final (on_scroll s ev))).
Proof.
  intros H. unfold on_scroll.
  destruct (negb (inaxes ev)); [exact H|].
  destruct (xdata ev); [|exact H].
  destruct (ydata ev); [|exact H].
  destruct (key_is "control" ev); [apply update_range_x_min|].
  destruct (key_is "shift" ev);
    destruct (shift_right _ _); apply update_range_x_min.
Qed.

Lemma on_motion_x_min (s : state) (ev : event) :
  0 <= x_min (view s) -> 0 <= x_min (view (final (on_motion s ev))).
Proof.
  intros H. unfold on_motion.
  destruct (negb (inaxes ev)); [exact H|].
  assert (M : 0 <= x_min (view (final
            match selected_point s, button ev with
            | Some _, MouseButton 1 => move_point s (xdata ev) (ydata ev)
            | _, _ => Returned s
            end))).
  { destruct (selected_point s) as [sel|]; [|exact H].
    destruct (button ev) as [m| |]; try exact H.
    destruct m as [|[|k]]; try exact H.
    rewrite move_point_view. exact H. }
  destruct (panning s); [|exact M].
  destruct (pan_start s) as [[px py]|]; [|exact M].
  destruct (xdata ev); [|exact H].
  destruct (ydata ev); [|exact H].
  destruct (shift_right _ _). apply update_range_x_min.
Qed.

(** C5, as the code has it.  Starting from a window with [x_min >= 0]:
    every view operation (the four pans, the two zoom buttons, the wheel,
    the drag, a direct edit of the range fields) ends with [x_min >= 0];
    [pan_left], the drag and the wheel zoom on the time axis get there by
    moving the whole window right, so that the time span they ask for is
    kept ([pan_left] and the drag keep the span, the wheel scales it by
    its factor) and, when the bound was clamped, [x_max] is the requested
    upper bound plus the amount of the clamp; a direct edit of the range
    fields clamps [x_min] at 0 and leaves [x_max] as entered. *)
Theorem view_ops_keep_time_min (s : state) (ev : event) (b : bounds) :
  0 <= x_min (view s) ->
  Forall (fun o => 0 <= x_min (view (final o)))
    [pan_left s; pan_right s; pan_up s; pan_down s; zoom_in s; zoom_out s;
     on_scroll s ev; on_motion s ev; edit_range b s]
  /\ span (view (final (pan_left s))) == span (view s)
  /\ (x_min (view s) - span (view s) * (1 # 4) < 0 ->
      x_min (view (final (pan_left s))) == 0
      /\ x_max (view (final (pan_left s)))
         == (x_max (view s) - span (view s) * (1 # 4))
            + (0 - (x_min (view s) - span (view s) * (1 # 4))))
  /\ (forall px py x y,
        inaxes ev = true -> panning s = true -> pan_start s = Some (px, py) ->
        xdata ev = Some x -> ydata ev = Some y ->
        span (view (final (on_motion s ev))) == span (view s)
        /\ (x_min (view s) + (px - x) < 0 ->
            x_min (view (final (on_motion s ev))) == 0
            /\ x_max (view (final (on_motion s ev)))
               == (x_max (view s) + (px - x)) + (0 - (x_min (view s) + (px - x)))))
  /\ (forall cx cy,
        inaxes ev = true -> xdata ev = Some cx -> ydata ev = Some cy ->
        key_is "control" ev = false ->
        span (view (final (on_scroll s ev)))
          == span (view s) * zoom_factor_of ev
        /\ (cx - span (view s) * zoom_factor_of ev / 2 < 0 ->
            x_min (view (final (on_scroll s ev))) == 0
            /\ x_max (view (final (on_scroll s ev)))
               == (cx + span (view s) * zoom_factor_of ev / 2)
                  + (0 - (cx - span (view s) * zoom_factor_of ev / 2))))
  /\ x_min (view (final (edit_range b s))) == PyNum.max0 (x_min b)
  /\ x_max (view (final (edit_range b s))) = x_max b.
Proof.
  intros H0.
  split.
  { repeat constructor;
      try apply update_range_x_min;
      try (apply on_scroll_x_min; exact H0);
      try (apply on_motion_x_min; exact H0).
    unfold pan_left. destruct (shift_right _ _). apply update_range_x_min. }
  split.
  { destruct (pan_left_view s) as [A B]. unfold span at 1.
    rewrite A, B. rewrite shift_right_span. unfold span. lra. }
  split.
  { intros L. destruct (pan_left_view s) as [A B]. rewrite A, B.
    destruct (shift_right_clamped _ (x_max (view s) - span (view s) * (1 # 4)) L)
      as [C D].
    rewrite C, D. split; reflexivity. }
  split.
  { intros px py x y Hin Hp Hs Hx Hy.
    destruct (drag_view s ev px py x y Hin Hp Hs Hx Hy) as [A B].
    split.
    - unfold span at 1. rewrite A, B. rewrite shift_right_span.
      unfold span. lra.
    - intros L. rewrite A, B.
      destruct (shift_right_clamped _ (x_max (view s) + (px - x)) L) as [C D].
      rewrite C, D. split; reflexivity. }
  split.
  { intros cx cy Hin Hx Hy Hk.
    destruct (scroll_view_x s ev cx cy Hin Hx Hy Hk) as [A B].
    split.
    - unfold span at 1. rewrite A, B. rewrite shift_right_span. field.
    - intros L. rewrite A, B.
      destruct (shift_right_clamped _
                  (cx + span (view s) * zoom_factor_of ev / 2) L) as [C D].
      rewrite C, D. split; reflexivity. }
  unfold edit_range. rewrite update_range_view. simpl.
  split; [|reflexivity].
  case_cmp.
  - unfold PyNum.max0. repeat case_cmp; lra.
  - reflexivity.
Qed.

Lemma view_ops_keep_time_min_witness :
  0 <= x_min (view startup)
  /\ span (view (final (pan_left startup))) == span (view startup).
Proof.
  assert (H : 0 <= x_min (view startup)) by (vm_compute; discriminate).
  split; [exact H|].
  exact (proj1 (proj2 (view_ops_keep_time_min startup
                         (mkEvent true (Wheel "up") None (Some 8) (Some 0))
                         (mkBounds 0 10 (-5) 5) H))).
Defined.

(** C5 as stated fails for a direct edit of the range fields: asking for
    the window [-5, 10] from the start-up state gives [0, 10]; the lower
    bound is clamped, the upper bound is not moved by the 5 of the clamp,
    and the span is 10 instead of the 15 asked for. *)
Lemma edit_range_shrinks_counterexample :
  let b := mkBounds (-5) 10 (-5) 5 in
  let v := view (final (edit_range b startup)) in
  x_min v == 0
  /\ x_max v == 10
  /\ ~ x_max v == x_max b + (0 - x_min b)
  /\ ~ span v == span b.
Proof.
  vm_compute. repeat split; try reflexivity; intros H; discriminate H.
Qed.

(** The Zoom Out button on the start-up window [0, 10]: the window asked
    for is [-5, 15], twice as wide; the result is [0, 15]. *)
Example zoom_out_at_startup :
  let v := view (final (zoom_out startup)) in
  x_min v == 0 /\ x_max v == 15 /\ span v == (3 # 2) * span (view startup).
Proof. vm_compute. repeat split; reflexivity. Qed.

(** ** The wheel *)




(** ** Sorting by time *)

Lemma insert_by_time_perm (p : point) (l : list point) :
  Permutation (insert_by_time p l) (p :: l).
Proof.
  induction l as [|q r IH]; simpl; [reflexivity|].
  destruct (PyNum.ltb (fst q) (fst p)); [|reflexivity].
  rewrite IH. apply perm_swap.
Qed.

Lemma sort_by_time_perm (l : list point) : Permutation (sort_by_time l) l.
Proof.
  induction l as [|p r IH]; simpl; [reflexivity|].
  rewrite insert_by_time_perm. constructor. exact IH.
Qed.

Lemma insert_by_time_sorted (p : point) (l : list point) :
  sorted_by_time l -> sorted_by_time (insert_by_time p l).
Proof.
  unfold sorted_by_time.
  induction l as [|q r IH]; intros H; simpl.
  - constructor; constructor.
  - inversion H as [|? ? Hr Hq]; subst.
    case_cmp.
    + constructor; [apply IH; exact Hr|].
      eapply Permutation_Forall.
      * symmetry. apply insert_by_time_perm.
      * constructor; [apply Qlt_le_weak; exact E | exact Hq].
    + constructor; [exact H|].
      constructor; [exact E|].
      eapply Forall_impl; [|exact Hq].
      intros a Ha. simpl in Ha. eapply Qle_trans; eassumption.
Qed.

Lemma sort_by_time_sorted (l : list point) : sorted_by_time (sort_by_time l).
Proof.
  induction l as [|p r IH]; simpl.
  - constructor.
  - apply insert_by_time_sorted, IH.
Qed.

(** A list already in order is left as it is: the sort is stable. *)
Lemma sort_by_time_id (l : list point) :
  sorted_by_time l -> sort_by_time l = l.
Proof.
  unfold sorted_by_time.
  induction l as [|p r IH]; intros H; simpl; [reflexivity|].
  inversion H as [|? ? Hr Hp]; subst.
  rewrite (IH Hr).
  destruct r as [|q r']; simpl; [reflexivity|].
  inversion Hp as [|? ? Hq _]; subst.
  apply ltb_false in Hq. rewrite Hq. reflexivity.
Qed.

(** ** Distances between times *)

Lemma separated_cons (d : Q) (p : point) (l : list point) :
  separated d (p :: l) <->
  Forall (fun q => d <= Qabs (fst p - fst q)) l /\ separated d l.
Proof.
  unfold separated. split.
  - intros H. inversion H; subst. auto.
  - intros [A B]. constructor; assumption.
Qed.

Lemma Qabs_swap (a b : Q) : Qabs (a - b) == Qabs (b - a).
Proof.
  rewrite <- (Qabs_opp (a - b)). apply Qabs_wd. ring.
Qed.

Lemma separated_perm (d : Q) (l l' : list point) :
  Permutation l l' -> separated d l -> separated d l'.
Proof.
  induction 1 as [|x l l' HP IH|x y l|l l' l'' HP1 IH1 HP2 IH2]; intros H.
  - exact H.
  - apply separated_cons in H. destruct H as [A B].
    apply separated_cons. split; [|apply IH; exact B].
    eapply Permutation_Forall; eassumption.
  - apply separated_cons in H. destruct H as [A B].
    apply separated_cons in B. destruct B as [B C].
    inversion A as [|? ? Axy A']; subst.
    apply separated_cons. split.
    + constructor; [|exact B]. rewrite Qabs_swap. exact Axy.
    + apply separated_cons. split; assumption.
  - apply IH2, IH1, H.
Qed.

(** ** The search for a free time *)

Lemma lookup_in (key : string) (t : Units.table) (v : Q) :
  Units.lookup key t = Some v -> In (key, v) t.
Proof.
  induction t as [|[k w] r IH]; simpl; [discriminate|].
  destruct (String.eqb k key) eqn:E.
  - intros H. injection H as <-. apply String.eqb_eq in E. subst k. now left.
  - intros H. right. apply IH, H.
Qed.

Lemma time_scale_pos (s : state) (ts : Q) : time_scale s = Some ts -> 0 < ts.
Proof.
  unfold time_scale. intros H. apply lookup_in in H.
  assert (F : Forall (fun kv : string * Q => 0 < snd kv) Units.time_prefixes)
    by (repeat constructor).
  rewrite Forall_forall in F. exact (F _ H).
Qed.

Lemma max_ge_l (a b : Q) : a <= PyNum.max a b.
Proof. unfold PyNum.max. case_cmp; lra. Qed.

Lemma max_ge_r (a b : Q) : b <= PyNum.max a b.
Proof. unfold PyNum.max. case_cmp; lra. Qed.

Lemma min_offset_pos (g : grid_cfg) (ts : Q) : 0 < ts -> 0 < min_offset g ts.
Proof.
  intros H. unfold min_offset.
  assert (B : 0 < (1 # 1000000) * ts) by lra.
  destruct (grid_snap_enabled g && PyNum.ltb 0 (time_grid_size g)); [|exact B].
  eapply Qlt_le_trans; [exact B | apply max_ge_l].
Qed.

Lemma list_max_ge (l : list Q) (t : Q) :
  t <= list_max t l /\ Forall (fun e => e <= list_max t l) l.
Proof.
  unfold list_max. revert t.
  induction l as [|a r IH]; intros t; simpl.
  - split; [lra | constructor].
  - destruct (IH (PyNum.max t a)) as [A B].
    split.
    + eapply Qle_trans; [apply max_ge_l | exact A].
    + constructor; [|exact B].
      eapply Qle_trans; [apply max_ge_r | exact A].
Qed.

Lemma is_duplicate_false (mo r : Q) (existing : list Q) :
  is_duplicate mo r existing = false ->
  forall e, In e existing -> mo / 2 <= Qabs (r - e).
Proof.
  unfold is_duplicate. intros H e He.
  assert (F : PyNum.ltb (PyNum.abs (r - e)) (mo / 2) = false).
  { destruct (PyNum.ltb (PyNum.abs (r - e)) (mo / 2)) eqn:E; [|reflexivity].
    assert (T : existsb
                  (fun e0 => PyNum.ltb (PyNum.abs (r - e0)) (mo / 2)) existing
                = true).
    { apply existsb_exists. exists e. split; assumption. }
    congruence. }
  apply ltb_false in F. exact F.
Qed.

(** The loop of [find_unique_time] for a given target, offset and list of
    stored times. *)
Section Probe.

Variables (target mo : Q) (existing : list Q).

(** What the loop returns has passed its test. *)
Lemma probe_sound (attempts : list nat) (current_time : Q)
  (offset_direction : Z) (r : Q) :
  probe attempts target mo existing current_time offset_direction = Some r ->
  is_duplicate mo r existing = false /\ 0 <= r.
Proof.
  revert current_time offset_direction.
  induction attempts as [|a rest IH]; intros c d; simpl; [discriminate|].
  destruct (negb (is_duplicate mo c existing) && PyNum.leb 0 c) eqn:E.
  - intros H. injection H as <-.
    apply andb_true_iff in E. destruct E as [E1 E2].
    apply negb_true_iff in E1. apply leb_true in E2. auto.
  - destruct (0 <? d)%Z; destruct (PyNum.ltb _ 0); apply IH.
Qed.

(** A value returned inside the loop is the target moved by a whole number
    of steps of [mo], at most 100 either way. *)
Lemma probe_steps (attempts : list nat) (current_time : Q)
  (offset_direction : Z) (r : Q) :
  Forall (fun a => (a < 100)%nat) attempts ->
  within_steps target mo current_time ->
  probe attempts target mo existing current_time offset_direction = Some r ->
  within_steps target mo r.
Proof.
  revert current_time offset_direction.
  induction attempts as [|a rest IH]; intros c d F Hc; simpl; [discriminate|].
  inversion F as [|? ? Ha Hrest]; subst.
  destruct (negb (is_duplicate mo c existing) && PyNum.leb 0 c).
  - intros H. injection H as <-. exact Hc.
  - assert (K0 : within_steps target mo target).
    { exists 0%Z. split; [lia|]. unfold inject_Z. ring. }
    assert (K1 : within_steps target mo (target + mo * inject_Z (Z.of_nat a))).
    { exists (Z.of_nat a). split; [lia|reflexivity]. }
    assert (K2 : within_steps target mo (target - mo * inject_Z (Z.of_nat a))).
    { exists (- Z.of_nat a)%Z. split; [lia|].
      rewrite inject_Z_opp. ring. }
    assert (K3 : within_steps target mo (target + mo * (inject_Z (Z.of_nat a) + 1))).
    { exists (Z.of_nat a + 1)%Z. split; [lia|].
      rewrite inject_Z_plus. reflexivity. }
    destruct (0 <? d)%Z; destruct (PyNum.ltb _ 0); apply IH; assumption.
Qed.

End Probe.

Lemma seq_below (n : nat) : Forall (fun a => (a < n)%nat) (seq 0 n).
Proof.
  apply Forall_forall. intros a H. apply in_seq in H. lia.
Qed.


Lemma existing_times_from_sound (i : nat) (ex : option nat)
  (pts : list point) (e : Q) :
  In e (existing_times_from i ex pts) -> exists p, In p pts /\ e = fst p.
Proof.
  revert i.
  induction pts as [|[t v] r IH]; intros i H; simpl in H; [contradiction|].
  destruct (match ex with
            | Some j0 => negb (i =? j0)%nat
            | None => true
            end).
  - destruct H as [<-|H].
    + exists (t, v). split; [now left | reflexivity].
    + destruct (IH _ H) as [p [A B]]. exists p. split; [now right | exact B].
  - destruct (IH _ H) as [p [A B]]. exists p. split; [now right | exact B].
Qed.

Lemma fallback_far (target mo : Q) (existing : list Q) :
  0 < mo ->
  forall e, In e existing -> mo / 2 <= Qabs (fallback target mo existing - e).
Proof.
  intros Hmo e He.
  destruct existing as [|t l]; [contradiction|]. unfold fallback.
  destruct (list_max_ge l t) as [A B].
  assert (L : e <= list_max t l).
  { destruct He as [<-|He]; [exact A|].
    rewrite Forall_forall in B. apply B, He. }
  apply Qle_trans with (list_max t l + mo - e); [|apply Qle_Qabs].
  assert (mo / 2 == mo * (1 # 2)) as -> by field.
  lra.
Qed.

Lemma fallback_nonneg (target mo : Q) (existing : list Q) :
  0 < mo -> Forall (fun e => 0 <= e) existing ->
  0 <= fallback target mo existing.
Proof.
  intros Hmo F.
  destruct existing as [|t l]; unfold fallback; [apply max0_nonneg|].
  inversion F; subst.
  destruct (list_max_ge l t) as [A _]. lra.
Qed.

(** What [find_unique_time] returns, in its two cases. *)
Lemma find_unique_time_cases (s : state) (target : Q) (ex : option nat)
  (ts : Q) :
  time_scale s = Some ts ->
  let mo := min_offset (grid s) ts in
  let existing := existing_times ex (pwl_points s) in
  exists r, find_unique_time s target ex = Some r
    /\ (forall e, In e existing -> mo / 2 <= Qabs (r - e))
    /\ ((0 <= r /\ exists k, (-100 < k <= 100)%Z
                             /\ r == target + mo * inject_Z k)
        \/ r = fallback target mo existing).
Proof.
  intros Hts mo existing.
  unfold find_unique_time. rewrite Hts. fold mo. fold existing.
  destruct (probe (seq 0 max_attempts) target mo existing target 1)
    as [r|] eqn:P.
  - exists r. split; [reflexivity|].
    destruct (probe_sound _ _ _ _ _ _ _ P) as [D N].
    split; [apply is_duplicate_false; exact D|].
    left. split; [exact N|].
    assert (K0 : within_steps target mo target).
    { exists 0%Z. split; [lia|]. unfold inject_Z. ring. }
    exact (probe_steps target mo existing (seq 0 max_attempts) target 1 r
             (seq_below max_attempts) K0 P).
  - exists (fallback target mo existing). split; [reflexivity|].
    split; [|now right].
    apply fallback_far. apply min_offset_pos. eapply time_scale_pos; eassumption.
Qed.




(** ** Insert and update *)

Lemma list_insert_perm (i : nat) (p : point) (l : list point) :
  Permutation (list_insert i p l) (p :: l).
Proof.
  unfold list_insert. rewrite <- Permutation_middle.
  rewrite firstn_skipn. reflexivity.
Qed.

Lemma list_insert_sorted (u v : Q) (l : list point) :
  sorted_by_time l ->
  sorted_by_time (list_insert (insert_index u l) (u, v) l).
Proof.
  unfold sorted_by_time.
  induction l as [|[t w] r IH]; intros H.
  - repeat constructor.
  - inversion H as [|? ? Hr Ht]; subst. simpl. case_cmp.
    + change (list_insert (S (insert_index u r)) (u, v) ((t, w) :: r))
        with ((t, w) :: list_insert (insert_index u r) (u, v) r).
      constructor; [apply IH; exact Hr|].
      eapply Permutation_Forall; [symmetry; apply list_insert_perm|].
      constructor; [simpl; lra | exact Ht].
    + change (list_insert 0 (u, v) ((t, w) :: r)) with ((u, v) :: (t, w) :: r).
      constructor; [exact H|].
      constructor; [exact E|].
      eapply Forall_impl; [|exact Ht].
      intros a Ha. simpl in *. lra.
Qed.


Lemma list_assign_split (i : nat) (p : point) (l l' : list point) :
  list_assign i p l = Some l' ->
  exists l1 old l2,
    l = l1 ++ old :: l2 /\ l' = l1 ++ p :: l2 /\ List.length l1 = i.
Proof.
  revert i l'.
  induction l as [|q r IH]; intros i l' H; [destruct i; discriminate|].
  destruct i as [|j]; simpl in H.
  - injection H as <-. exists [], q, r. auto.
  - destruct (list_assign j p r) as [r'|] eqn:E; [|discriminate].
    injection H as <-.
    destruct (IH _ _ E) as [l1 [old [l2 [A [B C]]]]].
    exists (q :: l1), old, l2. subst. simpl. auto.
Qed.







(** ** Powers of ten and rounding *)

Lemma ten_neq_0 : ~ (10 # 1) == 0.
Proof. intros H. discriminate H. Qed.

Lemma pow10_pos (e : Z) : 0 < PyNum.pow10 e.
Proof. apply Qpower_0_lt. reflexivity. Qed.

Lemma pow10_plus (a b : Z) :
  PyNum.pow10 (a + b) == PyNum.pow10 a * PyNum.pow10 b.
Proof. apply Qpower_plus, ten_neq_0. Qed.

Lemma pow10_0 : PyNum.pow10 0 == 1.
Proof. reflexivity. Qed.

Lemma pow10_1 : PyNum.pow10 1 == 10.
Proof. reflexivity. Qed.

Lemma pow10_succ (e : Z) : PyNum.pow10 (e + 1) == PyNum.pow10 e * 10.
Proof. rewrite pow10_plus, pow10_1. reflexivity. Qed.

Lemma pow10_le (a b : Z) : (a <= b)%Z -> PyNum.pow10 a <= PyNum.pow10 b.
Proof. intros H. apply Qpower_le_compat_l; [exact H | discriminate]. Qed.

Lemma pow10_nat (n : Z) :
  (0 <= n)%Z -> PyNum.pow10 n == inject_Z (10 ^ n).
Proof. intros H. rewrite Zpower_Qpower by exact H. reflexivity. Qed.

(** [round] is within a half of its argument. *)
Lemma round_close (x : Q) :
  inject_Z (PyNum.round x) - x <= 1 # 2 /\ x - inject_Z (PyNum.round x) <= 1 # 2.
Proof.
  unfold PyNum.round.
  pose proof (Qfloor_le x) as L. pose proof (Qlt_floor x) as U.
  rewrite inject_Z_plus in U. change (inject_Z 1) with 1 in U.
  repeat case_cmp; try destruct (Z.even _);
    rewrite ?inject_Z_plus; change (inject_Z 1) with 1; split; lra.
Qed.

Lemma round_Z (z : Z) : PyNum.round (inject_Z z) = z.
Proof.
  unfold PyNum.round. rewrite Qfloor_Z.
  assert (E : inject_Z z - inject_Z z == 0) by ring.
  case_cmp; [reflexivity|]. exfalso. lra.
Qed.

Lemma round_mono (x y : Q) : x <= y -> (PyNum.round x <= PyNum.round y)%Z.
Proof.
  intros H.
  pose proof (Qfloor_resp_le _ _ H) as F.
  pose proof (Qfloor_le x) as Lx. pose proof (Qlt_floor x) as Ux.
  pose proof (Qfloor_le y) as Ly. pose proof (Qlt_floor y) as Uy.
  rewrite inject_Z_plus in Ux, Uy. change (inject_Z 1) with 1 in Ux, Uy.
  assert (Rx : (Qfloor x <= PyNum.round x <= Qfloor x + 1)%Z).
  { unfold PyNum.round. repeat case_cmp; try destruct (Z.even _); lia. }
  assert (Ry : (Qfloor y <= PyNum.round y <= Qfloor y + 1)%Z).
  { unfold PyNum.round. repeat case_cmp; try destruct (Z.even _); lia. }
  destruct (Z.eq_dec (Qfloor x) (Qfloor y)) as [E|N]; [|lia].
  unfold PyNum.round. rewrite <- E.
  assert (D : x - inject_Z (Qfloor x) <= y - inject_Z (Qfloor x)) by lra.
  destruct (PyNum.ltb (x - inject_Z (Qfloor x)) (1 # 2)) eqn:E1;
    [apply ltb_true in E1 | apply ltb_false in E1];
  destruct (PyNum.ltb (y - inject_Z (Qfloor x)) (1 # 2)) eqn:E2;
    [apply ltb_true in E2 | apply ltb_false in E2 |
     apply ltb_true in E2 | apply ltb_false in E2];
  destruct (PyNum.ltb (1 # 2) (x - inject_Z (Qfloor x))) eqn:E3;
    [apply ltb_true in E3 | apply ltb_false in E3 |
     apply ltb_true in E3 | apply ltb_false in E3 |
     apply ltb_true in E3 | apply ltb_false in E3 |
     apply ltb_true in E3 | apply ltb_false in E3];
  destruct (PyNum.ltb (1 # 2) (y - inject_Z (Qfloor x))) eqn:E4;
  try (apply ltb_true in E4); try (apply ltb_false in E4);
  try destruct (Z.even (Qfloor x)); try lia; try (exfalso; lra).
Qed.

(** ** The decimal exponent *)

Lemma exp_down_spec (fuel : nat) (q : Q) (e : Z) :
  1 <= q -> q < PyNum.pow10 (Z.of_nat fuel + 1) ->
  PyNum.pow10 (exp_down fuel q e - e) <= q
  /\ q < PyNum.pow10 (exp_down fuel q e - e + 1).
Proof.
  revert q e.
  induction fuel as [|f IH]; intros q e H1 H2.
  - simpl exp_down. replace (e - e)%Z with 0%Z by lia.
    simpl Z.add in *. rewrite pow10_0, pow10_1 in *. split; lra.
  - simpl exp_down. case_cmp.
    + assert (A : 1 <= q / 10).
      { apply Qle_shift_div_l; [reflexivity | lra]. }
      assert (B : q / 10 < PyNum.pow10 (Z.of_nat f + 1)).
      { apply Qlt_shift_div_r; [reflexivity|].
        rewrite <- pow10_succ.
        replace (Z.of_nat f + 1 + 1)%Z with (Z.of_nat (S f) + 1)%Z by lia.
        exact H2. }
      destruct (IH (q / 10) (e + 1)%Z A B) as [C D].
      set (e' := exp_down f (q / 10) (e + 1)) in *.
      assert (P : PyNum.pow10 (e' - e)
                  == PyNum.pow10 (e' - (e + 1)) * 10).
      { rewrite <- pow10_succ. apply Qpower_comp; [reflexivity | lia]. }
      assert (P' : PyNum.pow10 (e' - e + 1)
                   == PyNum.pow10 (e' - (e + 1) + 1) * 10).
      { rewrite <- pow10_succ. apply Qpower_comp; [reflexivity | lia]. }
      rewrite P, P'.
      assert (Q10 : q / 10 == q * (1 # 10)) by field.
      rewrite Q10 in C, D.
      split; lra.
    + replace (e - e)%Z with 0%Z by lia. simpl Z.add.
      rewrite pow10_0, pow10_1. split; lra.
Qed.

Lemma exp_up_spec (fuel : nat) (q : Q) (e : Z) :
  PyNum.pow10 (- Z.of_nat fuel) <= q -> q < 10 ->
  PyNum.pow10 (exp_up fuel q e - e) <= q
  /\ q < PyNum.pow10 (exp_up fuel q e - e + 1).
Proof.
  revert q e.
  induction fuel as [|f IH]; intros q e H1 H2.
  - simpl exp_up. replace (e - e)%Z with 0%Z by lia.
    simpl Z.add. simpl Z.opp in H1. rewrite pow10_0, pow10_1 in *. split; lra.
  - simpl exp_up. case_cmp.
    + assert (A : PyNum.pow10 (- Z.of_nat f) <= q * 10).
      { assert (P : PyNum.pow10 (- Z.of_nat f)
                    == PyNum.pow10 (- Z.of_nat (S f)) * 10).
        { rewrite <- pow10_succ. apply Qpower_comp; [reflexivity | lia]. }
        rewrite P. apply Qmult_le_compat_r; [exact H1 | discriminate]. }
      assert (B : q * 10 < 10) by lra.
      destruct (IH (q * 10) (e - 1)%Z A B) as [C D].
      set (e' := exp_up f (q * 10) (e - 1)) in *.
      assert (P : PyNum.pow10 (e' - (e - 1))
                  == PyNum.pow10 (e' - e) * 10).
      { rewrite <- pow10_succ. apply Qpower_comp; [reflexivity | lia]. }
      assert (P' : PyNum.pow10 (e' - (e - 1) + 1)
                   == PyNum.pow10 (e' - e + 1) * 10).
      { rewrite <- pow10_succ. apply Qpower_comp; [reflexivity | lia]. }
      rewrite P in C. rewrite P' in D.
      split.
      * apply Qmult_lt_0_le_reg_r with 10; [reflexivity | exact C].
      * apply Qmult_lt_r with 10; [reflexivity | exact D].
    + replace (e - e)%Z with 0%Z by lia. simpl Z.add.
      rewrite pow10_0, pow10_1. split; lra.
Qed.

Lemma pos_lt_pow10 (p : positive) :
  (Z.pos p < 10 ^ Z.of_nat (Pos.size_nat p))%Z.
Proof.
  induction p as [p IH|p IH|]; simpl Pos.size_nat.
  - rewrite Nat2Z.inj_succ, Z.pow_succ_r by lia. lia.
  - rewrite Nat2Z.inj_succ, Z.pow_succ_r by lia. lia.
  - reflexivity.
Qed.

Lemma decimal_exponent_spec (q : Q) :
  0 < q ->
  PyNum.pow10 (decimal_exponent q) <= q
  /\ q < PyNum.pow10 (decimal_exponent q + 1).
Proof.
  intros Hq. unfold decimal_exponent.
  destruct q as [n d].
  assert (Hn : (0 < n)%Z).
  { unfold Qlt in Hq. simpl in Hq. lia. }
  destruct n as [|n|n]; try lia. clear Hn.
  simpl Qnum. simpl Qden. simpl Z.to_pos.
  case_cmp.
  - pose proof (exp_down_spec (Pos.size_nat n) (Z.pos n # d) 0 E) as S.
    rewrite Z.sub_0_r in S. apply S.
    apply Qlt_le_trans with (inject_Z (10 ^ Z.of_nat (Pos.size_nat n))).
    + pose proof (pos_lt_pow10 n) as P.
      unfold Qlt, inject_Z. simpl. nia.
    + rewrite <- pow10_nat by lia. apply pow10_le. lia.
  - pose proof (exp_up_spec (Pos.size_nat d) (Z.pos n # d) 0) as S.
    rewrite Z.sub_0_r in S. apply S; [|lra].
    pose proof (pos_lt_pow10 d) as P.
    assert (I : PyNum.pow10 (- Z.of_nat (Pos.size_nat d))
                == / inject_Z (10 ^ Z.of_nat (Pos.size_nat d))).
    { unfold PyNum.pow10. rewrite Qpower_opp.
      apply Qinv_comp. apply pow10_nat. lia. }
    rewrite I.
    assert (Pz : (0 < 10 ^ Z.of_nat (Pos.size_nat d))%Z) by lia.
    destruct (10 ^ Z.of_nat (Pos.size_nat d))%Z as [|w|w] eqn:W; try lia.
    unfold Qle, Qinv, inject_Z. simpl. nia.
Qed.

(** ** Six significant digits *)

(** The scaled value [q * 10^(5-e)] lies between [10^5] and [10^6]. *)
Lemma scaled_bounds (q : Q) :
  0 < q ->
  let y := q * PyNum.pow10 (5 - decimal_exponent q) in
  100000 <= y /\ y < 1000000.
Proof.
  intros Hq y. unfold y.
  destruct (decimal_exponent_spec q Hq) as [A B].
  set (e := decimal_exponent q) in *.
  pose proof (pow10_pos (5 - e)) as P.
  assert (E1 : PyNum.pow10 e * PyNum.pow10 (5 - e) == 100000).
  { rewrite <- pow10_plus. replace (e + (5 - e))%Z with 5%Z by lia.
    reflexivity. }
  assert (E2 : PyNum.pow10 (e + 1) * PyNum.pow10 (5 - e) == 1000000).
  { rewrite <- pow10_plus. replace (e + 1 + (5 - e))%Z with 6%Z by lia.
    reflexivity. }
  split.
  - rewrite <- E1. apply Qmult_le_compat_r; [exact A | lra].
  - rewrite <- E2. apply Qmult_lt_compat_r; [exact P | exact B].
Qed.

Lemma round_scaled_bounds (q : Q) :
  0 < q ->
  (100000 <= PyNum.round (q * PyNum.pow10 (5 - decimal_exponent q))
   <= 1000000)%Z.
Proof.
  intros Hq. destruct (scaled_bounds q Hq) as [A B].
  split.
  - rewrite <- (round_Z 100000). apply round_mono. exact A.
  - rewrite <- (round_Z 1000000). apply round_mono.
    apply Qlt_le_weak. exact B.
Qed.

(** The value of [sci6 q] is the rounded scaled value put back in place,
    whether or not the rounding carried. *)
Lemma sci6_value (q : Q) :
  sci_value (sci6 q)
  == inject_Z (PyNum.round (q * PyNum.pow10 (5 - decimal_exponent q)))
     * PyNum.pow10 (decimal_exponent q - 5).
Proof.
  unfold sci6, sci_value.
  set (e := decimal_exponent q).
  set (m := PyNum.round (q * PyNum.pow10 (5 - e))).
  destruct (m =? 1000000)%Z eqn:E; simpl fst; simpl snd; [|reflexivity].
  apply Z.eqb_eq in E. rewrite E.
  replace (e + 1 - 5)%Z with ((e - 5) + 1)%Z by lia.
  rewrite pow10_succ.
  change (inject_Z 100000) with (100000 # 1).
  change (inject_Z 1000000) with (1000000 # 1).
  ring.
Qed.

Lemma sci6_digits (q : Q) :
  0 < q -> (100000 <= fst (sci6 q) <= 999999)%Z.
Proof.
  intros Hq. pose proof (round_scaled_bounds q Hq) as B.
  unfold sci6.
  destruct (_ =? 1000000)%Z eqn:E; cbn [fst].
  - clear. lia.
  - apply Z.eqb_neq in E. lia.
Qed.

(** [sci6 q] is within half a unit of the sixth digit of [q], and stays in
    the decade of [q], its upper end included. *)
Lemma sci6_close (q : Q) :
  0 < q ->
  let e := decimal_exponent q in
  Qabs (sci_value (sci6 q) - q) <= (1 # 2) * PyNum.pow10 (e - 5)
  /\ PyNum.pow10 e <= sci_value (sci6 q) <= PyNum.pow10 (e + 1).
Proof.
  intros Hq e. rewrite sci6_value. fold e.
  pose proof (round_scaled_bounds q Hq) as B. fold e in B.
  destruct (round_close (q * PyNum.pow10 (5 - e))) as [C D].
  set (m := PyNum.round (q * PyNum.pow10 (5 - e))) in *.
  pose proof (pow10_pos (e - 5)) as P.
  assert (I : PyNum.pow10 (5 - e) * PyNum.pow10 (e - 5) == 1).
  { rewrite <- pow10_plus. replace (5 - e + (e - 5))%Z with 0%Z by lia.
    reflexivity. }
  assert (Eq : q == q * PyNum.pow10 (5 - e) * PyNum.pow10 (e - 5)).
  { rewrite <- Qmult_assoc, I. ring. }
  split.
  - apply Qabs_Qle_condition.
    assert (F : inject_Z m * PyNum.pow10 (e - 5) - q
                == (inject_Z m - q * PyNum.pow10 (5 - e)) * PyNum.pow10 (e - 5)).
    { rewrite Eq at 1. ring. }
    rewrite F. split.
    + assert (G : - ((1 # 2) * PyNum.pow10 (e - 5))
                  == (- (1 # 2)) * PyNum.pow10 (e - 5)) by ring.
      rewrite G. apply Qmult_le_compat_r; lra.
    + apply Qmult_le_compat_r; lra.
  - assert (E1 : PyNum.pow10 e == 100000 * PyNum.pow10 (e - 5)).
    { change 100000 with (PyNum.pow10 5). rewrite <- pow10_plus.
      apply Qpower_comp; [reflexivity | lia]. }
    assert (E2 : PyNum.pow10 (e + 1) == 1000000 * PyNum.pow10 (e - 5)).
    { change 1000000 with (PyNum.pow10 6). rewrite <- pow10_plus.
      apply Qpower_comp; [reflexivity | lia]. }
    rewrite E1, E2.
    assert (L : 100000 <= inject_Z m).
    { change 100000 with (inject_Z 100000). rewrite <- Zle_Qle. lia. }
    assert (U : inject_Z m <= 1000000).
    { change 1000000 with (inject_Z 1000000). rewrite <- Zle_Qle. lia. }
    split; apply Qmult_le_compat_r; lra.
Qed.

Lemma decimal_exponent_mono (x y : Q) :
  0 < x -> x <= y -> (decimal_exponent x <= decimal_exponent y)%Z.
Proof.
  intros Hx Hxy.
  assert (Hy : 0 < y) by lra.
  destruct (decimal_exponent_spec x Hx) as [A _].
  destruct (decimal_exponent_spec y Hy) as [_ B].
  assert (L : PyNum.pow10 (decimal_exponent x)
              < PyNum.pow10 (decimal_exponent y + 1)) by lra.
  apply Qpower_lt_compat_l_inv in L; [lia | reflexivity].
Qed.

Lemma sci6_mono (x y : Q) :
  0 < x -> x <= y -> sci_value (sci6 x) <= sci_value (sci6 y).
Proof.
  intros Hx Hxy.
  assert (Hy : 0 < y) by lra.
  pose proof (decimal_exponent_mono x y Hx Hxy) as M.
  destruct (Z.eq_dec (decimal_exponent x) (decimal_exponent y)) as [E|N].
  - rewrite !sci6_value. rewrite <- E.
    apply Qmult_le_compat_r; [|apply Qlt_le_weak, pow10_pos].
    rewrite <- Zle_Qle. apply round_mono.
    apply Qmult_le_compat_r; [exact Hxy | apply Qlt_le_weak, pow10_pos].
  - destruct (sci6_close x Hx) as [_ [_ A]].
    destruct (sci6_close y Hy) as [_ [B _]].
    apply Qle_trans with (PyNum.pow10 (decimal_exponent x + 1)); [exact A|].
    apply Qle_trans with (PyNum.pow10 (decimal_exponent y)); [|exact B].
    apply pow10_le. lia.
Qed.

Lemma sci6_pos (q : Q) : 0 < q -> 0 < sci_value (sci6 q).
Proof.
  intros Hq. destruct (sci6_close q Hq) as [_ [A _]].
  eapply Qlt_le_trans; [apply pow10_pos | exact A].
Qed.

Lemma Qeq_bool_false (a b : Q) : Qeq_bool a b = false -> ~ a == b.
Proof. intros H E. apply Qeq_bool_iff in E. congruence. Qed.

Lemma round6_nonneg (x : Q) : 0 <= x -> 0 <= round6 x.
Proof.
  intros H. unfold round6.
  destruct (Qeq_bool x 0) eqn:E; [lra|].
  apply Qeq_bool_false in E.
  case_cmp; [lra|].
  apply Qlt_le_weak, sci6_pos. lra.
Qed.

Lemma round6_mono (x y : Q) : 0 <= x -> x <= y -> round6 x <= round6 y.
Proof.
  intros Hx Hxy. unfold round6 at 1.
  destruct (Qeq_bool x 0) eqn:E.
  - apply round6_nonneg. lra.
  - apply Qeq_bool_false in E.
    case_cmp; [lra|].
    unfold round6.
    destruct (Qeq_bool y 0) eqn:Ey.
    + apply Qeq_bool_iff in Ey. lra.
    + case_cmp; [lra|]. apply sci6_mono; lra.
Qed.

(** ** Digits *)

Lemma digit_cases (d : Z) :
  (0 <= d <= 9)%Z ->
  In d [0; 1; 2; 3; 4; 5; 6; 7; 8; 9]%Z.
Proof.
  intros H. simpl.
  assert (d = 0 \/ d = 1 \/ d = 2 \/ d = 3 \/ d = 4 \/ d = 5 \/ d = 6
          \/ d = 7 \/ d = 8 \/ d = 9)%Z by lia.
  intuition.
Qed.

(** Case analysis on a digit: the goal is proved for each of the ten. *)
Ltac by_digit H :=
  apply digit_cases in H; simpl in H;
  repeat (destruct H as [H|H]; [subst; try reflexivity|]);
  try contradiction.

Lemma digit_char_val (d : Z) : (0 <= d <= 9)%Z -> digit_val (digit_char d) = d.
Proof. intros H. by_digit H. Qed.

Lemma digit_char_isdigit (d : Z) :
  (0 <= d <= 9)%Z -> PyStr.isdigit (digit_char d) = true.
Proof. intros H. by_digit H. Qed.

Lemma digits_number_app (l : list Z) (d : Z) :
  digits_number (l ++ [d]) = (10 * digits_number l + d)%Z.
Proof. unfold digits_number. rewrite fold_left_app. reflexivity. Qed.

Lemma digits_value_from (ds : list Z) (a : Z) :
  is_digit_list ds ->
  fold_left (fun a c => (10 * a + digit_val c)%Z) (show_digits ds) a
  = fold_left (fun a d => (10 * a + d)%Z) ds a.
Proof.
  revert a. induction ds as [|d r IH]; intros a H; [reflexivity|].
  inversion H; subst. simpl.
  rewrite digit_char_val by assumption. apply IH. assumption.
Qed.

Lemma digits_value_show (ds : list Z) :
  is_digit_list ds -> digits_value (show_digits ds) = digits_number ds.
Proof. apply digits_value_from. Qed.

Lemma show_digits_app (a b : list Z) :
  show_digits (a ++ b) = show_digits a ++ show_digits b.
Proof. apply map_app. Qed.

Lemma show_digits_length (a : list Z) :
  List.length (show_digits a) = List.length a.
Proof. apply length_map. Qed.

Lemma span_digits_cons (c : ascii) (r : PyStr.text) :
  span_digits (c :: r)
  = if PyStr.isdigit c
    then let (d, rest) := span_digits r in (c :: d, rest)
    else ([], c :: r).
Proof. reflexivity. Qed.

(** The digits are read up to the first character that is no digit. *)
Lemma span_digits_show (ds : list Z) (rest : PyStr.text) :
  is_digit_list ds ->
  match rest with [] => True | c :: _ => PyStr.isdigit c = false end ->
  span_digits (show_digits ds ++ rest) = (show_digits ds, rest).
Proof.
  intros H R. induction ds as [|d r IH].
  - change (show_digits [] ++ rest) with rest.
    destruct rest as [|c t]; [reflexivity|].
    rewrite span_digits_cons, R. reflexivity.
  - inversion H; subst.
    change (show_digits (d :: r) ++ rest)
      with (digit_char d :: (show_digits r ++ rest)).
    rewrite span_digits_cons.
    rewrite digit_char_isdigit by assumption.
    rewrite IH by assumption. reflexivity.
Qed.

Lemma is_digit_list_app (a b : list Z) :
  is_digit_list (a ++ b) <-> is_digit_list a /\ is_digit_list b.
Proof. apply Forall_app. Qed.

Lemma digits_fixed_ok (k : nat) (m : Z) :
  is_digit_list (digits_fixed k m)
  /\ List.length (digits_fixed k m) = k
  /\ ((0 <= m)%Z -> digits_number (digits_fixed k m) = (m mod 10 ^ Z.of_nat k)%Z).
Proof.
  revert m. induction k as [|k IH]; intros m.
  - simpl. repeat split; [constructor|]. intros _.
    rewrite Z.mod_1_r. reflexivity.
  - destruct (IH (m / 10)%Z) as [A [B C]].
    simpl digits_fixed. repeat split.
    + apply is_digit_list_app. split; [exact A|].
      constructor; [|constructor].
      pose proof (Z.mod_pos_bound m 10). lia.
    + rewrite length_app, B. simpl. lia.
    + intros Hm. rewrite digits_number_app, C by (apply Z.div_pos; lia).
      rewrite Nat2Z.inj_succ, Z.pow_succ_r by lia.
      assert (P : (0 < 10 ^ Z.of_nat k)%Z) by (apply Z.pow_pos_nonneg; lia).
      rewrite Z.rem_mul_r by lia. ring.
Qed.

Lemma digits_fixed_6 (m : Z) :
  (0 <= m <= 999999)%Z -> digits_number (digits_fixed 6 m) = m.
Proof.
  intros H. destruct (digits_fixed_ok 6 m) as [_ [_ C]].
  rewrite C by lia. apply Z.mod_small. simpl. lia.
Qed.

Lemma digits_nat_ok (fuel : nat) (n : Z) :
  (0 <= n < Z.of_nat fuel)%Z ->
  is_digit_list (digits_nat fuel n)
  /\ digits_nat fuel n <> []
  /\ digits_number (digits_nat fuel n) = n.
Proof.
  revert n. induction fuel as [|f IH]; intros n H; [lia|].
  simpl digits_nat. destruct (n <? 10)%Z eqn:E.
  - apply Z.ltb_lt in E. split; [|split].
    + constructor; [lia | constructor].
    + discriminate.
    + unfold digits_number. simpl. lia.
  - apply Z.ltb_ge in E.
    assert (D : (0 <= n / 10 < Z.of_nat f)%Z).
    { split; [apply Z.div_pos; lia|].
      apply Z.div_lt_upper_bound; lia. }
    destruct (IH _ D) as [A [B C]].
    split; [|split].
    + apply is_digit_list_app. split; [exact A|].
      constructor; [|constructor].
      pose proof (Z.mod_pos_bound n 10). lia.
    + intros X. apply app_eq_nil in X. destruct X as [_ X]. discriminate.
    + rewrite digits_number_app, C.
      pose proof (Z.div_mod n 10). lia.
Qed.

Lemma exp_digits_ok (n : Z) :
  (0 <= n)%Z ->
  is_digit_list (exp_digits n)
  /\ exp_digits n <> []
  /\ digits_number (exp_digits n) = n.
Proof.
  intros H. unfold exp_digits. destruct (n <? 10)%Z eqn:E.
  - apply Z.ltb_lt in E. split; [|split].
    + constructor; [lia|]. constructor; [lia | constructor].
    + discriminate.
    + unfold digits_number. simpl. lia.
  - apply digits_nat_ok. lia.
Qed.

Lemma drop_zeros_spec (ds : list Z) :
  exists k, ds = repeat 0%Z k ++ drop_zeros ds.
Proof.
  induction ds as [|d r [k IH]]; [exists O; reflexivity|].
  simpl. destruct (d =? 0)%Z eqn:E.
  - apply Z.eqb_eq in E. subst d. exists (S k). simpl. f_equal. exact IH.
  - exists O. reflexivity.
Qed.

Lemma repeat_rev {A : Type} (x : A) (k : nat) : rev (repeat x k) = repeat x k.
Proof.
  induction k as [|k IH]; [reflexivity|].
  simpl. rewrite IH. symmetry. apply repeat_cons.
Qed.

(** Removing trailing zeros leaves the list that, followed by zeros, is the
    original. *)
Lemma rstrip_zeros_spec (ds : list Z) :
  exists k, ds = rstrip_zeros ds ++ repeat 0%Z k.
Proof.
  unfold rstrip_zeros.
  destruct (drop_zeros_spec (rev ds)) as [k H].
  exists k. apply (f_equal (@rev Z)) in H.
  rewrite rev_involutive, rev_app_distr, repeat_rev in H. exact H.
Qed.

Lemma rstrip_zeros_digits (ds : list Z) :
  is_digit_list ds -> is_digit_list (rstrip_zeros ds).
Proof.
  intros H. destruct (rstrip_zeros_spec ds) as [k E].
  rewrite E in H. apply is_digit_list_app in H. apply H.
Qed.

Lemma digits_number_zeros (a : list Z) (k : nat) :
  digits_number (a ++ repeat 0%Z k)
  = (digits_number a * 10 ^ Z.of_nat k)%Z.
Proof.
  induction k as [|k IH].
  - simpl. rewrite app_nil_r. lia.
  - change (repeat 0%Z (S k)) with (0%Z :: repeat 0%Z k).
    rewrite repeat_cons, app_assoc, digits_number_app, IH.
    rewrite Nat2Z.inj_succ, Z.pow_succ_r by lia. lia.
Qed.

Lemma digits_number_leading_zeros (k : nat) (a : list Z) :
  digits_number (repeat 0%Z k ++ a) = digits_number a.
Proof.
  induction k as [|k IH]; [reflexivity|].
  simpl. unfold digits_number in *. simpl. exact IH.
Qed.

(** ** Reading back what [format] wrote *)

Lemma parse_decimal_parts (neg : bool) (s ip r1 fp r2 : PyStr.text) (e : Z) :
  span_digits s = (ip, r1) -> fraction_part r1 = (fp, r2) -> ip <> [] ->
  exponent_part r2 = Some e ->
  parse_decimal neg s = FloatValue (decimal_value neg ip fp e).
Proof.
  intros H1 H2 H3 H4. unfold parse_decimal. rewrite H1, H2, H4.
  destruct ip; [contradiction | reflexivity].
Qed.

Lemma show_digits_nonempty (ds : list Z) : ds <> [] -> show_digits ds <> [].
Proof. destruct ds; [contradiction | discriminate]. Qed.

(** An exponent field as [format] writes it. *)
Lemma exponent_part_show (eneg : bool) (E : list Z) :
  is_digit_list E -> E <> [] ->
  exponent_part ("e"%char :: (if eneg then "-"%char else "+"%char)
                 :: show_digits E)
  = Some (if eneg then (- digits_number E)%Z else digits_number E).
Proof.
  intros HE Hne.
  assert (S : span_digits (show_digits E) = (show_digits E, [])).
  { rewrite <- (app_nil_r (show_digits E)) at 1.
    apply span_digits_show; [exact HE | exact I]. }
  unfold exponent_part.
  change (Ascii.eqb (lower "e") "e") with true. cbv iota.
  destruct eneg; cbv iota beta; rewrite S;
    pose proof (show_digits_nonempty E Hne) as N;
    destruct (show_digits E) eqn:D; try contradiction;
    rewrite <- D, digits_value_show by exact HE; reflexivity.
Qed.

Lemma tail_of_exponent (T : PyStr.text) (xe : Z) :
  tail_of T xe -> exponent_part T = Some xe.
Proof.
  intros H. destruct H; [reflexivity|]. apply exponent_part_show; assumption.
Qed.

Lemma tail_of_head (T : PyStr.text) (xe : Z) :
  tail_of T xe ->
  match T with [] => True | c :: _ => PyStr.isdigit c = false end.
Proof. intros H. destruct H; [exact I | reflexivity]. Qed.

Lemma tail_of_fraction (T : PyStr.text) (xe : Z) :
  tail_of T xe -> fraction_part T = ([], T).
Proof. intros H. destruct H; reflexivity. Qed.

Lemma parse_with_fraction (neg : bool) (A F : list Z) (T : PyStr.text)
  (xe : Z) :
  is_digit_list A -> A <> [] -> is_digit_list F -> tail_of T xe ->
  parse_decimal neg (with_fraction A F ++ T)
  = FloatValue (decimal_value neg (show_digits A) (show_digits F) xe).
Proof.
  intros HA Hne HF HT.
  destruct F as [|f F'].
  - apply parse_decimal_parts with (r1 := T) (r2 := T).
    + unfold with_fraction.
      apply span_digits_show; [exact HA | eapply tail_of_head; exact HT].
    + eapply tail_of_fraction; exact HT.
    + apply show_digits_nonempty, Hne.
    + apply tail_of_exponent, HT.
  - apply parse_decimal_parts
      with (r1 := "."%char :: show_digits (f :: F') ++ T) (r2 := T).
    + unfold with_fraction. rewrite <- app_assoc.
      apply span_digits_show; [exact HA | reflexivity].
    + unfold fraction_part.
      apply span_digits_show; [exact HF | eapply tail_of_head; exact HT].
    + apply show_digits_nonempty, Hne.
    + apply tail_of_exponent, HT.
Qed.

Lemma inject_pow10 (k : nat) :
  inject_Z (10 ^ Z.of_nat k) == PyNum.pow10 (Z.of_nat k).
Proof. symmetry. apply pow10_nat. lia. Qed.

(** Trailing zeros of the fraction do not count. *)
Lemma value_rstrip (A G : list Z) (xe : Z) :
  inject_Z (digits_number (A ++ rstrip_zeros G))
    * PyNum.pow10 (xe - Z.of_nat (List.length (rstrip_zeros G)))
  == inject_Z (digits_number (A ++ G))
     * PyNum.pow10 (xe - Z.of_nat (List.length G)).
Proof.
  destruct (rstrip_zeros_spec G) as [k E].
  remember (rstrip_zeros G) as F eqn:HF. clear HF. subst G.
  rewrite app_assoc, digits_number_zeros, length_app, repeat_length.
  rewrite inject_Z_mult, inject_pow10.
  replace (xe - Z.of_nat (List.length F))%Z
    with (Z.of_nat k + (xe - Z.of_nat (List.length F + k)))%Z by lia.
  rewrite pow10_plus. ring.
Qed.

Lemma decimal_value_show (neg : bool) (A G : list Z) (xe : Z) :
  is_digit_list A -> is_digit_list G ->
  decimal_value neg (show_digits A) (show_digits (rstrip_zeros G)) xe
  == (if neg then -1 else 1)
     * (inject_Z (digits_number (A ++ G))
        * PyNum.pow10 (xe - Z.of_nat (List.length G))).
Proof.
  intros HA HG. unfold decimal_value. cbv zeta.
  rewrite <- show_digits_app, digits_value_show, show_digits_length.
  - destruct neg; rewrite value_rstrip; ring.
  - apply is_digit_list_app. split; [exact HA|].
    apply rstrip_zeros_digits, HG.
Qed.

Lemma firstn_skipn_digits (n : nat) (ds : list Z) :
  is_digit_list ds ->
  is_digit_list (firstn n ds) /\ is_digit_list (skipn n ds).
Proof.
  intros H. rewrite <- (firstn_skipn n ds) in H.
  apply is_digit_list_app in H. exact H.
Qed.

Lemma firstn_S_nonempty (n : nat) (ds : list Z) :
  List.length ds = 6%nat -> firstn (S n) ds <> [].
Proof. destruct ds; [discriminate|]. intros _. discriminate. Qed.

Lemma repeat_zero_digits (k : nat) : is_digit_list (repeat 0%Z k).
Proof.
  induction k as [|k IH]; [constructor|].
  constructor; [lia | exact IH].
Qed.

(** The text of six digits and an exponent reads back as their value. *)
Lemma render_g6_parse (neg : bool) (m e : Z) :
  (100000 <= m <= 999999)%Z ->
  exists v,
    parse_decimal neg (render_g6 (m, e)) = FloatValue v
    /\ v == (if neg then -1 else 1) * sci_value (m, e).
Proof.
  intros Hm. unfold render_g6, sci_value. cbn [fst snd].
  destruct (digits_fixed_ok 6 m) as [Hd [Hl _]].
  pose proof (digits_fixed_6 m ltac:(lia)) as Hv.
  set (ds := digits_fixed 6 m) in *.
  destruct ((-4 <=? e)%Z && (e <? 6)%Z) eqn:R.
  - apply andb_true_iff in R. destruct R as [R1 R2].
    apply Z.leb_le in R1. apply Z.ltb_lt in R2.
    destruct (0 <=? e)%Z eqn:P.
    + apply Z.leb_le in P.
      set (n := S (Z.to_nat e)).
      destruct (firstn_skipn_digits n ds Hd) as [HA HG].
      eexists. split.
      * rewrite <- (app_nil_r (with_fraction _ _)).
        apply parse_with_fraction with (xe := 0%Z);
          [exact HA | apply firstn_S_nonempty; exact Hl
          | apply rstrip_zeros_digits; exact HG | constructor].
      * rewrite decimal_value_show by assumption.
        rewrite firstn_skipn, Hv, length_skipn, Hl.
        replace (0 - Z.of_nat (6 - n))%Z with (e - 5)%Z by (unfold n; lia).
        reflexivity.
    + apply Z.leb_gt in P.
      set (k := Z.to_nat (- e - 1)).
      eexists. split.
      * rewrite <- (app_nil_r (with_fraction _ _)).
        apply parse_with_fraction with (xe := 0%Z);
          [constructor; [lia | constructor] | discriminate | | constructor].
        apply rstrip_zeros_digits, is_digit_list_app.
        split; [apply repeat_zero_digits | exact Hd].
      * rewrite decimal_value_show;
          [| constructor; [lia | constructor]
           | apply is_digit_list_app;
             split; [apply repeat_zero_digits | exact Hd]].
        change ([0%Z] ++ repeat 0%Z k ++ ds) with (repeat 0%Z (S k) ++ ds).
        rewrite digits_number_leading_zeros, Hv, length_app, repeat_length, Hl.
        replace (0 - Z.of_nat (k + 6))%Z with (e - 5)%Z by (unfold k; lia).
        reflexivity.
  - destruct (firstn_skipn_digits 1 ds Hd) as [HA HG].
    destruct (exp_digits_ok (Z.abs e) (Z.abs_nonneg e)) as [HE [HN HV]].
    eexists. split.
    + change (["e"%char] ++ [if (e <? 0)%Z then "-"%char else "+"%char]
              ++ show_digits (exp_digits (Z.abs e)))
        with ("e"%char :: (if (e <? 0)%Z then "-"%char else "+"%char)
              :: show_digits (exp_digits (Z.abs e))).
      apply parse_with_fraction;
        [exact HA | apply firstn_S_nonempty; exact Hl
        | apply rstrip_zeros_digits; exact HG
        | apply (tail_exp (e <? 0)%Z); assumption].
    + rewrite decimal_value_show by assumption.
      rewrite firstn_skipn, Hv, length_skipn, Hl, HV.
      replace ((if (e <? 0)%Z then (- Z.abs e)%Z else Z.abs e)
               - Z.of_nat (6 - 1))%Z with (e - 5)%Z.
      * reflexivity.
      * destruct (e <? 0)%Z eqn:S; [apply Z.ltb_lt in S | apply Z.ltb_ge in S];
          lia.
Qed.

(** ** The characters of a number *)

Lemma number_char_plain (c : ascii) :
  number_char c = true ->
  PyStr.isspace c = false /\ Ascii.eqb c "_" = false
  /\ PyStr.isspace_c c = false.
Proof.
  destruct c as [[] [] [] [] [] [] [] []]; intros H;
    try discriminate H; repeat split; reflexivity.
Qed.

Lemma digit_char_number (d : Z) :
  (0 <= d <= 9)%Z -> number_char (digit_char d) = true.
Proof. intros H. by_digit H. Qed.

Lemma show_digits_number (ds : list Z) :
  is_digit_list ds -> number_text (show_digits ds).
Proof.
  intros H. induction H as [|d r Hd Hr IH]; [constructor|].
  constructor; [apply digit_char_number; exact Hd | exact IH].
Qed.

Lemma with_fraction_number (A F : list Z) :
  is_digit_list A -> is_digit_list F -> number_text (with_fraction A F).
Proof.
  intros HA HF. unfold with_fraction.
  destruct F as [|f F']; [apply show_digits_number; exact HA|].
  apply Forall_app. split; [apply show_digits_number; exact HA|].
  constructor; [reflexivity | apply show_digits_number; exact HF].
Qed.

Lemma with_fraction_head (a : Z) (A F : list Z) :
  exists rest, with_fraction (a :: A) F = digit_char a :: rest.
Proof.
  unfold with_fraction. destruct F; eexists; reflexivity.
Qed.

Lemma firstn_S_head (n : nat) (ds : list Z) :
  is_digit_list ds -> List.length ds = 6%nat ->
  exists a A, firstn (S n) ds = a :: A /\ (0 <= a <= 9)%Z.
Proof.
  intros H L. destruct ds as [|a r]; [discriminate|].
  inversion H; subst. exists a, (firstn n r). split; [reflexivity | assumption].
Qed.

(** What [format] writes for six digits and an exponent starts with a digit
    and is made of digits, a point, [e] and signs. *)
Lemma render_g6_chars (m e : Z) :
  number_text (render_g6 (m, e))
  /\ exists d rest, (0 <= d <= 9)%Z /\ render_g6 (m, e) = digit_char d :: rest.
Proof.
  unfold render_g6.
  destruct (digits_fixed_ok 6 m) as [Hd [Hl _]].
  set (ds := digits_fixed 6 m) in *.
  destruct ((-4 <=? e)%Z && (e <? 6)%Z).
  - destruct (0 <=? e)%Z.
    + destruct (firstn_skipn_digits (S (Z.to_nat e)) ds Hd) as [HA HG].
      split.
      * apply with_fraction_number;
          [exact HA | apply rstrip_zeros_digits; exact HG].
      * destruct (firstn_S_head (Z.to_nat e) ds Hd Hl) as [a [A [E Ha]]].
        rewrite E.
        destruct (with_fraction_head a A
                    (rstrip_zeros (skipn (S (Z.to_nat e)) ds))) as [rest R].
        exists a, rest. split; assumption.
    + split.
      * apply with_fraction_number; [constructor; [lia | constructor]|].
        apply rstrip_zeros_digits, is_digit_list_app.
        split; [apply repeat_zero_digits | exact Hd].
      * destruct (with_fraction_head 0 []
                    (rstrip_zeros (repeat 0%Z (Z.to_nat (- e - 1)) ++ ds)))
          as [rest R].
        exists 0%Z, rest. split; [lia | exact R].
  - destruct (firstn_skipn_digits 1 ds Hd) as [HA HG].
    destruct (exp_digits_ok (Z.abs e) (Z.abs_nonneg e)) as [HE _].
    split.
    + apply Forall_app. split.
      * apply with_fraction_number;
          [exact HA | apply rstrip_zeros_digits; exact HG].
      * constructor; [reflexivity|].
        constructor; [destruct (e <? 0)%Z; reflexivity|].
        apply show_digits_number; exact HE.
    + destruct (firstn_S_head 0 ds Hd Hl) as [a [A [E Ha]]].
      rewrite E.
      destruct (with_fraction_head a A (rstrip_zeros (skipn 1 ds))) as [rest R].
      rewrite R. exists a. eexists. split; [exact Ha | reflexivity].
Qed.

Lemma lstrip_with_id (sp : ascii -> bool) (s : PyStr.text) :
  Forall (fun c => sp c = false) s -> PyStr.lstrip_with sp s = s.
Proof.
  intros H. destruct H as [|c r Hc Hr]; [reflexivity|].
  simpl. rewrite Hc. reflexivity.
Qed.

Lemma strip_with_id (sp : ascii -> bool) (s : PyStr.text) :
  Forall (fun c => sp c = false) s -> PyStr.strip_with sp s = s.
Proof.
  intros H. unfold PyStr.strip_with, PyStr.rstrip_with.
  rewrite (lstrip_with_id sp s H), lstrip_with_id; [apply rev_involutive|].
  apply Forall_rev. exact H.
Qed.

Lemma number_text_no_space (s : PyStr.text) :
  number_text s -> Forall (fun c => PyStr.isspace c = false) s.
Proof.
  intros H. eapply Forall_impl; [|exact H].
  intros c Hc. apply number_char_plain, Hc.
Qed.

Lemma number_text_no_space_c (s : PyStr.text) :
  number_text s -> Forall (fun c => PyStr.isspace_c c = false) s.
Proof.
  intros H. eapply Forall_impl; [|exact H].
  intros c Hc. apply number_char_plain, Hc.
Qed.

Lemma remove_underscores_id (prev : option ascii) (s : PyStr.text) :
  is_underscore prev = false -> number_text s ->
  remove_underscores prev s = Some s.
Proof.
  revert prev. induction s as [|c r IH]; intros prev Hp H; simpl.
  - rewrite Hp. reflexivity.
  - inversion H as [|? ? Hc Hr]; subst.
    destruct (number_char_plain c Hc) as [_ [U _]].
    rewrite U, Hp. simpl.
    rewrite IH; [reflexivity | exact U | exact Hr].
Qed.

Lemma digit_not_inf_or_nan (d : Z) (rest : PyStr.text) :
  (0 <= d <= 9)%Z -> is_inf_or_nan (digit_char d :: rest) = false.
Proof. intros H. by_digit H. Qed.

(** [float] on the text of a number that starts with a digit, with or
    without a minus sign in front. *)
Lemma py_float_signed (neg : bool) (d : Z) (rest : PyStr.text) :
  (0 <= d <= 9)%Z -> number_text (digit_char d :: rest) ->
  py_float ((if neg then ["-"%char] else []) ++ digit_char d :: rest)
  = parse_decimal neg (digit_char d :: rest).
Proof.
  intros Hd Hn.
  assert (Hall : number_text
                   ((if neg then ["-"%char] else []) ++ digit_char d :: rest)).
  { destruct neg; [constructor; [reflexivity | exact Hn] | exact Hn]. }
  unfold py_float.
  rewrite strip_with_id by (apply number_text_no_space_c; exact Hall).
  rewrite remove_underscores_id by (try reflexivity; exact Hall).
  destruct neg.
  - change (["-"%char] ++ digit_char d :: rest)
      with ("-"%char :: digit_char d :: rest).
    cbv iota beta.
    rewrite digit_not_inf_or_nan by exact Hd. reflexivity.
  - change ([] ++ digit_char d :: rest) with (digit_char d :: rest).
    clear Hn Hall. by_digit Hd.
Qed.

(** What [format(x, ".6g")] writes, [float] reads back as [x] rounded to six
    significant digits. *)
Lemma py_float_fmt_g6 (x : Q) :
  exists v, py_float (fmt_g6 x) = FloatValue v /\ v == round6 x.
Proof.
  unfold fmt_g6, round6.
  destruct (Qeq_bool x 0) eqn:Z.
  - eexists. split; [vm_compute; reflexivity | reflexivity].
  - apply Qeq_bool_false in Z.
    case_cmp.
    + assert (P : 0 < - x) by lra.
      pose proof (sci6_digits (- x) P) as D.
      destruct (sci6 (- x)) as [m e]. cbn [fst] in D.
      destruct (render_g6_chars m e) as [N [d [rest [Hd R]]]].
      destruct (render_g6_parse true m e D) as [v [A B]].
      exists v. split.
      * rewrite R in *.
        change ("-"%char :: digit_char d :: rest)
          with ((if true then ["-"%char] else []) ++ digit_char d :: rest).
        rewrite py_float_signed by assumption. exact A.
      * rewrite B. ring.
    + assert (P : 0 < x) by lra.
      pose proof (sci6_digits x P) as D.
      destruct (sci6 x) as [m e]. cbn [fst] in D.
      destruct (render_g6_chars m e) as [N [d [rest [Hd R]]]].
      destruct (render_g6_parse false m e D) as [v [A B]].
      exists v. split.
      * rewrite R in *.
        change (digit_char d :: rest)
          with ((if false then ["-"%char] else []) ++ digit_char d :: rest)
          at 1.
        rewrite py_float_signed by assumption. exact A.
      * rewrite B. ring.
Qed.

(** The text of a number is not empty and has no white space. *)
Lemma fmt_g6_plain (x : Q) :
  fmt_g6 x <> [] /\ Forall (fun c => PyStr.isspace c = false) (fmt_g6 x).
Proof.
  unfold fmt_g6.
  destruct (Qeq_bool x 0).
  - split; [discriminate | repeat constructor].
  - destruct (PyNum.ltb x 0).
    + split; [discriminate|].
      constructor; [reflexivity|].
      destruct (sci6 (- x)) as [m e].
      apply number_text_no_space, render_g6_chars.
    + destruct (sci6 x) as [m e].
      destruct (render_g6_chars m e) as [N [d [rest [Hd R]]]].
      split; [rewrite R; discriminate|].
      apply number_text_no_space, N.
Qed.

(** [round6] rounds to six significant digits. *)
Lemma round6_rounds6 (x : Q) : rounds6 x (round6 x).
Proof.
  unfold rounds6, round6.
  destruct (Qeq_bool x 0) eqn:Z.
  - left. apply Qeq_bool_iff in Z. split; [exact Z | reflexivity].
  - right. apply Qeq_bool_false in Z.
    case_cmp.
    + assert (P : 0 < - x) by lra.
      pose proof (sci6_digits (- x) P) as D.
      destruct (sci6_close (- x) P) as [C [L U]].
      pose proof (sci6_pos (- x) P) as V.
      destruct (decimal_exponent_spec (- x) P) as [X1 X2].
      exists (fst (sci6 (- x))), (snd (sci6 (- x)) - 5)%Z,
        (decimal_exponent (- x)).
      split; [exact D|].
      split; [rewrite Qabs_opp, Qabs_pos by lra; reflexivity|].
      split; [nra|].
      rewrite (Qabs_neg x) by lra.
      split; [exact X1|]. split; [exact X2|].
      assert (F : - sci_value (sci6 (- x)) - x
                  == - (sci_value (sci6 (- x)) - - x)) by ring.
      rewrite F, Qabs_opp. exact C.
    + assert (P : 0 < x) by lra.
      pose proof (sci6_digits x P) as D.
      destruct (sci6_close x P) as [C [L U]].
      pose proof (sci6_pos x P) as V.
      destruct (decimal_exponent_spec x P) as [X1 X2].
      exists (fst (sci6 x)), (snd (sci6 x) - 5)%Z, (decimal_exponent x).
      split; [exact D|].
      split; [rewrite Qabs_pos by lra; reflexivity|].
      split; [nra|].
      rewrite (Qabs_pos x) by lra.
      split; [exact X1|]. split; [exact X2|]. exact C.
Qed.

(** ** Splitting and joining *)

Lemma split_aux_run (t cur rest : PyStr.text) :
  Forall (fun c => PyStr.isspace c = false) t ->
  PyStr.split_aux cur (t ++ rest) = PyStr.split_aux (rev t ++ cur) rest.
Proof.
  revert cur. induction t as [|c r IH]; intros cur H; [reflexivity|].
  inversion H; subst. simpl. rewrite H2.
  rewrite IH by assumption. rewrite <- app_assoc. reflexivity.
Qed.

Lemma rev_nonempty {A : Type} (l : list A) : l <> [] -> rev l <> [].
Proof.
  intros H E. apply H. rewrite <- (rev_involutive l), E. reflexivity.
Qed.

Lemma split_aux_end (t : PyStr.text) :
  plain t -> PyStr.split_aux [] t = [t].
Proof.
  intros [N W].
  rewrite <- (app_nil_r t) at 1. rewrite split_aux_run by exact W.
  rewrite app_nil_r. simpl.
  pose proof (rev_nonempty t N) as R.
  destruct (rev t) eqn:E; [contradiction|].
  rewrite <- E, rev_involutive. reflexivity.
Qed.

Lemma split_aux_space (t rest : PyStr.text) :
  plain t ->
  PyStr.split_aux [] (t ++ " "%char :: rest) = t :: PyStr.split_aux [] rest.
Proof.
  intros [N W].
  rewrite split_aux_run by exact W. rewrite app_nil_r. simpl.
  pose proof (rev_nonempty t N) as R.
  destruct (rev t) eqn:E; [contradiction|].
  rewrite <- E, rev_involutive. reflexivity.
Qed.

(** Tokens joined by single spaces split back into themselves. *)
Lemma split_join (tokens : list PyStr.text) :
  Forall plain tokens ->
  PyStr.split (PyStr.join [" "%char] tokens) = tokens.
Proof.
  unfold PyStr.split.
  induction tokens as [|t r IH]; intros H; [reflexivity|].
  inversion H as [|? ? Ht Hr]; subst.
  destruct r as [|u r'].
  - simpl. apply split_aux_end, Ht.
  - change (PyStr.join [" "%char] (t :: u :: r'))
      with (t ++ " "%char :: PyStr.join [" "%char] (u :: r')).
    rewrite split_aux_space by exact Ht.
    rewrite IH by exact Hr. reflexivity.
Qed.

Lemma join_pairs (pts : list point) :
  PyStr.join [" "%char] (map fmt_pair pts)
  = PyStr.join [" "%char] (tokens_of pts).
Proof.
  induction pts as [|p r IH]; [reflexivity|].
  destruct r as [|q r'].
  - reflexivity.
  - change (PyStr.join [" "%char] (map fmt_pair (p :: q :: r')))
      with (fmt_pair p ++ " "%char
            :: PyStr.join [" "%char] (map fmt_pair (q :: r'))).
    rewrite IH.
    change (tokens_of (p :: q :: r'))
      with (fmt_g6 (fst p) :: fmt_g6 (snd p) :: tokens_of (q :: r')).
    change (tokens_of (q :: r'))
      with (fmt_g6 (fst q) :: fmt_g6 (snd q) :: tokens_of r').
    unfold fmt_pair. simpl PyStr.join.
    rewrite <- !app_assoc. reflexivity.
Qed.

Lemma tokens_of_plain (pts : list point) : Forall plain (tokens_of pts).
Proof.
  induction pts as [|p r IH]; [constructor|].
  change (tokens_of (p :: r))
    with (fmt_g6 (fst p) :: fmt_g6 (snd p) :: tokens_of r).
  constructor; [apply fmt_g6_plain|].
  constructor; [apply fmt_g6_plain | exact IH].
Qed.

Lemma tokens_of_length (pts : list point) :
  List.length (tokens_of pts) = (2 * List.length pts)%nat.
Proof.
  induction pts as [|p r IH]; [reflexivity|].
  change (tokens_of (p :: r))
    with (fmt_g6 (fst p) :: fmt_g6 (snd p) :: tokens_of r).
  simpl List.length. rewrite IH. lia.
Qed.

(** ** The round trip of the point list *)

Lemma rounds6_compat (x r r' : Q) : r == r' -> rounds6 x r -> rounds6 x r'.
Proof.
  intros E [[A B]|[m [k [e [A [B [C D]]]]]]].
  - left. split; [exact A | rewrite <- E; exact B].
  - right. exists m, k, e.
    split; [exact A|].
    split; [rewrite <- E; exact B|].
    split; [rewrite <- E; exact C|].
    rewrite <- E. exact D.
Qed.

Lemma parse_pairs_tokens (pts : list point) :
  Forall (fun p => 0 <= fst p) pts ->
  exists l, parse_pairs (tokens_of pts) = Parsed l /\ rounded_to pts l.
Proof.
  intros H. induction H as [|p r Hp Hr [l [E F]]].
  - exists []. split; [reflexivity | constructor].
  - change (tokens_of (p :: r))
      with (fmt_g6 (fst p) :: fmt_g6 (snd p) :: tokens_of r).
    destruct (py_float_fmt_g6 (fst p)) as [vt [Et Vt]].
    destruct (py_float_fmt_g6 (snd p)) as [vv [Ev Vv]].
    exists ((vt, vv) :: l). split.
    + simpl parse_pairs. rewrite Et, Ev, E.
      assert (N : 0 <= vt) by (rewrite Vt; apply round6_nonneg; exact Hp).
      apply ltb_false in N. rewrite N. reflexivity.
    + constructor; [|exact F]. simpl.
      split; [split; assumption|].
      split; (eapply rounds6_compat; [symmetry; eassumption|]);
        apply round6_rounds6.
Qed.

Lemma rounded_to_length (pts l : list point) :
  rounded_to pts l -> List.length l = List.length pts.
Proof. intros H. symmetry. eapply Forall2_length; exact H. Qed.

Lemma rounded_to_sorted (pts l : list point) :
  Forall (fun p => 0 <= fst p) pts -> sorted_by_time pts ->
  rounded_to pts l -> sorted_by_time l.
Proof.
  unfold sorted_by_time. intros Hpos Hs H.
  induction H as [|p p' r r' Hp Hr IH]; [constructor|].
  inversion Hs as [|? ? Hs' Hall]; subst.
  inversion Hpos as [|? ? Hp0 Hpos']; subst.
  constructor; [apply IH; assumption|].
  clear IH Hs Hs' Hpos.
  induction Hr as [|q q' t t' Hq Ht IH]; [constructor|].
  inversion Hall as [|? ? Hpq Hall']; subst.
  inversion Hpos' as [|? ? Hq0 Hpos'']; subst.
  constructor; [|apply IH; assumption].
  destruct Hp as [[Ep _] _]. destruct Hq as [[Eq _] _].
  rewrite Ep, Eq. apply round6_mono; assumption.
Qed.

Lemma strip_wrapped (c z : ascii) (mid : PyStr.text) :
  PyStr.isspace c = false -> PyStr.isspace z = false ->
  PyStr.strip (c :: mid ++ [z]) = c :: mid ++ [z].
Proof.
  intros Hc Hz. unfold PyStr.strip, PyStr.strip_with, PyStr.rstrip_with.
  assert (L : forall a r, PyStr.isspace a = false ->
                          PyStr.lstrip_with PyStr.isspace (a :: r) = a :: r).
  { intros a r Ha. simpl. rewrite Ha. reflexivity. }
  rewrite (L c _ Hc).
  assert (R : rev (c :: mid ++ [z]) = z :: rev (c :: mid)).
  { change (c :: mid ++ [z]) with ((c :: mid) ++ [z]).
    rewrite rev_app_distr. reflexivity. }
  rewrite R, (L z _ Hz), <- R. apply rev_involutive.
Qed.

(** The command of two points or more, character by character. *)
Lemma pwl_cmd_shape (pts : list point) :
  (2 <= List.length pts)%nat ->
  pwl_cmd pts
  = "P"%char :: ("W"%char :: "L"%char :: "("%char
                 :: PyStr.join [" "%char] (tokens_of (sort_by_time pts)))
    ++ [")"%char].
Proof.
  intros H. unfold pwl_cmd.
  destruct (List.length pts <? 2)%nat eqn:E.
  - apply Nat.ltb_lt in E. lia.
  - rewrite join_pairs. reflexivity.
Qed.

(** [parse_points] on a wrapped list of tokens. *)
Lemma parse_points_wrapped (body : PyStr.text) :
  parse_points
    ("P"%char :: ("W"%char :: "L"%char :: "("%char :: body) ++ [")"%char])
  = let parts := PyStr.split body in
    if (List.length parts <? 4)%nat || negb (List.length parts mod 2 =? 0)%nat
    then Ignored
    else
      match parse_pairs parts with
      | Parsed new_points =>
          let sorted := sort_by_time new_points in
          if (List.length sorted <? 2)%nat then Ignored else Parsed sorted
      | r => r
      end.
Proof.
  unfold parse_points, parse_stripped.
  rewrite strip_wrapped by reflexivity.
  set (txt := "P"%char
              :: ("W"%char :: "L"%char :: "("%char :: body) ++ [")"%char]).
  assert (S : PyStr.text_eqb txt sentinel = false) by reflexivity.
  assert (P : PyStr.startswith (PyStr.of_string "PWL(") txt = true)
    by reflexivity.
  assert (E : PyStr.endswith [")"%char] txt = true).
  { unfold PyStr.endswith, txt.
    change ("P"%char :: ("W"%char :: "L"%char :: "("%char :: body)
            ++ [")"%char])
      with (("P"%char :: "W"%char :: "L"%char :: "("%char :: body)
            ++ [")"%char]).
    rewrite rev_app_distr. reflexivity. }
  assert (I : PyStr.slice_inner 4 txt = body).
  { unfold PyStr.slice_inner, txt.
    change ("P"%char :: ("W"%char :: "L"%char :: "("%char :: body)
            ++ [")"%char])
      with (("P"%char :: "W"%char :: "L"%char :: "("%char :: body)
            ++ [")"%char]).
    rewrite removelast_last. reflexivity. }
  rewrite S, P, E, I. reflexivity.
Qed.

Lemma even_double (n : nat) : ((2 * n) mod 2 =? 0)%nat = true.
Proof.
  apply Nat.eqb_eq. rewrite Nat.mul_comm. apply Nat.Div0.mod_mul.
Qed.

(** Reading the command of a valid point list. *)
Lemma parse_points_pwl_cmd (pts : list point) :
  (2 <= List.length pts)%nat -> sorted_by_time pts ->
  Forall (fun p => 0 <= fst p) pts ->
  exists pts',
    parse_points (pwl_cmd pts) = Parsed pts'
    /\ rounded_to pts pts' /\ sorted_by_time pts'.
Proof.
  intros Hlen Hs Hpos.
  destruct (parse_pairs_tokens pts Hpos) as [l [E F]].
  pose proof (rounded_to_sorted pts l Hpos Hs F) as Sl.
  exists l. split; [|split; assumption].
  rewrite pwl_cmd_shape by exact Hlen.
  rewrite parse_points_wrapped. cbv zeta.
  rewrite (sort_by_time_id pts Hs).
  rewrite split_join by apply tokens_of_plain.
  rewrite tokens_of_length, even_double.
  destruct (2 * List.length pts <? 4)%nat eqn:L4.
  { apply Nat.ltb_lt in L4. lia. }
  simpl negb. simpl orb. cbv iota.
  rewrite E, (sort_by_time_id l Sl), (rounded_to_length pts l F).
  destruct (List.length pts <? 2)%nat eqn:L2; [|reflexivity].
  apply Nat.ltb_lt in L2. lia.
Qed.


Lemma text_eqb_eq (a b : PyStr.text) : PyStr.text_eqb a b = true -> a = b.
Proof.
  revert b. induction a as [|x a IH]; intros [|y b] H; simpl in H;
    try discriminate; [reflexivity|].
  apply andb_true_iff in H. destruct H as [H1 H2].
  apply Ascii.eqb_eq in H1. subst y. f_equal. apply IH, H2.
Qed.

(** After [generate_pwl_text] the widget shows the command, white space
    around it apart. *)
Lemma generate_pwl_text_shows (s : state) :
  PyStr.strip (pwl_text (generate_pwl_text s))
  = PyStr.strip (pwl_cmd (pwl_points s))
  \/ PyStr.strip (pwl_text (generate_pwl_text s)) = pwl_cmd (pwl_points s).
Proof.
  unfold generate_pwl_text.
  destruct (PyStr.text_eqb _ _) eqn:E.
  - right. apply text_eqb_eq, E.
  - left. reflexivity.
Qed.

Lemma pwl_cmd_stripped (pts : list point) :
  PyStr.strip (pwl_cmd pts) = pwl_cmd pts.
Proof.
  unfold pwl_cmd. destruct (List.length pts <? 2)%nat; [reflexivity|].
  change (PyStr.of_string "PWL("
          ++ PyStr.join [" "%char] (map fmt_pair (sort_by_time pts))
          ++ [")"%char])
    with ("P"%char :: ("W"%char :: "L"%char :: "("%char
                       :: PyStr.join [" "%char]
                            (map fmt_pair (sort_by_time pts)))
          ++ [")"%char]).
  apply strip_wrapped; reflexivity.
Qed.

Lemma parse_points_generated (s : state) :
  parse_points (pwl_text (generate_pwl_text s))
  = parse_points (pwl_cmd (pwl_points s)).
Proof.
  unfold parse_points.
  destruct (generate_pwl_text_shows s) as [E|E]; rewrite E;
    rewrite ?pwl_cmd_stripped; reflexivity.
Qed.

Lemma generate_pwl_text_grid (s : state) : grid (generate_pwl_text s) = grid s.
Proof.
  unfold generate_pwl_text. destruct (PyStr.text_eqb _ _); reflexivity.
Qed.



(** On the start-up points the round trip gives the points back. *)
Example round_trip_initial_points :
  match parse_points (pwl_cmd initial_points) with
  | Parsed l =>
      map (fun p => (Qred (fst p), Qred (snd p))) l = [(0, 0); (1 # 1000000, 0)]
  | _ => False
  end.
Proof. vm_compute. reflexivity. Qed.

(** Outside the domain of the theorem: a time below 0, which no Point has
    but a loaded document can bring, is written with its sign and read back
    as 0. *)
Example round_trip_negative_time :
  PyStr.to_string (pwl_cmd [(-1, 0); (1, 0)]) = "PWL(-1 0 1 0)"%string
  /\ match parse_points (pwl_cmd [(-1, 0); (1, 0)]) with
     | Parsed l =>
         map (fun p => (Qred (fst p), Qred (snd p))) l = [(0, 0); (1, 0)]
     | _ => False
     end.
Proof. vm_compute. split; reflexivity. Qed.

(** ** The text of the command *)

(** C7.  [generate_pwl_text] builds its string from the points alone.  With
    fewer than two points it is "Need at least 2 points".  Otherwise it is
    "PWL(", the pairs "t v" of the points in ascending order of time, joined
    by single spaces, and ")"; each number is written by [format(x, ".6g")]
    from the stored SI value, so that it reads back as that value rounded to
    six significant digits.  The text does not depend on the units selected.
    The start-up store gives "PWL(0 0 1e-06 0)". *)
Theorem pwl_cmd_format (pts : list point) :
  ((List.length pts < 2)%nat ->
   pwl_cmd pts = PyStr.of_string "Need at least 2 points")
  /\ ((2 <= List.length pts)%nat ->
      exists sorted,
        Permutation sorted pts /\ sorted_by_time sorted
        /\ pwl_cmd pts
           = PyStr.of_string "PWL("
             ++ PyStr.join [" "%char]
                  (map (fun p => fmt_g6 (fst p) ++ [" "%char] ++ fmt_g6 (snd p))
                     sorted)
             ++ [")"%char])
  /\ (forall x, exists v, py_float (fmt_g6 x) = FloatValue v /\ rounds6 x v)
  /\ (forall s u,
        pwl_points s = pts ->
        PyStr.strip (pwl_text (generate_pwl_text (set_units u s))) = pwl_cmd pts
        /\ PyStr.strip (pwl_text (generate_pwl_text s)) = pwl_cmd pts)
  /\ PyStr.to_string (pwl_cmd initial_points) = "PWL(0 0 1e-06 0)"%string
  /\ (units startup = mkUnits "Voltage" "μs" "mV"
      /\ PyStr.to_string (pwl_text startup) = "PWL(0 0 1e-06 0)"%string).
Proof.
  split.
  { intros H. unfold pwl_cmd. apply Nat.ltb_lt in H. rewrite H. reflexivity. }
  split.
  { intros H. exists (sort_by_time pts).
    split; [apply sort_by_time_perm|].
    split; [apply sort_by_time_sorted|].
    unfold pwl_cmd.
    destruct (List.length pts <? 2)%nat eqn:E; [|reflexivity].
    apply Nat.ltb_lt in E. lia. }
  split.
  { intros x. destruct (py_float_fmt_g6 x) as [v [A B]].
    exists v. split; [exact A|].
    eapply rounds6_compat; [symmetry; exact B | apply round6_rounds6]. }
  split.
  { intros s u Hp.
    assert (G : forall t, pwl_points t = pts ->
                PyStr.strip (pwl_text (generate_pwl_text t)) = pwl_cmd pts).
    { intros t Ht.
      destruct (generate_pwl_text_shows t) as [E|E]; rewrite E, Ht;
        rewrite ?pwl_cmd_stripped; reflexivity. }
    split; apply G; [exact Hp | exact Hp]. }
  split; [vm_compute; reflexivity|].
  split; vm_compute; reflexivity.
Qed.

Lemma pwl_cmd_format_witness :
  (List.length ([] : list point) < 2)%nat
  /\ pwl_cmd [] = PyStr.of_string "Need at least 2 points".
Proof.
  assert (H : (List.length ([] : list point) < 2)%nat) by (simpl; lia).
  split; [exact H|].
  exact (proj1 (pwl_cmd_format []) H).
Defined.

(** ** Reading a text *)

Lemma pair_induction {A : Type} (P : list A -> Prop) :
  P [] -> (forall x, P [x]) -> (forall x y l, P l -> P (x :: y :: l)) ->
  forall l, P l.
Proof.
  intros H0 H1 H2 l.
  assert (B : P l /\ forall x, P (x :: l)).
  { induction l as [|a r [IH1 IH2]].
    - split; [exact H0 | exact H1].
    - split; [apply IH2|]. intros x. apply H2, IH1. }
  apply B.
Qed.

Lemma even_mod2 (n : nat) : Nat.even n = (n mod 2 =? 0)%nat.
Proof.
  destruct (Nat.even n) eqn:E.
  - apply Nat.even_spec in E. destruct E as [k ->].
    symmetry. apply even_double.
  - symmetry. apply Nat.eqb_neq. intros M.
    apply Nat.Div0.mod_divides in M. destruct M as [k ->].
    rewrite Nat.even_mul in E. discriminate E.
Qed.

(** The loop over the pairs, as a whole: a rejected token anywhere ends it
    with nothing done; failing that, an inf or nan leaves the rationals;
    otherwise the numbers are paired and the negative times set to 0. *)
Lemma parse_pairs_spec (parts : list PyStr.text) :
  Nat.even (List.length parts) = true ->
  parse_pairs parts
  = if existsb is_value_error (map py_float parts) then Ignored
    else match all_numbers (map py_float parts) with
         | None => NonFinite
         | Some nums => Parsed (map clamp_time (pair_up nums))
         end.
Proof.
  induction parts as [| x | t v rest IH] using pair_induction; intros E.
  - reflexivity.
  - discriminate E.
  - change (Nat.even (List.length rest) = true) in E.
    specialize (IH E).
    change (parse_pairs (t :: v :: rest))
      with (match py_float t with
            | ValueError => Ignored
            | rt =>
                match py_float v with
                | ValueError => Ignored
                | rv =>
                    match parse_pairs rest with
                    | Ignored => Ignored
                    | NonFinite => NonFinite
                    | Parsed l =>
                        match rt, rv with
                        | FloatValue time_val, FloatValue voltage_val =>
                            Parsed
                              ((if PyNum.ltb time_val 0 then 0 else time_val,
                                voltage_val) :: l)
                        | _, _ => NonFinite
                        end
                    end
                end
            end).
    rewrite IH.
    change (map py_float (t :: v :: rest))
      with (py_float t :: py_float v :: map py_float rest).
    destruct (py_float t) as [a| |]; destruct (py_float v) as [b| |];
      simpl existsb; simpl all_numbers;
      destruct (existsb is_value_error (map py_float rest));
      try reflexivity;
      destruct (all_numbers (map py_float rest)); reflexivity.
Qed.

Lemma parse_stripped_spec (t : PyStr.text) :
  parse_stripped t
  = let parts := PyStr.split (strip_wrapper t) in
    if (4 <=? List.length parts)%nat && Nat.even (List.length parts)
    then
      let results := map py_float parts in
      if existsb is_value_error results then Ignored
      else
        match all_numbers results with
        | None => NonFinite
        | Some nums =>
            let pts := sort_by_time (map clamp_time (pair_up nums)) in
            if (2 <=? List.length pts)%nat then Parsed pts else Ignored
        end
    else Ignored.
Proof.
  unfold parse_stripped.
  destruct t as [|c r]; [reflexivity|].
  destruct (PyStr.text_eqb (c :: r) sentinel) eqn:S.
  - apply text_eqb_eq in S. rewrite S. vm_compute. reflexivity.
  - fold (strip_wrapper (c :: r)). cbv zeta.
    set (parts := PyStr.split (strip_wrapper (c :: r))).
    rewrite Nat.ltb_antisym, <- even_mod2, <- negb_andb.
    destruct ((4 <=? List.length parts)%nat && Nat.even (List.length parts))
      eqn:C; simpl negb; cbv iota; [|reflexivity].
    apply andb_true_iff in C. destruct C as [_ Ev].
    rewrite (parse_pairs_spec parts Ev).
    destruct (existsb is_value_error (map py_float parts)); [reflexivity|].
    destruct (all_numbers (map py_float parts)) as [nums|]; [|reflexivity].
    rewrite Nat.ltb_antisym.
    destruct (2 <=? List.length _)%nat; reflexivity.
Qed.

Lemma parse_stripped_parsed (t : PyStr.text) (pts : list point) :
  parse_stripped t = Parsed pts ->
  sorted_by_time pts /\ (2 <= List.length pts)%nat.
Proof.
  rewrite parse_stripped_spec. cbv zeta.
  destruct (_ && _); [|discriminate].
  destruct (existsb _ _); [discriminate|].
  destruct (all_numbers _) as [nums|]; [|discriminate].
  destruct (2 <=? _)%nat eqn:L; [|discriminate].
  intros H. injection H as <-.
  split; [apply sort_by_time_sorted | apply Nat.leb_le, L].
Qed.


Lemma snap_all_points_to_grid_points (s : state) (ts vs : Q) :
  grid_snap_enabled (grid s) = true ->
  time_scale s = Some ts -> value_scale s = Some vs ->
  pwl_points (final (snap_all_points_to_grid s))
  = sort_by_time (map (snap_point (grid s) ts vs) (pwl_points s)).
Proof.
  intros G Ts Vs. unfold snap_all_points_to_grid.
  rewrite G, Ts, Vs. simpl negb. cbv iota.
  rewrite update_plot_points. reflexivity.
Qed.



(** The scenario of the specification: "1 0 0.5 2 3 1" is read as the
    points (0.5, 2), (1, 0), (3, 1). *)
Example parse_scenario :
  match parse_points (PyStr.of_string "1 0 0.5 2 3 1") with
  | Parsed l =>
      map (fun p => (Qred (fst p), Qred (snd p))) l
      = [(1 # 2, 2); (1, 0); (3, 1)]
  | _ => False
  end.
Proof. vm_compute. reflexivity. Qed.

(** ** Loading a snapshot *)

Lemma on_source_type_change_keeps (s : state) :
  pwl_points (final (on_source_type_change s)) = pwl_points s
  /\ grid (final (on_source_type_change s)) = grid s.
Proof.
  unfold on_source_type_change.
  destruct (String.eqb _ _);
    rewrite update_plot_points, update_plot_grid;
    destruct (Units.mem _ _); split; reflexivity.
Qed.

Lemma update_range_keeps (s : state) :
  pwl_points (final (update_range s)) = pwl_points s
  /\ grid (final (update_range s)) = grid s.
Proof.
  unfold update_range. rewrite update_plot_points, update_plot_grid.
  destruct (Qeq_bool _ _); split; reflexivity.
Qed.

Lemma andThen_keeps (o : outcome) (k : state -> outcome) :
  (forall t, pwl_points (final (k t)) = pwl_points t
             /\ grid (final (k t)) = grid t) ->
  pwl_points (final (o >>= k)) = pwl_points (final o)
  /\ grid (final (o >>= k)) = grid (final o).
Proof.
  intros H. destruct o as [t|t]; simpl; [apply H | split; reflexivity].
Qed.

Lemma load_file_points (data : Snapshot.t) (s : state) :
  pwl_points (load_file data s) = get (Snapshot.pwl_points data) initial_points
  /\ grid_snap_enabled (grid (load_file data s))
     = get (Snapshot.grid_snap_enabled data) false.
Proof.
  unfold load_file.
  match goal with
  | |- context [on_source_type_change ?t >>= update_range] =>
      set (s4 := t);
      destruct (andThen_keeps (on_source_type_change s4) update_range
                  update_range_keeps) as [A B];
      destruct (on_source_type_change_keeps s4) as [C D];
      rewrite C in A; rewrite D in B;
      destruct (on_source_type_change s4 >>= update_range) as [s5|s5];
      simpl in A, B |- *; rewrite A, B; split; reflexivity
  end.
Qed.

(** C10.  [load_file] stores the points of the document as they are, or
    the two start-up points when the document has none, whatever the
    snapshot says of grid snapping, which it switches on or off as told.
    [parse_pwl_text] on a text that reads as points, with snapping on and
    known units, stores the snapped points instead.  So a loaded point can
    be off the grid while snapping is on: loading [off_grid_snapshot] keeps
    the time 2.6 us, which is not a multiple of the 1 us cell, and reading
    the text then shown moves it to 3 us. *)
Theorem load_file_keeps_points_unsnapped :
  (forall data s,
     pwl_points (load_file data s)
     = get (Snapshot.pwl_points data) initial_points
     /\ grid_snap_enabled (grid (load_file data s))
        = get (Snapshot.grid_snap_enabled data) false)
  /\ (forall t pts ts vs,
        grid_snap_enabled (grid t) = true ->
        time_scale t = Some ts -> value_scale t = Some vs ->
        parse_points (pwl_text t) = Parsed pts ->
        option_map pwl_points (parse_pwl_text t)
        = Some (sort_by_time (map (snap_point (grid t) ts vs) pts)))
  /\ (let t := load_file off_grid_snapshot startup in
      grid_snap_enabled (grid t) = true
      /\ pwl_points t = [(0, 0); (26 # 10000000, 34 # 10000)]
      /\ time_scale t = Some (1 # 1000000)
      /\ value_scale t = Some (1 # 1000)
      /\ ~ fst (snap_point (grid t) (1 # 1000000) (1 # 1000)
                 (26 # 10000000, 34 # 10000)) == 26 # 10000000
      /\ option_map
           (fun u => map (fun p => (Qred (fst p), Qred (snd p))) (pwl_points u))
           (parse_pwl_text t)
         = Some [(0, 0); (3 # 1000000, 3 # 1000)]).
Proof.
  split; [exact load_file_points|].
  split.
  { intros t pts ts vs G Ts Vs P.
    unfold parse_pwl_text. rewrite P. simpl grid. rewrite G.
    simpl option_map. f_equal.
    unfold snap_all_points_to_grid. simpl grid. rewrite G. simpl negb.
    cbv iota.
    change (time_scale (set_selected None (set_points pts t)))
      with (time_scale t).
    change (value_scale (set_selected None (set_points pts t)))
      with (value_scale t).
    rewrite Ts, Vs, update_plot_points. reflexivity. }
  vm_compute. repeat split; try reflexivity. intros H. discriminate H.
Qed.

Lemma load_file_keeps_points_unsnapped_witness :
  let t := load_file off_grid_snapshot startup in
  exists pts,
    parse_points (pwl_text t) = Parsed pts
    /\ option_map pwl_points (parse_pwl_text t)
       = Some (sort_by_time
                 (map (snap_point (grid t) (1 # 1000000) (1 # 1000)) pts)).
Proof.
  intros t.
  destruct (parse_points (pwl_text t)) as [pts| |] eqn:P;
    try (vm_compute in P; discriminate P).
  exists pts. split; [reflexivity|].
  exact (proj1 (proj2 load_file_keeps_points_unsnapped) t pts
           (1 # 1000000) (1 # 1000) eq_refl eq_refl eq_refl P).
Defined.

(* ================================================================== *)
(** * Further properties of the editor *)
(* ================================================================== *)

(** ** Snapping to the grid *)

Lemma round_compat (x y : Q) : x == y -> PyNum.round x = PyNum.round y.
Proof.
  intros H. unfold PyNum.round.
  assert (F : Qfloor x = Qfloor y) by (rewrite H; reflexivity).
  rewrite F.
  assert (E : x - inject_Z (Qfloor y) == y - inject_Z (Qfloor y))
    by (rewrite H; reflexivity).
  assert (A : PyNum.ltb (x - inject_Z (Qfloor y)) (1 # 2)
              = PyNum.ltb (y - inject_Z (Qfloor y)) (1 # 2))
    by (unfold PyNum.ltb; rewrite E; reflexivity).
  assert (B : PyNum.ltb (1 # 2) (x - inject_Z (Qfloor y))
              = PyNum.ltb (1 # 2) (y - inject_Z (Qfloor y)))
    by (unfold PyNum.ltb; rewrite E; reflexivity).
  rewrite A, B. reflexivity.
Qed.

Lemma round_nonneg (x : Q) : 0 <= x -> (0 <= PyNum.round x)%Z.
Proof.
  intros H. change 0%Z with (PyNum.round (inject_Z 0)) at 1.
  - apply round_mono. exact H.
Qed.

Lemma snap_to_grid_on (g : grid_cfg) (t v : Q) :
  grid_snap_enabled g = true ->
  0 < time_grid_size g -> 0 < value_grid_size g ->
  snap_to_grid g t v
  = (PyNum.max0 (inject_Z (PyNum.round (t / time_grid_size g))
                 * time_grid_size g),
     inject_Z (PyNum.round (v / value_grid_size g)) * value_grid_size g).
Proof.
  intros En Tg Vg. unfold snap_to_grid. rewrite En. simpl negb. cbv iota.
  apply leb_false in Tg. apply leb_false in Vg. rewrite Tg, Vg. reflexivity.
Qed.

Lemma snap_to_grid_off (g : grid_cfg) (t v : Q) :
  grid_snap_enabled g = false
  \/ time_grid_size g <= 0 \/ value_grid_size g <= 0 ->
  snap_to_grid g t v = (t, v).
Proof.
  intros H. unfold snap_to_grid.
  destruct (grid_snap_enabled g); simpl negb; cbv iota; [|reflexivity].
  destruct H as [H | [H | H]]; [discriminate H | |];
    apply leb_true in H; rewrite H; [reflexivity|].
  rewrite Bool.orb_true_r. reflexivity.
Qed.

(** A multiple of the cell, clamped at 0, is a multiple that is not
    negative. *)
Lemma max0_multiple (k : Z) (c : Q) :
  0 < c ->
  exists k' : Z, (0 <= k')%Z /\ PyNum.max0 (inject_Z k * c) == inject_Z k' * c
                 /\ ((0 <= k)%Z -> k' = k).
Proof.
  intros C. unfold PyNum.max0. case_cmp.
  - exists k. split; [|split; [reflexivity | reflexivity]].
    destruct (Z_lt_le_dec k 0) as [N|P]; [|exact P]. exfalso.
    assert (L : inject_Z k <= inject_Z (-1)).
    { rewrite <- Zle_Qle. lia. }
    change (inject_Z (-1)) with (-1) in L. nra.
  - exists 0%Z. split; [lia|]. split; [ring|].
    intros P. destruct (Z.eq_dec k 0) as [Z0|NZ]; [symmetry; exact Z0|].
    exfalso.
    assert (L : inject_Z 1 <= inject_Z k).
    { rewrite <- Zle_Qle. lia. }
    change (inject_Z 1) with 1 in L. nra.
Qed.


(** A display coordinate and its nearest multiple of a cell. *)
Lemma round_multiple_close (x c : Q) :
  0 < c ->
  Qabs (inject_Z (PyNum.round (x / c)) * c - x) <= c / 2.
Proof.
  intros C.
  destruct (round_close (x / c)) as [A B].
  assert (T : x == x / c * c) by (field; lra).
  remember (x / c) as q eqn:Eq. clear Eq.
  remember (inject_Z (PyNum.round q)) as K eqn:EK. clear EK.
  apply Qabs_Qle_condition. split.
  - assert (P : 0 <= ((1 # 2) - (q - K)) * c) by (apply Qmult_le_0_compat; lra).
    assert (G : K * c - x == ((1 # 2) - (q - K)) * c - c / 2)
      by (rewrite T; field).
    rewrite G. lra.
  - assert (P : 0 <= ((1 # 2) - (K - q)) * c) by (apply Qmult_le_0_compat; lra).
    assert (G : K * c - x == c / 2 - ((1 # 2) - (K - q)) * c)
      by (rewrite T; field).
    rewrite G. lra.
Qed.

(** X1.  With snapping on and cells of positive size, [snap_to_grid]
    returns a crossing of the grid: a whole, non-negative number of time
    cells and a whole number of value cells.  The value is within half a cell
    of the one given, and so is the time when the time given is not negative;
    a time that is not positive snaps to 0. *)
Theorem snap_to_grid_nearest (g : grid_cfg) (t v : Q) :
  grid_snap_enabled g = true ->
  0 < time_grid_size g -> 0 < value_grid_size g ->
  let r := snap_to_grid g t v in
  (exists k : Z, (0 <= k)%Z /\ fst r == inject_Z k * time_grid_size g)
  /\ (exists j : Z, snd r == inject_Z j * value_grid_size g)
  /\ Qabs (snd r - v) <= value_grid_size g / 2
  /\ (0 <= t -> Qabs (fst r - t) <= time_grid_size g / 2)
  /\ (t <= 0 -> fst r == 0).
Proof.
  intros En Tg Vg r. subst r. rewrite (snap_to_grid_on g t v En Tg Vg).
  cbn [fst snd].
  destruct (max0_multiple (PyNum.round (t / time_grid_size g))
              (time_grid_size g) Tg) as [k' [K0 [KE KK]]].
  split; [exists k'; split; [exact K0 | exact KE]|].
  split; [eexists; reflexivity|].
  split; [apply round_multiple_close; exact Vg|].
  split.
  - intros T0.
    assert (Q0 : 0 <= t / time_grid_size g).
    { apply Qle_shift_div_l; [exact Tg | lra]. }
    rewrite KE, (KK (round_nonneg _ Q0)).
    apply round_multiple_close. exact Tg.
  - intros T0.
    assert (Q0 : t / time_grid_size g <= 0).
    { apply Qle_shift_div_r; [exact Tg | lra]. }
    pose proof (round_mono _ _ Q0) as R.
    change (PyNum.round 0) with (PyNum.round (inject_Z 0)) in R.
    rewrite round_Z in R.
    assert (L : inject_Z (PyNum.round (t / time_grid_size g)) <= inject_Z 0).
    { rewrite <- Zle_Qle. exact R. }
    change (inject_Z 0) with 0 in L.
    unfold PyNum.max0. case_cmp; [|reflexivity].
    exfalso.
    assert (P : 0 <= (0 - inject_Z (PyNum.round (t / time_grid_size g)))
                     * time_grid_size g)
      by (apply Qmult_le_0_compat; lra).
    lra.
Qed.

Lemma snap_to_grid_nearest_witness :
  let g := mkGrid true (1 # 2) (1 # 4) in
  let r := snap_to_grid g (13 # 10) (-(3 # 10)) in
  Qabs (snd r - -(3 # 10)) <= value_grid_size g / 2.
Proof.
  intros g r.
  exact (proj1 (proj2 (proj2
           (snap_to_grid_nearest g (13 # 10) (-(3 # 10)) eq_refl eq_refl eq_refl)))).
Defined.

(** Snapping is idempotent: a pair that [snap_to_grid] returned is returned
    unchanged (as numbers) when it is snapped again, whatever the grid
    settings. *)
Lemma snap_to_grid_idempotent (g : grid_cfg) (t v : Q) :
  let r := snap_to_grid g t v in
  fst (snap_to_grid g (fst r) (snd r)) == fst r
  /\ snd (snap_to_grid g (fst r) (snd r)) == snd r.
Proof.
  intros r. subst r.
  destruct (grid_snap_enabled g) eqn:En.
  2:{ rewrite !snap_to_grid_off by (left; exact En). split; reflexivity. }
  destruct (Qlt_le_dec 0 (time_grid_size g)) as [Tg|Tg].
  2:{ rewrite !snap_to_grid_off by (right; left; exact Tg). split; reflexivity. }
  destruct (Qlt_le_dec 0 (value_grid_size g)) as [Vg|Vg].
  2:{ rewrite !snap_to_grid_off by (right; right; exact Vg). split; reflexivity. }
  rewrite (snap_to_grid_on g t v En Tg Vg). cbn [fst snd].
  rewrite snap_to_grid_on by assumption. cbn [fst snd].
  destruct (max0_multiple (PyNum.round (t / time_grid_size g))
              (time_grid_size g) Tg) as [k' [K0 [KE _]]].
  split.
  - assert (R : PyNum.round
                  (PyNum.max0 (inject_Z (PyNum.round (t / time_grid_size g))
                               * time_grid_size g) / time_grid_size g) = k').
    { rewrite <- (round_Z k'). apply round_compat. rewrite KE. field. lra. }
    rewrite R, KE.
    destruct (max0_multiple k' (time_grid_size g) Tg) as [k2 [_ [E2 K2]]].
    rewrite E2, (K2 K0). reflexivity.
  - assert (R : PyNum.round
                  (inject_Z (PyNum.round (v / value_grid_size g))
                   * value_grid_size g / value_grid_size g)
                = PyNum.round (v / value_grid_size g)).
    { rewrite <- (round_Z (PyNum.round (v / value_grid_size g))) at 2.
      apply round_compat. field. lra. }
    rewrite R. reflexivity.
Qed.

Lemma snap_to_grid_compat (g : grid_cfg) (t t' v v' : Q) :
  t == t' -> v == v' ->
  fst (snap_to_grid g t v) == fst (snap_to_grid g t' v')
  /\ snd (snap_to_grid g t v) == snd (snap_to_grid g t' v').
Proof.
  intros Ht Hv.
  destruct (grid_snap_enabled g) eqn:En.
  2:{ rewrite !snap_to_grid_off by (left; exact En). split; assumption. }
  destruct (Qlt_le_dec 0 (time_grid_size g)) as [Tg|Tg].
  2:{ rewrite !snap_to_grid_off by (right; left; exact Tg). split; assumption. }
  destruct (Qlt_le_dec 0 (value_grid_size g)) as [Vg|Vg].
  2:{ rewrite !snap_to_grid_off by (right; right; exact Vg). split; assumption. }
  rewrite !snap_to_grid_on by assumption. cbn [fst snd].
  rewrite (round_compat (t / time_grid_size g) (t' / time_grid_size g))
    by (rewrite Ht; reflexivity).
  rewrite (round_compat (v / value_grid_size g) (v' / value_grid_size g))
    by (rewrite Hv; reflexivity).
  split; reflexivity.
Qed.

Lemma value_scale_pos (s : state) (vs : Q) : value_scale s = Some vs -> 0 < vs.
Proof.
  unfold value_scale. intros H.
  assert (F : Forall (fun kv : string * Q => 0 < snd kv)
                (Units.voltage_prefixes ++ Units.current_prefixes))
    by (repeat constructor).
  rewrite Forall_forall in F.
  destruct (String.eqb (source_type (units s)) "Voltage");
    apply lookup_in in H; apply (F (value_unit (units s), vs));
    apply in_or_app; [left | right]; exact H.
Qed.

Lemma snap_point_eq (g : grid_cfg) (ts vs : Q) (p : point) :
  snap_point g ts vs p
  = (fst (snap_to_grid g (fst p / ts) (snd p / vs)) * ts,
     snd (snap_to_grid g (fst p / ts) (snd p / vs)) * vs).
Proof.
  unfold snap_point.
  destruct (snap_to_grid g (fst p / ts) (snd p / vs)). reflexivity.
Qed.

Lemma snap_point_on_grid (g : grid_cfg) (ts vs : Q) (p : point) :
  grid_snap_enabled g = true ->
  0 < time_grid_size g -> 0 < value_grid_size g -> 0 < ts -> 0 < vs ->
  on_grid g ts vs (snap_point g ts vs p) /\ 0 <= fst (snap_point g ts vs p).
Proof.
  intros En Tg Vg Ts Vs. rewrite snap_point_eq.
  rewrite (snap_to_grid_on g _ _ En Tg Vg). cbn [fst snd].
  destruct (max0_multiple (PyNum.round (fst p / ts / time_grid_size g))
              (time_grid_size g) Tg) as [k' [K0 [KE _]]].
  split; [split|].
  - exists k'. split; [exact K0|]. cbn [fst]. rewrite <- KE. field. lra.
  - exists (PyNum.round (snd p / vs / value_grid_size g)). cbn [snd].
    field. lra.
  - cbn [fst]. apply Qmult_le_0_compat; [apply max0_nonneg | lra].
Qed.

Lemma snap_point_idempotent (g : grid_cfg) (ts vs : Q) (p : point) :
  0 < ts -> 0 < vs ->
  same_point (snap_point g ts vs (snap_point g ts vs p)) (snap_point g ts vs p).
Proof.
  intros Ts Vs. rewrite (snap_point_eq g ts vs (snap_point g ts vs p)).
  rewrite (snap_point_eq g ts vs p). cbn [fst snd].
  remember (fst p / ts) as t. remember (snd p / vs) as v.
  assert (A : fst (snap_to_grid g t v) * ts / ts == fst (snap_to_grid g t v))
    by (field; lra).
  assert (B : snd (snap_to_grid g t v) * vs / vs == snd (snap_to_grid g t v))
    by (field; lra).
  destruct (snap_to_grid_compat g _ _ _ _ A B) as [C1 C2].
  destruct (snap_to_grid_idempotent g t v) as [I1 I2].
  split; cbn [fst snd]; [rewrite C1, I1 | rewrite C2, I2]; reflexivity.
Qed.

Lemma sorted_same (l l' : list point) :
  Forall2 same_point l l' -> sorted_by_time l' -> sorted_by_time l.
Proof.
  unfold sorted_by_time.
  induction 1 as [|p q l l' Hpq Hl IH]; intros S; [constructor|].
  inversion S as [|? ? Sr Sq]; subst.
  constructor; [apply IH, Sr|].
  clear IH S Sr. induction Hl as [|a b l l' Hab Hl IH]; [constructor|].
  inversion Sq as [|? ? Hb Hr]; subst.
  constructor; [|apply IH, Hr].
  destruct Hpq as [E1 _]. destruct Hab as [E2 _]. rewrite E1, E2. exact Hb.
Qed.

Lemma update_plot_returns (s : state) (ts vs : Q) :
  time_scale s = Some ts -> value_scale s = Some vs ->
  update_plot s = Returned (final (update_plot s)).
Proof.
  intros Ts Vs. unfold update_plot. rewrite Ts, Vs.
  destruct (pwl_points s); reflexivity.
Qed.

Lemma snapped_points (g : grid_cfg) (ts vs : Q) (pts : list point) :
  grid_snap_enabled g = true ->
  0 < time_grid_size g -> 0 < value_grid_size g -> 0 < ts -> 0 < vs ->
  let l := sort_by_time (map (snap_point g ts vs) pts) in
  List.length l = List.length pts
  /\ sorted_by_time l
  /\ Forall (on_grid g ts vs) l
  /\ Forall (fun p => 0 <= fst p) l.
Proof.
  intros En Tg Vg Ts Vs l.
  assert (F : Forall (fun q => on_grid g ts vs q /\ 0 <= fst q) l).
  { apply (Permutation_Forall (Permutation_sym (sort_by_time_perm _))).
    apply Forall_forall. intros q Hq. apply in_map_iff in Hq.
    destruct Hq as [p [<- _]].
    apply snap_point_on_grid; assumption. }
  split.
  { unfold l. rewrite (Permutation_length (sort_by_time_perm _)).
    apply length_map. }
  split; [apply sort_by_time_sorted|].
  split; eapply Forall_impl; try exact F; intros q [A B]; assumption.
Qed.

Lemma snap_all_points_to_grid_returns (s : state) (ts vs : Q) :
  time_scale s = Some ts -> value_scale s = Some vs ->
  snap_all_points_to_grid s = Returned (final (snap_all_points_to_grid s)).
Proof.
  intros Ts Vs. unfold snap_all_points_to_grid.
  destruct (grid_snap_enabled (grid s)); simpl negb; cbv iota; [|reflexivity].
  rewrite Ts, Vs. apply (update_plot_returns _ ts vs); [exact Ts | exact Vs].
Qed.

Lemma snap_all_points_to_grid_keeps (s : state) :
  grid (final (snap_all_points_to_grid s)) = grid s
  /\ units (final (snap_all_points_to_grid s)) = units s
  /\ dialogs (final (snap_all_points_to_grid s)) = dialogs s
  /\ view (final (snap_all_points_to_grid s)) = view s.
Proof.
  unfold snap_all_points_to_grid.
  destruct (grid_snap_enabled (grid s)); simpl negb; cbv iota;
    [|repeat split; reflexivity].
  destruct (time_scale s); [|repeat split; reflexivity].
  destruct (value_scale s); [|repeat split; reflexivity].
  destruct (update_plot_text_only
              (set_points
                 (sort_by_time (map (snap_point (grid s) q q0) (pwl_points s)))
                 s)) as [t E].
  rewrite E. repeat split; reflexivity.
Qed.

(** X2.  With snapping on, cells of positive size and units of the tables,
    [snap_all_points_to_grid] returns with as many points as before, in
    ascending order of time, every one of them on a crossing of the grid and
    none at a negative time. *)
Theorem snap_all_points_to_grid_on_grid (s : state) (ts vs : Q) :
  grid_snap_enabled (grid s) = true ->
  0 < time_grid_size (grid s) -> 0 < value_grid_size (grid s) ->
  time_scale s = Some ts -> value_scale s = Some vs ->
  exists s',
    snap_all_points_to_grid s = Returned s'
    /\ List.length (pwl_points s') = List.length (pwl_points s)
    /\ sorted_by_time (pwl_points s')
    /\ Forall (on_grid (grid s) ts vs) (pwl_points s')
    /\ Forall (fun p => 0 <= fst p) (pwl_points s').
Proof.
  intros En Tg Vg Ts Vs.
  exists (final (snap_all_points_to_grid s)).
  split; [exact (snap_all_points_to_grid_returns s ts vs Ts Vs)|].
  rewrite (snap_all_points_to_grid_points s ts vs En Ts Vs).
  apply snapped_points; try assumption.
  - exact (time_scale_pos s ts Ts).
  - exact (value_scale_pos s vs Vs).
Qed.

Lemma snap_all_points_to_grid_on_grid_witness :
  let s := set_grid (mkGrid true 1 1) startup in
  exists s',
    snap_all_points_to_grid s = Returned s'
    /\ List.length (pwl_points s') = List.length (pwl_points s).
Proof.
  intros s.
  destruct (snap_all_points_to_grid_on_grid s (1 # 1000000) (1 # 1000)
              eq_refl eq_refl eq_refl eq_refl eq_refl) as [s' [R [L _]]].
  exists s'. split; [exact R | exact L].
Defined.

(** X3.  [snap_all_points_to_grid] is idempotent: run on the state it left,
    whatever that one was, it leaves every point where it is. *)
Theorem snap_all_points_to_grid_idempotent (s : state) :
  let s1 := final (snap_all_points_to_grid s) in
  Forall2 same_point (pwl_points (final (snap_all_points_to_grid s1)))
    (pwl_points s1).
Proof.
  intros s1.
  assert (Refl : forall l : list point, Forall2 same_point l l).
  { induction l as [|p l IH]; constructor; [split; reflexivity | exact IH]. }
  destruct (grid_snap_enabled (grid s)) eqn:En.
  2:{ assert (E : s1 = s).
      { subst s1. unfold snap_all_points_to_grid. rewrite En. reflexivity. }
      rewrite E. unfold snap_all_points_to_grid. rewrite En. apply Refl. }
  destruct (time_scale s) as [ts|] eqn:Ts.
  2:{ assert (E : s1 = s).
      { subst s1. unfold snap_all_points_to_grid. rewrite En, Ts. reflexivity. }
      rewrite E. unfold snap_all_points_to_grid. rewrite En, Ts. apply Refl. }
  destruct (value_scale s) as [vs|] eqn:Vs.
  2:{ assert (E : s1 = s).
      { subst s1. unfold snap_all_points_to_grid. rewrite En, Ts, Vs.
        reflexivity. }
      rewrite E. unfold snap_all_points_to_grid. rewrite En, Ts, Vs.
      apply Refl. }
  pose proof (snap_all_points_to_grid_points s ts vs En Ts Vs) as P.
  fold s1 in P.
  assert (G : grid s1 = grid s).
  { subst s1. unfold snap_all_points_to_grid. rewrite En, Ts, Vs.
    simpl negb. cbv iota. rewrite update_plot_grid. reflexivity. }
  assert (U : units s1 = units s).
  { subst s1. unfold snap_all_points_to_grid. rewrite En, Ts, Vs.
    simpl negb. cbv iota. rewrite update_plot_units. reflexivity. }
  assert (Ts1 : time_scale s1 = Some ts).
  { unfold time_scale. rewrite U. exact Ts. }
  assert (Vs1 : value_scale s1 = Some vs).
  { unfold value_scale. rewrite U. exact Vs. }
  assert (En1 : grid_snap_enabled (grid s1) = true) by (rewrite G; exact En).
  rewrite (snap_all_points_to_grid_points s1 ts vs En1 Ts1 Vs1), G.
  assert (F : Forall (fun q => same_point (snap_point (grid s) ts vs q) q)
                (pwl_points s1)).
  { rewrite P.
    apply (Permutation_Forall (Permutation_sym (sort_by_time_perm _))).
    apply Forall_forall. intros q Hq. apply in_map_iff in Hq.
    destruct Hq as [p [<- _]].
    apply snap_point_idempotent;
      [exact (time_scale_pos s ts Ts) | exact (value_scale_pos s vs Vs)]. }
  assert (F2 : Forall2 same_point
                 (map (snap_point (grid s) ts vs) (pwl_points s1))
                 (pwl_points s1)).
  { clear - F. induction F as [|q l Hq _ IH]; simpl; constructor; assumption. }
  rewrite sort_by_time_id; [exact F2|].
  apply (sorted_same _ _ F2). rewrite P. apply sort_by_time_sorted.
Qed.

(** ** The grid settings *)

Lemma validated_pos (v : Q) : 0 < (if PyNum.leb v 0 then 1 # 1000 else v).
Proof. case_cmp; [reflexivity | exact E]. Qed.

(** [on_grid_size_change] up to the snapping: the sizes of the variables,
    made positive, are the sizes in force. *)
Lemma on_grid_size_change_eq (s : state) :
  let g3 := mkGrid (grid_snap_enabled (grid s))
              (if PyNum.leb (time_grid_size (grid_vars s)) 0
               then 1 # 1000 else time_grid_size (grid_vars s))
              (if PyNum.leb (value_grid_size (grid_vars s)) 0
               then 1 # 1000 else value_grid_size (grid_vars s)) in
  exists s3,
    grid s3 = g3 /\ pwl_points s3 = pwl_points s /\ units s3 = units s
    /\ dialogs s3 = dialogs s /\ pwl_text s3 = pwl_text s
    /\ on_grid_size_change s
       = match (if grid_snap_enabled g3 then snap_all_points_to_grid s3
                else Returned s3) with
         | Returned s4 => s4
         | Raised s4 =>
             set_value_grid_var 1
               (set_time_grid_var 1
                  (set_grid (mkGrid (grid_snap_enabled (grid s4)) 1 1)
                     (show (ShowWarning "Grid Size Error") s4)))
         end.
Proof.
  intros g3.
  exists (set_grid g3
            (let s1 := if PyNum.leb (time_grid_size (grid_vars s)) 0
                       then set_time_grid_var (1 # 1000) s else s in
             if PyNum.leb (value_grid_size (grid_vars s)) 0
             then set_value_grid_var (1 # 1000) s1 else s1)).
  unfold on_grid_size_change. subst g3. cbv zeta.
  destruct (PyNum.leb (time_grid_size (grid_vars s)) 0) eqn:A;
    destruct (PyNum.leb (value_grid_size (grid_vars s)) 0) eqn:B;
    repeat (split; [reflexivity|]); reflexivity.
Qed.

(** X4.  Whatever the two size fields hold, after [on_grid_size_change] both
    cell sizes in force are positive and the snapping switch is as it was;
    with snapping off the points are untouched. *)
Theorem on_grid_size_change_positive (s : state) :
  let s' := on_grid_size_change s in
  0 < time_grid_size (grid s') /\ 0 < value_grid_size (grid s')
  /\ grid_snap_enabled (grid s') = grid_snap_enabled (grid s)
  /\ (if grid_snap_enabled (grid s) then True
      else pwl_points s' = pwl_points s /\ dialogs s' = dialogs s).
Proof.
  intros s'. subst s'.
  destruct (on_grid_size_change_eq s) as [s3 [G [P [U [D [_ E]]]]]].
  rewrite E. clear E. cbn [grid_snap_enabled].
  destruct (grid_snap_enabled (grid s)) eqn:En.
  - destruct (snap_all_points_to_grid s3) as [s4|s4] eqn:R.
    + destruct (snap_all_points_to_grid_keeps s3) as [K _].
      rewrite R in K. simpl in K. rewrite K, G. cbn [time_grid_size value_grid_size grid_snap_enabled].
      repeat split; apply validated_pos.
    + assert (K : grid s4 = grid s3).
      { destruct (snap_all_points_to_grid_keeps s3) as [K _].
        rewrite R in K. exact K. }
      cbn. rewrite K, G. repeat split; reflexivity.
  - rewrite G. cbn [time_grid_size value_grid_size grid_snap_enabled].
    split; [apply validated_pos|]. split; [apply validated_pos|].
    split; [reflexivity|]. split; assumption.
Qed.


(** X5.  With snapping on and units of the tables, [on_grid_size_change]
    snaps the points to the new grid: as many points as before, in ascending
    order of time, each on a crossing of the grid now in force, none at a
    negative time, and no message box. *)
Theorem on_grid_size_change_snaps (s : state) (ts vs : Q) :
  grid_snap_enabled (grid s) = true ->
  time_scale s = Some ts -> value_scale s = Some vs ->
  let s' := on_grid_size_change s in
  List.length (pwl_points s') = List.length (pwl_points s)
  /\ sorted_by_time (pwl_points s')
  /\ Forall (on_grid (grid s') ts vs) (pwl_points s')
  /\ Forall (fun p => 0 <= fst p) (pwl_points s')
  /\ dialogs s' = dialogs s.
Proof.
  intros En Ts Vs s'. subst s'.
  destruct (on_grid_size_change_eq s) as [s3 [G [P [U [D [_ E]]]]]].
  rewrite E. clear E. cbn [grid_snap_enabled]. rewrite En.
  assert (Ts3 : time_scale s3 = Some ts) by (unfold time_scale; rewrite U; exact Ts).
  assert (Vs3 : value_scale s3 = Some vs) by (unfold value_scale; rewrite U; exact Vs).
  assert (En3 : grid_snap_enabled (grid s3) = true) by (rewrite G; exact En).
  rewrite (snap_all_points_to_grid_returns s3 ts vs Ts3 Vs3).
  destruct (snap_all_points_to_grid_keeps s3) as [K [_ [KD _]]].
  rewrite K, KD, D, (snap_all_points_to_grid_points s3 ts vs En3 Ts3 Vs3), P.
  destruct (snapped_points (grid s3) ts vs (pwl_points s) En3) as [A [B [C F]]].
  - rewrite G. apply validated_pos.
  - rewrite G. apply validated_pos.
  - exact (time_scale_pos s ts Ts).
  - exact (value_scale_pos s vs Vs).
  - repeat split; assumption.
Qed.

Lemma on_grid_size_change_snaps_witness :
  let s := set_grid_vars (mkGrid true (1 # 2) 2) (set_grid (mkGrid true 1 1) startup) in
  Forall (on_grid (grid (on_grid_size_change s)) (1 # 1000000) (1 # 1000))
    (pwl_points (on_grid_size_change s)).
Proof.
  intros s.
  exact (proj1 (proj2 (proj2
           (on_grid_size_change_snaps s (1 # 1000000) (1 # 1000)
              eq_refl eq_refl eq_refl)))).
Defined.

(** X6.  With snapping on and a unit that is in no table, the look-up of
    [snap_all_points_to_grid] fails inside [on_grid_size_change]: the warning
    "Grid Size Error" is shown, the sizes entered are given up for cells of
    1 by 1, in force and in the fields, and the points stay as they are. *)
Theorem on_grid_size_change_unknown_unit (s : state) :
  grid_snap_enabled (grid s) = true ->
  time_scale s = None \/ value_scale s = None ->
  let s' := on_grid_size_change s in
  grid s' = mkGrid true 1 1
  /\ time_grid_size (grid_vars s') = 1
  /\ value_grid_size (grid_vars s') = 1
  /\ dialogs s' = ShowWarning "Grid Size Error" :: dialogs s
  /\ pwl_points s' = pwl_points s
  /\ pwl_text s' = pwl_text s.
Proof.
  intros En H s'. subst s'.
  destruct (on_grid_size_change_eq s) as [s3 [G [P [U [D [T E]]]]]].
  rewrite E. clear E. cbn [grid_snap_enabled]. rewrite En.
  assert (R : snap_all_points_to_grid s3 = Raised s3).
  { unfold snap_all_points_to_grid. rewrite G. cbn [grid_snap_enabled].
    rewrite En. simpl negb. cbv iota.
    unfold time_scale, value_scale. rewrite U.
    fold (time_scale s). fold (value_scale s).
    destruct H as [H|H]; rewrite H; [reflexivity|].
    destruct (time_scale s); reflexivity. }
  rewrite R. cbn. rewrite G, D, P, T. cbn. rewrite En.
  repeat split; reflexivity.
Qed.

Lemma on_grid_size_change_unknown_unit_witness :
  let s := set_units (mkUnits "Voltage" "hours" "mV")
             (set_grid (mkGrid true 1 1) startup) in
  dialogs (on_grid_size_change s) = ShowWarning "Grid Size Error" :: dialogs s.
Proof.
  intros s.
  exact (proj1 (proj2 (proj2 (proj2
           (on_grid_size_change_unknown_unit s eq_refl (or_introl eq_refl)))))).
Defined.

(** X7.  [on_grid_snap_change] with units of the tables and cells of
    positive size: it returns with the switch as the check box has it;
    switched on, the points are as many as before, in ascending order of
    time, each on a crossing of the grid and none at a negative time;
    switched off, nothing but the switch changes. *)
Theorem on_grid_snap_change_snaps (s : state) (ts vs : Q) :
  time_scale s = Some ts -> value_scale s = Some vs ->
  0 < time_grid_size (grid s) -> 0 < value_grid_size (grid s) ->
  exists s',
    on_grid_snap_change s = Returned s'
    /\ grid s' = mkGrid (grid_snap_enabled (grid_vars s))
                   (time_grid_size (grid s)) (value_grid_size (grid s))
    /\ if grid_snap_enabled (grid_vars s)
       then List.length (pwl_points s') = List.length (pwl_points s)
            /\ sorted_by_time (pwl_points s')
            /\ Forall (on_grid (grid s') ts vs) (pwl_points s')
            /\ Forall (fun p => 0 <= fst p) (pwl_points s')
       else s' = set_grid (grid s') s.
Proof.
  intros Ts Vs Tg Vg. unfold on_grid_snap_change. cbv zeta.
  set (s1 := set_grid (mkGrid (grid_snap_enabled (grid_vars s))
                         (time_grid_size (grid s)) (value_grid_size (grid s))) s).
  change (grid s1) with (mkGrid (grid_snap_enabled (grid_vars s))
                           (time_grid_size (grid s)) (value_grid_size (grid s))).
  cbn [grid_snap_enabled].
  destruct (grid_snap_enabled (grid_vars s)) eqn:En.
  - assert (Ts1 : time_scale s1 = Some ts) by exact Ts.
    assert (Vs1 : value_scale s1 = Some vs) by exact Vs.
    assert (En1 : grid_snap_enabled (grid s1) = true) by reflexivity.
    exists (final (snap_all_points_to_grid s1)).
    split; [exact (snap_all_points_to_grid_returns s1 ts vs Ts1 Vs1)|].
    destruct (snap_all_points_to_grid_keeps s1) as [K _].
    rewrite K, (snap_all_points_to_grid_points s1 ts vs En1 Ts1 Vs1).
    split; [reflexivity|].
    apply (snapped_points (grid s1) ts vs (pwl_points s) En1);
      [exact Tg | exact Vg | exact (time_scale_pos s ts Ts)
       | exact (value_scale_pos s vs Vs)].
  - exists s1. repeat split; reflexivity.
Qed.

Lemma on_grid_snap_change_snaps_witness :
  let s := set_grid_vars (mkGrid true 1 1) startup in
  exists s',
    on_grid_snap_change s = Returned s'
    /\ grid s' = mkGrid true 1 1.
Proof.
  intros s.
  destruct (on_grid_snap_change_snaps s (1 # 1000000) (1 # 1000)
              eq_refl eq_refl eq_refl eq_refl) as [s' [R [G _]]].
  exists s'. split; [exact R | exact G].
Defined.

(** ** More on the search for a free time *)

Lemma existing_times_from_index (i : nat) (ex : option nat)
  (pts : list point) (e : Q) :
  In e (existing_times_from i ex pts) ->
  exists j p, nth_error pts j = Some p /\ ex <> Some (i + j)%nat /\ e = fst p.
Proof.
  revert i.
  induction pts as [|[t v] r IH]; intros i H; simpl in H; [contradiction|].
  assert (Rest : In e (existing_times_from (S i) ex r) ->
                 exists j p, nth_error ((t, v) :: r) j = Some p
                             /\ ex <> Some (i + j)%nat /\ e = fst p).
  { intros H'. destruct (IH _ H') as [j [p [A [B C]]]].
    exists (S j), p. split; [exact A|]. split; [|exact C].
    replace (i + S j)%nat with (S i + j)%nat by lia. exact B. }
  destruct ex as [j0|].
  - destruct (i =? j0)%nat eqn:E; simpl in H; [exact (Rest H)|].
    destruct H as [<-|H]; [|exact (Rest H)].
    exists 0%nat, (t, v). split; [reflexivity|]. split; [|reflexivity].
    apply Nat.eqb_neq in E. intros K. injection K as K. lia.
  - destruct H as [<-|H]; [|exact (Rest H)].
    exists 0%nat, (t, v). split; [reflexivity|]. split; [discriminate|reflexivity].
Qed.

Lemma is_duplicate_free (mo c : Q) (existing : list Q) :
  (forall e, In e existing -> mo / 2 <= Qabs (c - e)) ->
  is_duplicate mo c existing = false.
Proof.
  intros H. unfold is_duplicate.
  destruct (existsb _ existing) eqn:E; [|reflexivity].
  apply existsb_exists in E. destruct E as [e [He L]].
  apply ltb_true in L. specialize (H e He). unfold PyNum.abs in L.
  exfalso. apply (Qlt_not_le _ _ L H).
Qed.

Lemma is_duplicate_near (mo c : Q) (existing : list Q) :
  is_duplicate mo c existing = true ->
  exists e, In e existing /\ Qabs (c - e) < mo / 2.
Proof.
  unfold is_duplicate. intros E. apply existsb_exists in E.
  destruct E as [e [He L]]. apply ltb_true in L. exists e. split; assumption.
Qed.

(** The loop never leaves a target that is not negative to the left: its
    direction stays forward. *)
Lemma probe_forward (attempts : list nat) (target mo : Q) (existing : list Q)
  (c : Q) (d : Z) (r : Q) :
  0 < mo -> 0 <= target -> (0 < d)%Z -> target <= c ->
  probe attempts target mo existing c d = Some r -> target <= r.
Proof.
  intros Mo T0 D. revert c.
  induction attempts as [|a rest IH]; intros c Hc; simpl; [discriminate|].
  destruct (negb (is_duplicate mo c existing) && PyNum.leb 0 c).
  - intros H. injection H as <-. exact Hc.
  - assert (D' : (0 <? d)%Z = true) by (apply Z.ltb_lt; exact D).
    rewrite D'.
    assert (A0 : 0 <= inject_Z (Z.of_nat a)).
    { change 0 with (inject_Z 0). rewrite <- Zle_Qle. lia. }
    assert (P : 0 <= mo * inject_Z (Z.of_nat a))
      by (apply Qmult_le_0_compat; [lra | exact A0]).
    assert (N : PyNum.ltb (target + mo * inject_Z (Z.of_nat a)) 0 = false)
      by (apply ltb_false; lra).
    rewrite N. apply IH. lra.
Qed.

Lemma probe_first (a : nat) (rest : list nat) (target mo : Q)
  (existing : list Q) (c : Q) (d : Z) :
  is_duplicate mo c existing = false -> 0 <= c ->
  probe (a :: rest) target mo existing c d = Some c.
Proof.
  intros D C. simpl. rewrite D. apply leb_true in C. rewrite C. reflexivity.
Qed.

Lemma seq_max_attempts : seq 0 max_attempts = 0%nat :: seq 1 99.
Proof. reflexivity. Qed.

Lemma probe_exhausted (a : nat) (rest : list nat) (target mo : Q)
  (existing : list Q) (c : Q) (d : Z) :
  probe (a :: rest) target mo existing c d = None -> 0 <= c ->
  is_duplicate mo c existing = true.
Proof.
  simpl. intros H C.
  destruct (is_duplicate mo c existing); [reflexivity|].
  apply leb_true in C. rewrite C in H. discriminate H.
Qed.

Lemma find_unique_time_when_free (s : state) (target : Q) (ex : option nat)
  (ts : Q) :
  time_scale s = Some ts -> 0 <= target ->
  is_duplicate (min_offset (grid s) ts) target
    (existing_times ex (pwl_points s)) = false ->
  find_unique_time s target ex = Some target.
Proof.
  intros Ts T0 D. unfold find_unique_time. rewrite Ts.
  rewrite seq_max_attempts, (probe_first _ _ _ _ _ _ _ D T0). reflexivity.
Qed.

(** X8.  A target time that is not negative and at least half of
    [min_offset] away from every stored time (the excluded one apart) is
    returned by [find_unique_time] as it is. *)
Theorem find_unique_time_free_target (s : state) (target : Q)
  (ex : option nat) (ts : Q) :
  time_scale s = Some ts -> 0 <= target ->
  (forall i p, nth_error (pwl_points s) i = Some p -> ex <> Some i ->
     min_offset (grid s) ts / 2 <= Qabs (target - fst p)) ->
  find_unique_time s target ex = Some target.
Proof.
  intros Ts T0 Free. apply (find_unique_time_when_free s target ex ts Ts T0).
  apply is_duplicate_free. intros e He.
  destruct (existing_times_from_index 0 ex (pwl_points s) e He)
    as [j [p [A [B ->]]]].
  exact (Free j p A B).
Qed.

Lemma find_unique_time_free_target_witness :
  find_unique_time startup (5 # 1000000) None = Some (5 # 1000000).
Proof.
  apply (find_unique_time_free_target startup (5 # 1000000) None (1 # 1000000));
    [reflexivity | discriminate |].
  intros i p H _.
  assert (E : pwl_points startup = initial_points) by (vm_compute; reflexivity).
  rewrite E in H. unfold initial_points in H.
  destruct i as [|[|i]]; cbn [nth_error] in H;
    [injection H as <- | injection H as <- | destruct i; discriminate H];
    vm_compute; discriminate.
Defined.

(** X9.  [find_unique_time] never moves a target that is not negative to an
    earlier time: the time returned is the target or a later one. *)
Theorem find_unique_time_not_before (s : state) (target : Q)
  (ex : option nat) (ts : Q) :
  time_scale s = Some ts -> 0 <= target ->
  exists r, find_unique_time s target ex = Some r /\ target <= r.
Proof.
  intros Ts T0. unfold find_unique_time. rewrite Ts.
  pose proof (min_offset_pos (grid s) ts (time_scale_pos s ts Ts)) as Mo.
  destruct (probe (seq 0 max_attempts) target (min_offset (grid s) ts)
              (existing_times ex (pwl_points s)) target 1) as [r|] eqn:P.
  - exists r. split; [reflexivity|].
    apply (probe_forward _ _ _ _ _ _ _ Mo T0 Z.lt_0_1 (Qle_refl target) P).
  - eexists. split; [reflexivity|].
    rewrite seq_max_attempts in P.
    apply probe_exhausted in P; [|exact T0].
    apply is_duplicate_near in P. destruct P as [e [He L]].
    unfold fallback.
    destruct (existing_times ex (pwl_points s)) as [|t l]; [contradiction|].
    destruct (list_max_ge l t) as [M1 M2].
    assert (Le : e <= list_max t l).
    { destruct He as [<-|He]; [exact M1|].
      rewrite Forall_forall in M2. exact (M2 e He). }
    pose proof (Qle_Qabs (target - e)) as A.
    remember (min_offset (grid s) ts) as mo eqn:Emo. clear Emo.
    remember (Qabs (target - e)) as a eqn:Ea. clear Ea.
    assert (Hh : mo / 2 == mo * (1 # 2)) by field.
    rewrite Hh in L. lra.
Qed.

Lemma find_unique_time_not_before_witness :
  exists r, find_unique_time startup 0 (Some 1%nat) = Some r /\ 0 <= r.
Proof.
  apply (find_unique_time_not_before startup 0 (Some 1%nat) (1 # 1000000));
    [reflexivity | discriminate].
Defined.

(** ** The Add Point button *)









(** ** Deleting and moving the selected point *)

Lemma list_delete_split (i : nat) (l l' : list point) :
  list_delete i l = Some l' ->
  exists l1 old l2,
    l = l1 ++ old :: l2 /\ l' = l1 ++ l2 /\ List.length l1 = i.
Proof.
  revert i l'.
  induction l as [|q r IH]; intros i l' H; [destruct i; discriminate|].
  destruct i as [|j]; simpl in H.
  - injection H as <-. exists [], q, r. auto.
  - destruct (list_delete j r) as [r'|] eqn:E; [|discriminate].
    injection H as <-.
    destruct (IH _ _ E) as [l1 [old [l2 [A [B C]]]]].
    exists (q :: l1), old, l2. subst. simpl. auto.
Qed.

Lemma list_delete_some (i : nat) (l : list point) :
  (i < List.length l)%nat -> exists l', list_delete i l = Some l'.
Proof.
  revert i. induction l as [|q r IH]; intros i H; simpl in H; [lia|].
  destruct i as [|j]; simpl; [eexists; reflexivity|].
  destruct (IH j) as [l' E]; [lia|]. rewrite E. eexists. reflexivity.
Qed.

Lemma list_delete_none (i : nat) (l : list point) :
  (List.length l <= i)%nat -> list_delete i l = None.
Proof.
  revert i. induction l as [|q r IH]; intros i H; simpl in H.
  - destruct i; reflexivity.
  - destruct i as [|j]; [lia|]. simpl. rewrite IH by lia. reflexivity.
Qed.

Lemma sorted_remove (l1 l2 : list point) (x : point) :
  sorted_by_time (l1 ++ x :: l2) -> sorted_by_time (l1 ++ l2).
Proof.
  unfold sorted_by_time.
  induction l1 as [|p l1 IH]; simpl; intros H.
  - inversion H; assumption.
  - inversion H as [|? ? S F]; subst.
    constructor; [apply IH, S|].
    apply Forall_app in F. destruct F as [F1 F2].
    inversion F2; subst. apply Forall_app. split; assumption.
Qed.

Lemma separated_remove (d : Q) (l1 l2 : list point) (x : point) :
  separated d (l1 ++ x :: l2) -> separated d (l1 ++ l2).
Proof.
  intros H.
  assert (P : Permutation (l1 ++ x :: l2) (x :: l1 ++ l2))
    by (symmetry; apply Permutation_middle).
  apply (separated_perm d _ _ P) in H.
  apply separated_cons in H. exact (proj2 H).
Qed.

(** X12.  With more than two points, a selection that is an index of the
    store and units of the tables, [delete_point] removes the selected
    point and no other, drops the selection and shows no message box. *)
Theorem delete_point_removes_selected (s : state) (sel : nat) (ts vs : Q) :
  selected_point s = Some sel ->
  (2 < List.length (pwl_points s))%nat ->
  (sel < List.length (pwl_points s))%nat ->
  time_scale s = Some ts -> value_scale s = Some vs ->
  exists s' l1 old l2,
    delete_point s = Returned s'
    /\ pwl_points s = l1 ++ old :: l2 /\ List.length l1 = sel
    /\ pwl_points s' = l1 ++ l2
    /\ selected_point s' = None
    /\ dialogs s' = dialogs s.
Proof.
  intros Sel L2 Ls Ts Vs. unfold delete_point. rewrite Sel.
  apply Nat.ltb_lt in L2. rewrite L2.
  destruct (list_delete_some sel (pwl_points s) Ls) as [l' E]. rewrite E.
  destruct (list_delete_split _ _ _ E) as [l1 [old [l2 [A [B C]]]]].
  exists (final (update_plot (set_selected None (set_points l' s)))), l1, old, l2.
  split; [apply (update_plot_returns _ ts vs); [exact Ts | exact Vs]|].
  rewrite update_plot_points, update_plot_selected.
  destruct (update_plot_text_only (set_selected None (set_points l' s)))
    as [t Et].
  rewrite Et. cbn. auto.
Qed.

Lemma delete_point_removes_selected_witness :
  let s := set_selected (Some 1%nat) (final (add_point startup)) in
  exists s' l1 old l2,
    delete_point s = Returned s'
    /\ pwl_points s = l1 ++ old :: l2 /\ List.length l1 = 1%nat
    /\ pwl_points s' = l1 ++ l2.
Proof.
  intros s.
  assert (L : List.length (pwl_points s) = 3%nat) by (vm_compute; reflexivity).
  destruct (delete_point_removes_selected s 1 (1 # 1000000) (1 # 1000) eq_refl)
    as [s' [l1 [old [l2 [R [A [B [C _]]]]]]]];
    [rewrite L; lia | rewrite L; lia | reflexivity | reflexivity |].
  exists s', l1, old, l2. auto.
Defined.

(** X13.  [delete_point] never leaves fewer than two points: from a store
    of two points or more it ends, returned or raised, with two points or
    more.  What it leaves is in ascending order of time if the store was,
    and keeps any distance [d] that separated the times; the window is as
    before. *)
Theorem delete_point_keeps_two (s : state) (d : Q) :
  (2 <= List.length (pwl_points s))%nat ->
  let s' := final (delete_point s) in
  (2 <= List.length (pwl_points s'))%nat
  /\ (sorted_by_time (pwl_points s) -> sorted_by_time (pwl_points s'))
  /\ (separated d (pwl_points s) -> separated d (pwl_points s'))
  /\ view s' = view s.
Proof.
  intros L s'. subst s'. unfold delete_point.
  destruct (selected_point s) as [sel|]; [|cbn; auto].
  destruct (2 <? List.length (pwl_points s))%nat eqn:L2.
  2:{ destruct (List.length (pwl_points s) <=? 2)%nat; cbn; auto. }
  apply Nat.ltb_lt in L2.
  destruct (list_delete sel (pwl_points s)) as [l'|] eqn:E; [|cbn; auto].
  destruct (list_delete_split _ _ _ E) as [l1 [old [l2 [A [B C]]]]].
  rewrite update_plot_points, update_plot_view. cbn.
  rewrite A in *. subst l'.
  split.
  { rewrite length_app in *. simpl in L2. lia. }
  split; [apply sorted_remove|]. split; [apply separated_remove | reflexivity].
Qed.

Lemma delete_point_keeps_two_witness :
  (2 <= List.length
          (pwl_points (final (delete_point (set_selected (Some 0%nat) startup)))))%nat.
Proof.
  assert (L : (2 <= List.length
                       (pwl_points (set_selected (Some 0%nat) startup)))%nat)
    by (vm_compute; lia).
  exact (proj1 (delete_point_keeps_two (set_selected (Some 0%nat) startup) 0 L)).
Defined.

(** X14.  A selection that is no index of the store (a stale one) makes
    [delete_point] on more than two points end in the [IndexError] of the
    deletion, and [move_point] in that of the assignment: each leaves the
    state as it was. *)
Theorem stale_selection_raises (s : state) (sel : nat) (x y : option Q)
  (ts vs : Q) :
  selected_point s = Some sel ->
  (List.length (pwl_points s) <= sel)%nat ->
  (2 < List.length (pwl_points s))%nat ->
  time_scale s = Some ts -> value_scale s = Some vs ->
  delete_point s = Raised s /\ move_point s x y = Raised s.
Proof.
  intros Sel L L2 Ts Vs. split.
  - unfold delete_point. rewrite Sel. apply Nat.ltb_lt in L2. rewrite L2.
    rewrite (list_delete_none _ _ L). reflexivity.
  - unfold move_point. rewrite Sel, Ts, Vs.
    destruct (to_real (grid s) ts vs x y) as [rt rv].
    destruct (find_unique_time_cases s rt (Some sel) ts Ts) as [u [E _]].
    rewrite E.
    destruct (list_assign sel (u, rv) (pwl_points s)) as [l|] eqn:A;
      [|reflexivity].
    destruct (list_assign_split _ _ _ _ A) as [l1 [old [l2 [B [_ C]]]]].
    rewrite B, length_app in L. simpl in L. lia.
Qed.

Lemma stale_selection_raises_witness :
  let s := set_selected (Some 7%nat) (final (add_point startup)) in
  delete_point s = Raised s.
Proof.
  intros s.
  assert (L : List.length (pwl_points s) = 3%nat) by (vm_compute; reflexivity).
  refine (proj1 (stale_selection_raises s 7 None None (1 # 1000000) (1 # 1000)
                   eq_refl _ _ eq_refl eq_refl)); rewrite L; lia.
Defined.

Lemma list_assign_some (i : nat) (p : point) (l : list point) :
  (i < List.length l)%nat -> exists l', list_assign i p l = Some l'.
Proof.
  revert i. induction l as [|q r IH]; intros i H; simpl in H; [lia|].
  destruct i as [|j]; simpl; [eexists; reflexivity|].
  destruct (IH j) as [l' E]; [lia|]. rewrite E. eexists. reflexivity.
Qed.

(** The search of [move_point] finds a point that passes its test. *)
Lemma relocate_from_found (i : nat) (u rv : Q) (l : list point) (k : nat) :
  relocate_from i u rv l = Some k ->
  exists p, nth_error l (k - i) = Some p /\ (i <= k)%nat
            /\ Qabs (fst p - u) < 1 # 1000000000000
            /\ Qabs (snd p - rv) < 1 # 1000000000000.
Proof.
  revert i. induction l as [|[t v] r IH]; intros i; [discriminate|].
  cbn [relocate_from].
  destruct (PyNum.ltb (PyNum.abs (t - u)) (1 # 1000000000000)
            && PyNum.ltb (PyNum.abs (v - rv)) (1 # 1000000000000)) eqn:E;
    intros H.
  - injection H as <-. exists (t, v). rewrite Nat.sub_diag.
    apply andb_true_iff in E. destruct E as [E1 E2].
    apply ltb_true in E1. apply ltb_true in E2.
    split; [reflexivity|]. split; [lia|]. split; assumption.
  - destruct (IH _ H) as [p [A [B C]]]. exists p.
    split; [|split; [lia | exact C]].
    replace (k - i)%nat with (S (k - S i)) by lia. exact A.
Qed.

(** It does find one when the point looked for is in the list. *)
Lemma relocate_from_some (i : nat) (u rv : Q) (l : list point) :
  In (u, rv) l -> exists k, relocate_from i u rv l = Some k.
Proof.
  revert i. induction l as [|[t v] r IH]; intros i H; [contradiction|].
  cbn [relocate_from].
  destruct (PyNum.ltb (PyNum.abs (t - u)) (1 # 1000000000000)
            && PyNum.ltb (PyNum.abs (v - rv)) (1 # 1000000000000)) eqn:E;
    [eexists; reflexivity|].
  destruct H as [H|H]; [|apply IH, H].
  exfalso. injection H as -> ->.
  assert (Z0 : forall a : Q, PyNum.ltb (PyNum.abs (a - a)) (1 # 1000000000000)
                             = true).
  { intros a. apply ltb_true. unfold PyNum.abs.
    assert (Q0 : a - a == 0) by ring. rewrite Q0. reflexivity. }
  rewrite !Z0 in E. discriminate E.
Qed.

(** X15.  With a selection that is an index of the store and units of the
    tables, [move_point] returns with as many points as before: the selected
    point gives way to the new one (its time from [find_unique_time], the
    moved point itself left out of the comparison), every other point is
    kept, the store is in ascending order of time, and the selection is the
    index of a point within 1e-12 of the new one in time and in value. *)
Theorem move_point_replaces_selected (s : state) (x y : option Q) (sel : nat)
  (ts vs : Q) :
  selected_point s = Some sel ->
  (sel < List.length (pwl_points s))%nat ->
  time_scale s = Some ts -> value_scale s = Some vs ->
  exists s' u l1 old l2 i p,
    move_point s x y = Returned s'
    /\ find_unique_time s (fst (to_real (grid s) ts vs x y)) (Some sel) = Some u
    /\ pwl_points s = l1 ++ old :: l2 /\ List.length l1 = sel
    /\ Permutation (pwl_points s')
         ((u, snd (to_real (grid s) ts vs x y)) :: l1 ++ l2)
    /\ sorted_by_time (pwl_points s')
    /\ List.length (pwl_points s') = List.length (pwl_points s)
    /\ selected_point s' = Some i
    /\ nth_error (pwl_points s') i = Some p
    /\ Qabs (fst p - u) < 1 # 1000000000000
    /\ Qabs (snd p - snd (to_real (grid s) ts vs x y)) < 1 # 1000000000000.
Proof.
  intros Sel L Ts Vs. unfold move_point. rewrite Sel, Ts, Vs.
  destruct (to_real (grid s) ts vs x y) as [rt rv]. cbn [fst snd].
  destruct (find_unique_time_cases s rt (Some sel) ts Ts) as [u [E _]].
  rewrite E.
  destruct (list_assign_some sel (u, rv) (pwl_points s) L) as [l A].
  rewrite A.
  destruct (list_assign_split _ _ _ _ A) as [l1 [old [l2 [B [C D]]]]].
  assert (P : Permutation (sort_by_time l) ((u, rv) :: l1 ++ l2)).
  { rewrite sort_by_time_perm, C. symmetry. apply Permutation_middle. }
  assert (I : In (u, rv) (sort_by_time l)).
  { apply (Permutation_in _ (Permutation_sym P)). now left. }
  destruct (relocate_from_some 0 u rv _ I) as [k R]. rewrite R.
  destruct (relocate_from_found _ _ _ _ _ R) as [p [N [_ [F1 F2]]]].
  rewrite Nat.sub_0_r in N.
  exists (final (update_plot
                   (set_selected (Some k) (set_points (sort_by_time l) s)))),
    u, l1, old, l2, k, p.
  split; [apply (update_plot_returns _ ts vs); [exact Ts | exact Vs]|].
  rewrite update_plot_points, update_plot_selected.
  cbn [pwl_points set_points set_selected selected_point].
  split; [reflexivity|]. split; [exact B|]. split; [exact D|].
  split; [exact P|]. split; [apply sort_by_time_sorted|].
  split.
  { rewrite (Permutation_length P), B. simpl. rewrite !length_app. simpl. lia. }
  split; [reflexivity|]. split; [exact N|]. split; assumption.
Qed.

Lemma move_point_replaces_selected_witness :
  let s := set_selected (Some 1%nat) startup in
  exists s',
    move_point s (Some 4) (Some 2) = Returned s'
    /\ List.length (pwl_points s') = List.length (pwl_points s).
Proof.
  intros s.
  assert (L : List.length (pwl_points s) = 2%nat) by (vm_compute; reflexivity).
  destruct (move_point_replaces_selected s (Some 4) (Some 2) 1
              (1 # 1000000) (1 # 1000) eq_refl)
    as [s' [u [l1 [old [l2 [i [p [R [_ [_ [_ [_ [_ [Len _]]]]]]]]]]]]]];
    [rewrite L; lia | reflexivity | reflexivity |].
  exists s'. split; [exact R | exact Len].
Defined.

(** ** Clicks *)

Lemma py_min_cases (a b : Q) :
  (py_min a b = a \/ py_min a b = b) /\ py_min a b <= a /\ py_min a b <= b.
Proof.
  unfold py_min. case_cmp; split; auto; split; lra.
Qed.

Lemma list_min_le (l : list Q) (t : Q) :
  list_min t l <= t /\ Forall (fun e => list_min t l <= e) l.
Proof.
  unfold list_min. revert t.
  induction l as [|a r IH]; intros t; simpl; [split; [lra | constructor]|].
  destruct (IH (py_min t a)) as [H1 H2].
  destruct (py_min_cases t a) as [_ [M1 M2]].
  split; [lra|]. constructor; [lra | exact H2].
Qed.

Lemma list_min_in (l : list Q) (t : Q) : In (list_min t l) (t :: l).
Proof.
  unfold list_min. revert t.
  induction l as [|a r IH]; intros t; simpl; [now left|].
  destruct (IH (py_min t a)) as [H|H].
  - destruct (py_min_cases t a) as [[E|E] _];
      [left | right; left]; rewrite <- H; symmetry; exact E.
  - right. right. exact H.
Qed.

Lemma index_of_some (d : Q) (l : list Q) :
  In d l -> exists i, index_of d l = Some i.
Proof.
  induction l as [|e r IH]; intros H; [contradiction|]. simpl.
  destruct (Qeq_bool e d) eqn:E; [eexists; reflexivity|].
  destruct H as [H|H].
  - subst e. rewrite Qeq_bool_refl in E. discriminate E.
  - destruct (IH H) as [i Ei]. rewrite Ei. eexists. reflexivity.
Qed.

Lemma index_of_first (d : Q) (l : list Q) (i : nat) :
  index_of d l = Some i ->
  (exists e, nth_error l i = Some e /\ e == d)
  /\ forall j e, (j < i)%nat -> nth_error l j = Some e -> ~ e == d.
Proof.
  revert i. induction l as [|a r IH]; intros i; simpl; [discriminate|].
  destruct (Qeq_bool a d) eqn:E.
  - intros H. injection H as <-. split.
    + exists a. split; [reflexivity | apply Qeq_bool_iff; exact E].
    + intros j e Hj. lia.
  - destruct (index_of d r) as [k|] eqn:K; [|discriminate].
    intros H. injection H as <-.
    destruct (IH k eq_refl) as [[e [A B]] C]. split.
    + exists e. split; assumption.
    + intros j e' Hj Hn. destruct j as [|j]; simpl in Hn.
      * injection Hn as <-. intros Q. apply Qeq_bool_iff in Q. congruence.
      * apply (C j e'); [lia | exact Hn].
Qed.

(** [on_click] with the left button inside the axes, on a store that is not
    empty. *)
Lemma on_click_left (s : state) (ev : press) (ts vs : Q) (d0 : Q)
  (ds : list Q) :
  press_inaxes ev = true -> press_button ev = 1%nat ->
  time_scale s = Some ts -> value_scale s = Some vs ->
  distances ts vs (press_x ev) (press_y ev) (pwl_points s) = d0 :: ds ->
  on_click s ev
  = if PyNum.ltb (list_min d0 ds) (tolerance (view s))
    then match index_of (list_min d0 ds) (d0 :: ds) with
         | Some i => update_plot (set_selected (Some i) s)
         | None => Raised s
         end
    else click_miss s ev.
Proof.
  intros In1 B Ts Vs D. unfold on_click. rewrite In1, B, Ts, Vs, D.
  simpl negb. cbv iota. simpl orb. cbv iota.
  destruct (pwl_points s) as [|p r]; [discriminate D | reflexivity].
Qed.

(** X16.  A click of the left button inside the axes that lies within the
    tolerance (a tenth of the larger side of the window) of a point selects a
    point and changes no point: the one whose distance to the cursor, time
    difference plus value difference in display units, is the least, and the
    first of the store among those at that distance. *)
Theorem on_click_selects_nearest (s : state) (ev : press) (ts vs : Q) :
  press_inaxes ev = true -> press_button ev = 1%nat ->
  time_scale s = Some ts -> value_scale s = Some vs ->
  let ds := distances ts vs (press_x ev) (press_y ev) (pwl_points s) in
  (exists d, In d ds /\ d < tolerance (view s)) ->
  exists s' i d,
    on_click s ev = Returned s'
    /\ selected_point s' = Some i
    /\ pwl_points s' = pwl_points s
    /\ nth_error ds i = Some d
    /\ d < tolerance (view s)
    /\ (forall e, In e ds -> d <= e)
    /\ (forall j e, (j < i)%nat -> nth_error ds j = Some e -> d < e).
Proof.
  intros In1 B Ts Vs ds [d1 [Hd1 Lt]].
  destruct ds as [|d0 r] eqn:D; [contradiction|].
  rewrite (on_click_left s ev ts vs d0 r In1 B Ts Vs D).
  destruct (list_min_le r d0) as [M0 Mr].
  assert (Mall : forall e, In e (d0 :: r) -> list_min d0 r <= e).
  { intros e [<-|He]; [exact M0|]. rewrite Forall_forall in Mr. exact (Mr e He). }
  assert (Lm : list_min d0 r < tolerance (view s)).
  { specialize (Mall d1 Hd1). lra. }
  apply ltb_true in Lm. rewrite Lm. apply ltb_true in Lm.
  destruct (index_of_some _ _ (list_min_in r d0)) as [i Ei]. rewrite Ei.
  destruct (index_of_first _ _ _ Ei) as [[d [N Eq]] First].
  exists (final (update_plot (set_selected (Some i) s))), i, d.
  split; [apply (update_plot_returns _ ts vs); [exact Ts | exact Vs]|].
  rewrite update_plot_selected, update_plot_points.
  split; [reflexivity|]. split; [reflexivity|]. split; [exact N|].
  split; [lra|]. split.
  - intros e He. specialize (Mall e He). lra.
  - intros j e Hj Hn. specialize (First j e Hj Hn).
    assert (He : In e (d0 :: r)) by (eapply nth_error_In; exact Hn).
    specialize (Mall e He).
    destruct (Qlt_le_dec d e) as [L|G]; [exact L|].
    exfalso. apply First. lra.
Qed.

Lemma on_click_selects_nearest_witness :
  let ev := mkPress true 1 (9 # 10) (1 # 10) false in
  exists s' i,
    on_click startup ev = Returned s' /\ selected_point s' = Some i.
Proof.
  intros ev.
  assert (E : pwl_points startup = initial_points) by (vm_compute; reflexivity).
  assert (V : view startup = mkBounds 0 10 (-5) 5) by (vm_compute; reflexivity).
  destruct (on_click_selects_nearest startup ev (1 # 1000000) (1 # 1000)
              eq_refl eq_refl eq_refl eq_refl) as [s' [i [d [R [S _]]]]].
  - rewrite E, V.
    exists (PyNum.abs ((9 # 10) - (1 # 1000000) / (1 # 1000000))
            + PyNum.abs ((1 # 10) - 0 / (1 # 1000))).
    split; [right; left; reflexivity | vm_compute; reflexivity].
  - exists s', i. split; [exact R | exact S].
Defined.

(** X17.  A click of the left button inside the axes with no point within
    the tolerance drops the selection.  A single click changes no point; a
    double click adds one point, at the time [find_unique_time] gives for
    the cursor, and the store stays in ascending order if it was. *)
Theorem on_click_outside_tolerance (s : state) (ev : press) (ts vs : Q) :
  press_inaxes ev = true -> press_button ev = 1%nat ->
  time_scale s = Some ts -> value_scale s = Some vs ->
  (forall d,
     In d (distances ts vs (press_x ev) (press_y ev) (pwl_points s)) ->
     tolerance (view s) <= d) ->
  exists s',
    on_click s ev = Returned s'
    /\ selected_point s' = None
    /\ if dblclick ev
       then exists u,
              find_unique_time s
                (fst (to_real (grid s) ts vs (Some (press_x ev))
                        (Some (press_y ev)))) None = Some u
              /\ Permutation (pwl_points s')
                   ((u, snd (to_real (grid s) ts vs (Some (press_x ev))
                               (Some (press_y ev)))) :: pwl_points s)
              /\ (sorted_by_time (pwl_points s) ->
                  sorted_by_time (pwl_points s'))
       else pwl_points s' = pwl_points s.
Proof.
  intros In1 B Ts Vs Far.
  assert (M : on_click s ev = click_miss s ev).
  { destruct (distances ts vs (press_x ev) (press_y ev) (pwl_points s))
      as [|d0 r] eqn:D.
    - unfold on_click. rewrite In1, B. simpl negb. simpl orb. cbv iota.
      destruct (pwl_points s); [reflexivity | discriminate D].
    - rewrite (on_click_left s ev ts vs d0 r In1 B Ts Vs D).
      assert (G : tolerance (view s) <= list_min d0 r)
        by (apply Far, list_min_in).
      apply ltb_false in G. rewrite G. reflexivity. }
  rewrite M. unfold click_miss.
  set (s0 := set_selected None s).
  assert (Ts0 : time_scale s0 = Some ts) by exact Ts.
  assert (Vs0 : value_scale s0 = Some vs) by exact Vs.
  assert (R0 : update_plot s0 = Returned (final (update_plot s0))).
  { unfold update_plot. rewrite Ts0, Vs0. destruct (pwl_points s0); reflexivity. }
  rewrite R0. unfold andThen.
  destruct (update_plot_text_only s0) as [t Et]. rewrite Et.
  destruct (dblclick ev).
  - unfold add_point_at.
    change (time_scale (set_text t s0)) with (time_scale s).
    change (value_scale (set_text t s0)) with (value_scale s).
    change (grid (set_text t s0)) with (grid s).
    change (find_unique_time (set_text t s0)) with (find_unique_time s).
    change (pwl_points (set_text t s0)) with (pwl_points s).
    rewrite Ts, Vs.
    destruct (to_real (grid s) ts vs (Some (press_x ev)) (Some (press_y ev)))
      as [rt rv]. cbn [fst snd].
    destruct (find_unique_time_cases s rt None ts Ts) as [u [E _]].
    rewrite E.
    eexists. split; [apply (update_plot_returns _ ts vs); [exact Ts | exact Vs]|].
    rewrite update_plot_selected, update_plot_points.
    split; [reflexivity|]. exists u.
    cbn [pwl_points set_points].
    split; [reflexivity|]. split; [apply list_insert_perm|].
    apply list_insert_sorted.
  - eexists. split; [reflexivity|]. split; reflexivity.
Qed.

Lemma on_click_outside_tolerance_witness :
  let ev := mkPress true 1 5 2 false in
  exists s',
    on_click startup ev = Returned s' /\ selected_point s' = None.
Proof.
  intros ev.
  assert (E : pwl_points startup = initial_points) by (vm_compute; reflexivity).
  assert (V : view startup = mkBounds 0 10 (-5) 5) by (vm_compute; reflexivity).
  destruct (on_click_outside_tolerance startup ev (1 # 1000000) (1 # 1000)
              eq_refl eq_refl eq_refl eq_refl) as [s' [R [S _]]].
  - rewrite E, V. intros d [<-|[<-|[]]]; vm_compute; discriminate.
  - exists s'. split; [exact R | exact S].
Defined.

(** ** Panning with the mouse *)

(** X18.  The pan gesture.  A press of the middle or right button inside
    the axes starts the pan at the cursor and changes nothing else.  A
    motion to [(x, y)] then moves the window by the way from there back to
    the point grabbed, so that this point comes to lie under the cursor
    (here for a window that stays right of time 0); the points are as
    before.  The release of the button ends the pan and leaves the
    window. *)
Theorem pan_gesture (s : state) (ev : press) (mv : event) (x y : Q) :
  press_inaxes ev = true ->
  press_button ev = 2%nat \/ press_button ev = 3%nat ->
  inaxes mv = true -> xdata mv = Some x -> ydata mv = Some y ->
  0 <= x_min (view s) + (press_x ev - x) ->
  let dx := press_x ev - x in
  let dy := press_y ev - y in
  let s1 := final (on_click s ev) in
  let s2 := final (on_motion s1 mv) in
  let s3 := on_release s2 (press_button ev) in
  on_click s ev = Returned (set_pan true (Some (press_x ev, press_y ev)) s)
  /\ same_bounds (view s2)
       (mkBounds (x_min (view s) + dx) (x_max (view s) + dx)
          (y_min (view s) + dy) (y_max (view s) + dy))
  /\ pwl_points s2 = pwl_points s
  /\ panning s3 = false /\ pan_start s3 = None
  /\ view s3 = view s2 /\ pwl_points s3 = pwl_points s.
Proof.
  intros In1 B In2 X Y N dx dy s1 s2 s3.
  assert (C : on_click s ev
              = Returned (set_pan true (Some (press_x ev, press_y ev)) s)).
  { unfold on_click. rewrite In1. destruct B as [B|B]; rewrite B; reflexivity. }
  assert (E1 : s1 = set_pan true (Some (press_x ev, press_y ev)) s)
    by (unfold s1; rewrite C; reflexivity).
  assert (R3 : s3 = set_pan false None s2).
  { unfold s3, on_release. destruct B as [B|B]; rewrite B; reflexivity. }
  assert (V2 : same_bounds (view s2)
                 (mkBounds (x_min (view s) + dx) (x_max (view s) + dx)
                    (y_min (view s) + dy) (y_max (view s) + dy))
               /\ pwl_points s2 = pwl_points s).
  { unfold s2, on_motion. rewrite In2, X, Y, E1.
    cbn [panning pan_start set_pan view].
    unfold shift_right. fold dx. fold dy.
    assert (F : PyNum.ltb (x_min (view s) + dx) 0 = false)
      by (apply ltb_false; exact N).
    rewrite F. simpl negb. cbv iota.
    split.
    - rewrite update_range_view. unfold same_bounds, set_x_min_var.
      cbn. rewrite F.
      split; [apply max0_id; exact N|]. repeat split; reflexivity.
    - rewrite (proj1 (update_range_keeps _)). reflexivity. }
  destruct V2 as [V2 P2].
  split; [exact C|]. split; [exact V2|]. split; [exact P2|].
  rewrite R3. cbn. repeat split; try reflexivity. exact P2.
Qed.

Lemma pan_gesture_witness :
  let ev := mkPress true 3 4 1 false in
  let mv := mkEvent true (MouseButton 3) None (Some 3) (Some 2) in
  same_bounds (view (final (on_motion (final (on_click startup ev)) mv)))
    (mkBounds (x_min (view startup) + (press_x ev - 3))
       (x_max (view startup) + (press_x ev - 3))
       (y_min (view startup) + (press_y ev - 2))
       (y_max (view startup) + (press_y ev - 2))).
Proof.
  intros ev mv.
  assert (N : 0 <= x_min (view startup) + (press_x ev - 3))
    by (vm_compute; discriminate).
  exact (proj1 (proj2 (pan_gesture startup ev mv 3 2 eq_refl
                         (or_intror eq_refl) eq_refl eq_refl eq_refl N))).
Defined.

(** ** Auto scale *)







(** ** Zoom and pan undone *)

Lemma clamp_nonneg (a : Q) :
  0 <= a -> PyNum.max0 (if PyNum.ltb a 0 then 0 else a) == a.
Proof.
  intros H. assert (F : PyNum.ltb a 0 = false) by (apply ltb_false; exact H).
  rewrite F. apply max0_id. exact H.
Qed.

(** What [update_range] leaves in the range variables: the lower time
    bound in force, the other three as they were. *)
Lemma update_range_vars (s : state) :
  x_min (view_vars (final (update_range s)))
    == PyNum.max0 (x_min (view_vars s))
  /\ x_max (view_vars (final (update_range s))) = x_max (view_vars s)
  /\ y_min (view_vars (final (update_range s))) = y_min (view_vars s)
  /\ y_max (view_vars (final (update_range s))) = y_max (view_vars s).
Proof.
  unfold update_range. rewrite update_plot_view_vars.
  destruct (Qeq_bool (PyNum.max0 (x_min (view_vars s))) (x_min (view_vars s)))
    eqn:E.
  - apply Qeq_bool_iff in E. cbn. split; [symmetry; exact E|].
    repeat split; reflexivity.
  - unfold set_x_min_var. cbn. split; [|repeat split; reflexivity].
    pose proof (max0_nonneg (x_min (view_vars s))) as N.
    apply ltb_false in N. rewrite N. reflexivity.
Qed.

Lemma view_after_x (s : state) (a b : Q) :
  view (final (update_range (set_x_max_var b (set_x_min_var a s))))
  = mkBounds (PyNum.max0 (if PyNum.ltb a 0 then 0 else a)) b
      (y_min (view_vars s)) (y_max (view_vars s)).
Proof. rewrite update_range_view. reflexivity. Qed.

Lemma view_after_y (s : state) (c d : Q) :
  view (final (update_range (set_y_max_var d (set_y_min_var c s))))
  = mkBounds (PyNum.max0 (x_min (view_vars s))) (x_max (view_vars s)) c d.
Proof. rewrite update_range_view. reflexivity. Qed.

Lemma view_after_xy (s : state) (a b c d : Q) :
  view (final (update_range
                 (set_y_max_var d
                    (set_y_min_var c (set_x_max_var b (set_x_min_var a s))))))
  = mkBounds (PyNum.max0 (if PyNum.ltb a 0 then 0 else a)) b c d.
Proof. rewrite update_range_view. reflexivity. Qed.

(** X20.  [zoom_out] undoes [zoom_in]: from a window at or right of time 0
    whose right bound is not left of the left one, zooming in and then out
    gives the window back. *)
Theorem zoom_in_then_out (s : state) :
  0 <= x_min (view s) -> x_min (view s) <= x_max (view s) ->
  same_bounds (view (final (zoom_out (final (zoom_in s))))) (view s).
Proof.
  intros N W.
  unfold zoom_out. rewrite view_after_xy.
  unfold zoom_in. rewrite view_after_xy.
  unfold same_bounds. cbn [x_min x_max y_min y_max].
  remember (x_min (view s)) as a. remember (x_max (view s)) as b.
  remember (y_min (view s)) as c. remember (y_max (view s)) as d.
  assert (E1 : PyNum.max0
                 (if PyNum.ltb ((a + b) / 2 - (b - a) * (1 # 4)) 0
                  then 0 else (a + b) / 2 - (b - a) * (1 # 4))
               == (a + b) * (1 # 2) - (b - a) * (1 # 4)).
  { rewrite clamp_nonneg; [field|].
    assert (H : (a + b) / 2 - (b - a) * (1 # 4) == a * (3 # 4) + b * (1 # 4))
      by field.
    rewrite H. lra. }
  remember (PyNum.max0
              (if PyNum.ltb ((a + b) / 2 - (b - a) * (1 # 4)) 0
               then 0 else (a + b) / 2 - (b - a) * (1 # 4))) as a1.
  assert (E2 : (a + b) / 2 + (b - a) * (1 # 4)
               == (a + b) * (1 # 2) + (b - a) * (1 # 4)) by field.
  remember ((a + b) / 2 + (b - a) * (1 # 4)) as b1.
  assert (X : (a1 + b1) / 2 - (b1 - a1) * 1 == a).
  { assert (H : (a1 + b1) / 2 - (b1 - a1) * 1 == a1 * (3 # 2) - b1 * (1 # 2))
      by field.
    rewrite H, E1, E2. ring. }
  split; [|split; [|split]].
  - assert (G : 0 <= (a1 + b1) / 2 - (b1 - a1) * 1) by (rewrite X; exact N).
    rewrite (clamp_nonneg _ G). exact X.
  - assert (H : (a1 + b1) / 2 + (b1 - a1) * 1 == b1 * (3 # 2) - a1 * (1 # 2))
      by field.
    rewrite H, E1, E2. ring.
  - field.
  - field.
Qed.

Lemma zoom_in_then_out_witness :
  same_bounds (view (final (zoom_out (final (zoom_in startup))))) (view startup).
Proof.
  apply zoom_in_then_out; vm_compute; discriminate.
Defined.

(** The window and the value fields after each pan button. *)
Lemma pan_right_result (s : state) :
  let sh := (x_max (view s) - x_min (view s)) * (1 # 4) in
  view (final (pan_right s))
  = mkBounds (PyNum.max0 (if PyNum.ltb (x_min (view s) + sh) 0 then 0
                          else x_min (view s) + sh))
      (x_max (view s) + sh) (y_min (view_vars s)) (y_max (view_vars s))
  /\ y_min (view_vars (final (pan_right s))) = y_min (view_vars s)
  /\ y_max (view_vars (final (pan_right s))) = y_max (view_vars s).
Proof.
  intros sh. unfold pan_right. fold sh. split; [apply view_after_x|].
  destruct (update_range_vars
              (set_x_max_var (x_max (view s) + sh)
                 (set_x_min_var (x_min (view s) + sh) s))) as [_ [_ [Y1 Y2]]].
  split; [exact Y1 | exact Y2].
Qed.

Lemma pan_left_result (s : state) :
  let sh := (x_max (view s) - x_min (view s)) * (1 # 4) in
  0 <= x_min (view s) - sh ->
  view (final (pan_left s))
  = mkBounds (PyNum.max0 (if PyNum.ltb (x_min (view s) - sh) 0 then 0
                          else x_min (view s) - sh))
      (x_max (view s) - sh) (y_min (view_vars s)) (y_max (view_vars s)).
Proof.
  intros sh N. unfold pan_left. fold sh. unfold shift_right.
  apply ltb_false in N. rewrite N. rewrite view_after_x, N. reflexivity.
Qed.

Lemma pan_up_result (s : state) :
  let sh := (y_max (view s) - y_min (view s)) * (1 # 4) in
  view (final (pan_up s))
  = mkBounds (PyNum.max0 (x_min (view_vars s))) (x_max (view_vars s))
      (y_min (view s) + sh) (y_max (view s) + sh)
  /\ x_min (view_vars (final (pan_up s))) == PyNum.max0 (x_min (view_vars s))
  /\ x_max (view_vars (final (pan_up s))) = x_max (view_vars s).
Proof.
  intros sh. unfold pan_up. fold sh. split; [apply view_after_y|].
  destruct (update_range_vars
              (set_y_max_var (y_max (view s) + sh)
                 (set_y_min_var (y_min (view s) + sh) s))) as [X1 [X2 _]].
  split; [exact X1 | exact X2].
Qed.

Lemma pan_down_result (s : state) :
  let sh := (y_max (view s) - y_min (view s)) * (1 # 4) in
  view (final (pan_down s))
  = mkBounds (PyNum.max0 (x_min (view_vars s))) (x_max (view_vars s))
      (y_min (view s) - sh) (y_max (view s) - sh)
  /\ x_min (view_vars (final (pan_down s))) == PyNum.max0 (x_min (view_vars s))
  /\ x_max (view_vars (final (pan_down s))) = x_max (view_vars s).
Proof.
  intros sh. unfold pan_down. fold sh. split; [apply view_after_y|].
  destruct (update_range_vars
              (set_y_max_var (y_max (view s) - sh)
                 (set_y_min_var (y_min (view s) - sh) s))) as [X1 [X2 _]].
  split; [exact X1 | exact X2].
Qed.

Lemma max0_compat (a b : Q) : a == b -> PyNum.max0 a == PyNum.max0 b.
Proof. intros H. unfold PyNum.max0. repeat case_cmp; lra. Qed.

(** X21.  The pan buttons undo each other: from a state whose range fields
    hold the window in force, this window at or right of time 0 with its
    right bound not left of the left one, [pan_left] after [pan_right],
    [pan_down] after [pan_up] and [pan_up] after [pan_down] each give the
    window back. *)
Theorem pans_undo (s : state) :
  synced s -> 0 <= x_min (view s) -> x_min (view s) <= x_max (view s) ->
  same_bounds (view (final (pan_left (final (pan_right s))))) (view s)
  /\ same_bounds (view (final (pan_down (final (pan_up s))))) (view s)
  /\ same_bounds (view (final (pan_up (final (pan_down s))))) (view s).
Proof.
  unfold synced. intros Sy N W.
  split; [|split].
  - destruct (pan_right_result s) as [V [Y1 Y2]].
    remember (final (pan_right s)) as s1 eqn:E1. clear E1.
    remember (x_min (view s)) as a. remember (x_max (view s)) as b.
    assert (C1 : PyNum.max0
                   (if PyNum.ltb (a + (b - a) * (1 # 4)) 0 then 0
                    else a + (b - a) * (1 # 4))
                 == a + (b - a) * (1 # 4)) by (apply clamp_nonneg; lra).
    assert (A1 : x_min (view s1) == a + (b - a) * (1 # 4))
      by (rewrite V; exact C1).
    assert (B1 : x_max (view s1) = b + (b - a) * (1 # 4))
      by (rewrite V; reflexivity).
    assert (G : 0 <= x_min (view s1)
                     - (x_max (view s1) - x_min (view s1)) * (1 # 4)).
    { rewrite B1, A1. lra. }
    rewrite (pan_left_result s1 G), Y1, Y2, Sy.
    unfold same_bounds. cbn [x_min x_max y_min y_max].
    rewrite <- Heqa, <- Heqb.
    split; [|split; [|split; reflexivity]].
    + rewrite (clamp_nonneg _ G), B1, A1. ring.
    + rewrite B1, A1. ring.
  - destruct (pan_up_result s) as [V [X1 X2]].
    remember (final (pan_up s)) as s1 eqn:E1. clear E1.
    destruct (pan_down_result s1) as [V' _]. rewrite V', V.
    unfold same_bounds. cbn [x_min x_max y_min y_max].
    rewrite X2, Sy.
    split; [|split; [reflexivity | split; ring]].
    rewrite (max0_compat _ _ X1), Sy. rewrite (max0_compat _ _ (max0_id _ N)).
    apply max0_id. exact N.
  - destruct (pan_down_result s) as [V [X1 X2]].
    remember (final (pan_down s)) as s1 eqn:E1. clear E1.
    destruct (pan_up_result s1) as [V' _]. rewrite V', V.
    unfold same_bounds. cbn [x_min x_max y_min y_max].
    rewrite X2, Sy.
    split; [|split; [reflexivity | split; ring]].
    rewrite (max0_compat _ _ X1), Sy. rewrite (max0_compat _ _ (max0_id _ N)).
    apply max0_id. exact N.
Qed.

Lemma pans_undo_witness :
  same_bounds (view (final (pan_left (final (pan_right startup))))) (view startup).
Proof.
  refine (proj1 (pans_undo startup eq_refl _ _)); vm_compute; discriminate.
Defined.

(** ** The range fields and the window *)

(** X22.  [update_range] brings the range fields and the window together:
    afterwards the four fields hold the window in force, whose left bound
    is the left field clamped at 0 and whose other bounds are the fields as
    they were; running it again changes nothing of the window. *)
Theorem update_range_syncs (s : state) :
  let s' := final (update_range s) in
  same_bounds (view_vars s') (view s')
  /\ x_min (view s') = PyNum.max0 (x_min (view_vars s))
  /\ x_max (view s') = x_max (view_vars s)
  /\ y_min (view s') = y_min (view_vars s)
  /\ y_max (view s') = y_max (view_vars s)
  /\ same_bounds (view (final (update_range s'))) (view s').
Proof.
  intros s'. subst s'.
  destruct (update_range_vars s) as [X1 [X2 [Y1 Y2]]].
  pose proof (update_range_view s) as V.
  remember (final (update_range s)) as s1 eqn:E. clear E.
  rewrite (update_range_view s1), V.
  unfold same_bounds. cbn [x_min x_max y_min y_max].
  rewrite X2, Y1, Y2.
  split; [repeat split; try reflexivity; exact X1|].
  repeat split; try reflexivity.
  rewrite (max0_compat _ _ X1). apply max0_id, max0_nonneg.
Qed.

(** ** The source type and the value unit *)

Lemma mem_lookup (k : string) (t : Units.table) :
  Units.mem k t = true -> exists v, Units.lookup k t = Some v.
Proof.
  unfold Units.mem. destruct (Units.lookup k t) as [v|]; [|discriminate].
  intros _. exists v. reflexivity.
Qed.

(** The state [on_source_type_change] redraws. *)
Lemma on_source_type_change_eq (s : state) :
  let st := source_type (unit_vars s) in
  let tbl := if String.eqb st "Voltage" then Units.voltage_prefixes
             else Units.current_prefixes in
  let dflt := if String.eqb st "Voltage" then "mV"%string else "mA"%string in
  on_source_type_change s
  = update_plot
      (if Units.mem (value_unit (units s)) tbl
       then set_units (mkUnits st (time_unit (units s)) (value_unit (units s))) s
       else set_unit_vars
              (mkUnits st (time_unit (unit_vars s)) dflt)
              (set_units (mkUnits st (time_unit (units s)) dflt) s)).
Proof.
  intros st tbl dflt. unfold on_source_type_change. fold st.
  subst tbl dflt. destruct (String.eqb st "Voltage"); reflexivity.
Qed.

(** What [on_source_type_change] leaves. *)
Lemma on_source_type_change_fields (s : state) :
  let s' := final (on_source_type_change s) in
  let st := source_type (unit_vars s) in
  let tbl := if String.eqb st "Voltage" then Units.voltage_prefixes
             else Units.current_prefixes in
  let dflt := if String.eqb st "Voltage" then "mV"%string else "mA"%string in
  units s' = mkUnits st (time_unit (units s))
               (if Units.mem (value_unit (units s)) tbl
                then value_unit (units s) else dflt)
  /\ (pwl_points s' = pwl_points s /\ view s' = view s /\ grid s' = grid s
      /\ view_vars s' = view_vars s /\ dialogs s' = dialogs s
      /\ selected_point s' = selected_point s)
  /\ (exists vs, value_scale s' = Some vs)
  /\ time_scale s' = time_scale s
  /\ match time_scale s with
     | Some _ => on_source_type_change s = Returned s'
     | None => on_source_type_change s = Raised s' \/ pwl_points s = []
     end.
Proof.
  intros s' st tbl dflt. subst s'. rewrite on_source_type_change_eq.
  fold st. fold tbl. fold dflt.
  set (s1 := if Units.mem (value_unit (units s)) tbl
             then set_units (mkUnits st (time_unit (units s))
                               (value_unit (units s))) s
             else set_unit_vars (mkUnits st (time_unit (unit_vars s)) dflt)
                    (set_units (mkUnits st (time_unit (units s)) dflt) s)).
  assert (U : units s1
              = mkUnits st (time_unit (units s))
                  (if Units.mem (value_unit (units s)) tbl
                   then value_unit (units s) else dflt)).
  { unfold s1. destruct (Units.mem (value_unit (units s)) tbl); reflexivity. }
  assert (K : pwl_points s1 = pwl_points s /\ view s1 = view s
              /\ grid s1 = grid s /\ view_vars s1 = view_vars s
              /\ dialogs s1 = dialogs s
              /\ selected_point s1 = selected_point s).
  { unfold s1. destruct (Units.mem (value_unit (units s)) tbl);
      repeat split; reflexivity. }
  assert (V : exists vs, value_scale s1 = Some vs).
  { unfold value_scale. rewrite U. cbn [source_type value_unit].
    destruct (Units.mem (value_unit (units s)) tbl) eqn:M.
    - apply mem_lookup in M. unfold tbl in M.
      destruct (String.eqb st "Voltage"); exact M.
    - unfold dflt. destruct (String.eqb st "Voltage"); eexists; reflexivity. }
  assert (T : time_scale s1 = time_scale s).
  { unfold time_scale. rewrite U. reflexivity. }
  destruct (update_plot_text_only s1) as [txt E].
  split; [rewrite update_plot_units; exact U|].
  split.
  { rewrite E. cbn [set_text pwl_points view grid view_vars dialogs
                      selected_point]. exact K. }
  split.
  { destruct V as [vs V]. exists vs. unfold value_scale in *.
    rewrite update_plot_units. exact V. }
  split.
  { unfold time_scale in *. rewrite update_plot_units. exact T. }
  destruct K as [K1 _].
  destruct (time_scale s) as [ts|] eqn:Ts.
  - destruct V as [vs V].
    apply (update_plot_returns s1 ts vs); [exact T | exact V].
  - unfold update_plot. rewrite T, K1.
    destruct (pwl_points s); [right; reflexivity | left; reflexivity].
Qed.

(** X23.  After [on_source_type_change] the value unit is one of the table
    of the source type chosen: the unit in force if that table has it, else
    "mV" for a voltage and "mA" for a current source.  So the value scale is
    always found, and the handler returns whenever the time unit is known.
    Source type apart, nothing else changes: points, time unit, window and
    grid are as before. *)
Theorem on_source_type_change_unit_known (s : state) :
  let s' := final (on_source_type_change s) in
  let st := source_type (unit_vars s) in
  let tbl := if String.eqb st "Voltage" then Units.voltage_prefixes
             else Units.current_prefixes in
  (exists vs, value_scale s' = Some vs)
  /\ source_type (units s') = st
  /\ time_unit (units s') = time_unit (units s)
  /\ value_unit (units s')
     = (if Units.mem (value_unit (units s)) tbl then value_unit (units s)
        else if String.eqb st "Voltage" then "mV"%string else "mA"%string)
  /\ pwl_points s' = pwl_points s /\ view s' = view s /\ grid s' = grid s
  /\ match time_scale s with
     | Some _ => on_source_type_change s = Returned s'
     | None => on_source_type_change s = Raised s' \/ pwl_points s = []
     end.
Proof.
  intros s' st tbl.
  destruct (on_source_type_change_fields s)
    as [U [[K1 [K2 [K3 _]]] [V [_ R]]]].
  fold s' in U, K1, K2, K3, V, R. fold st in U. fold tbl in U.
  rewrite U. cbn [source_type time_unit value_unit].
  split; [exact V|]. repeat (split; [reflexivity|]).
  split; [exact K1|]. split; [exact K2|]. split; [exact K3 | exact R].
Qed.

(** ** Saving and loading *)

Lemma update_range_fields (s : state) :
  let s' := final (update_range s) in
  units s' = units s /\ pwl_points s' = pwl_points s /\ grid s' = grid s
  /\ dialogs s' = dialogs s /\ selected_point s' = selected_point s
  /\ unit_vars s' = unit_vars s.
Proof.
  intros s'. subst s'. unfold update_range.
  match goal with
  | |- context [update_plot ?x] =>
      destruct (update_plot_text_only x) as [txt E]; rewrite E
  end.
  destruct (Qeq_bool _ _); repeat split; reflexivity.
Qed.

Lemma update_range_returns (s : state) (ts vs : Q) :
  time_scale s = Some ts -> value_scale s = Some vs ->
  update_range s = Returned (final (update_range s)).
Proof.
  intros Ts Vs. unfold update_range. apply (update_plot_returns _ ts vs).
  - destruct (Qeq_bool _ _); exact Ts.
  - destruct (Qeq_bool _ _); exact Vs.
Qed.

Lemma units_eta (u : unit_sel) :
  mkUnits (source_type u) (time_unit u) (value_unit u) = u.
Proof. destruct u; reflexivity. Qed.

Lemma grid_eta (g : grid_cfg) :
  mkGrid (grid_snap_enabled g) (time_grid_size g) (value_grid_size g) = g.
Proof. destruct g; reflexivity. Qed.

(** X24.  Saving and loading.  The document [save_file] writes, loaded
    into any editor state [t], brings back the points, the source type and
    the units, the grid settings and the window of the state [s] saved
    (units of the tables; a window at or right of time 0), and ends with the
    message "Loaded".  The selection is not part of the document: the one of
    [t] stays. *)
Theorem save_then_load (s t : state) (ts vs : Q) :
  time_scale s = Some ts -> value_scale s = Some vs ->
  0 <= x_min (view s) ->
  let s' := load_file (fst (save_file s)) t in
  pwl_points s' = pwl_points s
  /\ units s' = units s
  /\ grid s' = grid s
  /\ same_bounds (view s') (view s)
  /\ dialogs s' = ShowInfo "Loaded" :: dialogs t
  /\ selected_point s' = selected_point t.
Proof.
  intros Ts Vs N s'. subst s'.
  unfold save_file, snapshot_of. cbn [fst]. unfold load_file.
  cbn [get Snapshot.pwl_points Snapshot.source_type Snapshot.time_unit
         Snapshot.value_unit Snapshot.x_range Snapshot.y_range
         Snapshot.grid_snap_enabled Snapshot.time_grid_size
         Snapshot.value_grid_size fst snd].
  match goal with
  | |- context [on_source_type_change ?x >>= update_range] => set (s4 := x)
  end.
  assert (F1 : units s4 = units s) by (rewrite <- (units_eta (units s)); reflexivity).
  assert (F2 : unit_vars s4 = units s)
    by (rewrite <- (units_eta (units s)); reflexivity).
  assert (F3 : pwl_points s4 = pwl_points s /\ view s4 = view t
               /\ dialogs s4 = dialogs t
               /\ selected_point s4 = selected_point t)
    by (repeat split; reflexivity).
  assert (F4 : grid s4 = grid s) by (rewrite <- (grid_eta (grid s)); reflexivity).
  assert (F5 : view_vars s4
               = mkBounds (if PyNum.ltb (x_min (view s)) 0 then 0
                           else x_min (view s))
                   (x_max (view s)) (y_min (view s)) (y_max (view s)))
    by reflexivity.
  clearbody s4.
  destruct (on_source_type_change_fields s4)
    as [U [[K1 [K2 [K3 [K4 [K5 K6]]]]] [_ [T R]]]].
  assert (Ts4 : time_scale s4 = Some ts)
    by (unfold time_scale; rewrite F1; exact Ts).
  rewrite Ts4 in R, T. rewrite R. unfold andThen.
  remember (final (on_source_type_change s4)) as s5 eqn:E5. clear E5 R.
  assert (U5 : units s5 = units s).
  { rewrite U, F1, F2. unfold value_scale in Vs.
    assert (M : Units.mem (value_unit (units s))
                  (if String.eqb (source_type (units s)) "Voltage"
                   then Units.voltage_prefixes else Units.current_prefixes)
                = true).
    { unfold Units.mem.
      destruct (String.eqb (source_type (units s)) "Voltage"); rewrite Vs;
        reflexivity. }
    rewrite M. apply units_eta. }
  assert (Vs5 : value_scale s5 = Some vs)
    by (unfold value_scale; rewrite U5; exact Vs).
  rewrite (update_range_returns s5 ts vs T Vs5).
  destruct (update_range_fields s5) as [A1 [A2 [A3 [A4 [A5 _]]]]].
  pose proof (update_range_view s5) as V.
  remember (final (update_range s5)) as s6 eqn:E6. clear E6.
  destruct F3 as [P4 [_ [D4 S4]]].
  cbn [show pwl_points units grid view dialogs selected_point].
  rewrite A1, A2, A3, A4, A5, U5, K1, K3, K5, K6, P4, F4, D4, S4, V, K4, F5.
  unfold same_bounds. cbn [x_min x_max y_min y_max].
  repeat (split; [reflexivity|]).
  split; [|split; reflexivity].
  split; [apply clamp_nonneg; exact N|]. repeat split; reflexivity.
Qed.

Lemma save_then_load_witness :
  pwl_points (load_file (fst (save_file (final (add_point startup)))) startup)
  = pwl_points (final (add_point startup)).
Proof.
  refine (proj1 (save_then_load (final (add_point startup)) startup
                   (1 # 1000000) (1 # 1000) _ _ _)).
  - vm_compute. reflexivity.
  - vm_compute. reflexivity.
  - vm_compute. discriminate.
Defined.

(** With a time unit of no table and a point to draw, the redraw of
    [on_source_type_change] fails. *)
Lemma on_source_type_change_raises (s4 : state) :
  time_scale s4 = None -> pwl_points s4 <> [] ->
  exists s5,
    on_source_type_change s4 = Raised s5
    /\ pwl_points s5 = pwl_points s4 /\ view s5 = view s4
    /\ dialogs s5 = dialogs s4 /\ pwl_text s5 = pwl_text s4
    /\ time_unit (units s5) = time_unit (units s4).
Proof.
  intros Ts4 NE. rewrite on_source_type_change_eq.
  match goal with
  | |- context [update_plot ?x] => set (s1 := x)
  end.
  assert (K : pwl_points s1 = pwl_points s4 /\ view s1 = view s4
              /\ dialogs s1 = dialogs s4 /\ pwl_text s1 = pwl_text s4
              /\ time_unit (units s1) = time_unit (units s4)).
  { unfold s1. destruct (Units.mem _ _); repeat split; reflexivity. }
  exists s1. split; [|exact K].
  destruct K as [K1 [_ [_ [_ K5]]]].
  unfold update_plot. unfold time_scale in *. rewrite K5, Ts4, K1.
  destruct (pwl_points s4); [congruence | reflexivity].
Qed.

(** X25.  Loading a document whose time unit is in no table (with a point
    list that is not empty) ends in the message "Error", but only after the
    points, units and grid settings of the document have replaced those of
    the editor: the redraw of [on_source_type_change] fails on the unit, so
    the window and the PWL text stay those of before, and the editor is left
    with a time unit it cannot look up. *)
Theorem load_file_unknown_time_unit (data : Snapshot.t) (t : state) :
  Units.lookup (get (Snapshot.time_unit data) "μs"%string) Units.time_prefixes
  = None ->
  get (Snapshot.pwl_points data) initial_points <> [] ->
  let s' := load_file data t in
  dialogs s' = ShowError "Error" :: dialogs t
  /\ pwl_points s' = get (Snapshot.pwl_points data) initial_points
  /\ time_unit (units s') = get (Snapshot.time_unit data) "μs"%string
  /\ time_scale s' = None
  /\ view s' = view t
  /\ pwl_text s' = pwl_text t.
Proof.
  intros L NE s'. subst s'. unfold load_file.
  match goal with
  | |- context [on_source_type_change ?x >>= update_range] => set (s4 := x)
  end.
  assert (F1 : time_unit (units s4) = get (Snapshot.time_unit data) "μs"%string)
    by reflexivity.
  assert (F3 : pwl_points s4 = get (Snapshot.pwl_points data) initial_points
               /\ view s4 = view t /\ dialogs s4 = dialogs t
               /\ pwl_text s4 = pwl_text t)
    by (repeat split; reflexivity).
  clearbody s4. destruct F3 as [P4 [V4 [D4 X4]]].
  assert (Ts4 : time_scale s4 = None) by (unfold time_scale; rewrite F1; exact L).
  assert (NE4 : pwl_points s4 <> []) by (rewrite P4; exact NE).
  destruct (on_source_type_change_raises s4 Ts4 NE4)
    as [s5 [R [K1 [K2 [K3 [K4 K5]]]]]].
  rewrite R. unfold andThen.
  cbn [show pwl_points units view dialogs pwl_text].
  unfold time_scale. cbn [show units].
  rewrite K1, K2, K3, K4, K5, P4, V4, D4, X4, F1.
  split; [reflexivity|]. split; [reflexivity|]. split; [reflexivity|].
  split; [exact L|]. split; reflexivity.
Qed.

Lemma load_file_unknown_time_unit_witness :
  let data := Snapshot.mk None None (Some "hours"%string) None None None None
                None None in
  dialogs (load_file data startup) = ShowError "Error" :: dialogs startup.
Proof.
  intros data.
  refine (proj1 (load_file_unknown_time_unit data startup eq_refl _)).
  discriminate.
Defined.

(** ** What every session keeps *)

Lemma consistent_ext (s s' : state) :
  pwl_points s' = pwl_points s -> selected_point s' = selected_point s ->
  view s' = view s -> consistent s -> consistent s'.
Proof. unfold consistent. intros -> -> ->. auto. Qed.

Lemma consistent_update_plot (s : state) :
  consistent s -> consistent (final (update_plot s)).
Proof.
  apply consistent_ext;
    [apply update_plot_points | apply update_plot_selected
     | apply update_plot_view].
Qed.

Lemma consistent_update_range (s : state) :
  store_ok (pwl_points s) -> selection_ok (selected_point s) (pwl_points s) ->
  consistent (final (update_range s)).
Proof.
  intros A B. destruct (update_range_fields s) as [_ [P [_ [_ [S _]]]]].
  unfold consistent. rewrite P, S.
  split; [exact A|]. split; [exact B | apply update_range_x_min].
Qed.

Lemma find_unique_time_nonneg (s : state) (target : Q) (ex : option nat)
  (ts r : Q) :
  time_scale s = Some ts -> Forall (fun p => 0 <= fst p) (pwl_points s) ->
  find_unique_time s target ex = Some r -> 0 <= r.
Proof.
  intros Ts N H.
  destruct (find_unique_time_cases s target ex ts Ts) as [r' [E [_ C]]].
  rewrite E in H. injection H as <-.
  destruct C as [[C _]|C]; [exact C|]. rewrite C.
  apply fallback_nonneg.
  - apply min_offset_pos. exact (time_scale_pos s ts Ts).
  - apply Forall_forall. intros e He.
    destruct (existing_times_from_sound 0 ex (pwl_points s) e He) as [p [Hp ->]].
    rewrite Forall_forall in N. exact (N p Hp).
Qed.

Lemma store_ok_sort (l : list point) :
  (2 <= List.length l)%nat -> Forall (fun p => 0 <= fst p) l ->
  store_ok (sort_by_time l).
Proof.
  intros L N. split; [|split].
  - rewrite (Permutation_length (sort_by_time_perm l)). exact L.
  - apply sort_by_time_sorted.
  - apply (Permutation_Forall (Permutation_sym (sort_by_time_perm l))). exact N.
Qed.

Lemma consistent_move_point (s : state) (x y : option Q) :
  consistent s -> consistent (final (move_point s x y)).
Proof.
  intros C. unfold move_point.
  destruct (selected_point s) as [sel|] eqn:Sel; [|exact C].
  destruct (time_scale s) as [ts|] eqn:Ts; [|exact C].
  destruct (value_scale s) as [vs|] eqn:Vs; [|exact C].
  destruct (to_real (grid s) ts vs x y) as [rt rv].
  destruct (find_unique_time s rt (Some sel)) as [u|] eqn:U; [|exact C].
  destruct (list_assign sel (u, rv) (pwl_points s)) as [l|] eqn:A; [|exact C].
  destruct C as [[L [S N]] [_ V]].
  destruct (list_assign_split _ _ _ _ A) as [l1 [old [l2 [B [B' Len]]]]].
  assert (Ll : List.length l = List.length (pwl_points s)).
  { rewrite B, B', !length_app. reflexivity. }
  assert (Nl : Forall (fun p => 0 <= fst p) l).
  { pose proof (find_unique_time_nonneg s rt (Some sel) ts u Ts N U) as U0.
    rewrite B in N. rewrite B'.
    apply Forall_app in N. destruct N as [N1 N2].
    apply Forall_app. split; [exact N1|].
    constructor; [exact U0 | exact (Forall_inv_tail N2)]. }
  assert (Ok : store_ok (sort_by_time l)) by (apply store_ok_sort; [lia | exact Nl]).
  apply consistent_update_plot.
  destruct (relocate_from 0 u rv (sort_by_time l)) as [k|] eqn:R.
  - split; [exact Ok|]. split; [|exact V].
    destruct (relocate_from_found _ _ _ _ _ R) as [p [Hn _]].
    rewrite Nat.sub_0_r in Hn.
    cbn [selected_point set_selected pwl_points set_points selection_ok].
    apply nth_error_Some. congruence.
  - split; [exact Ok|]. split; [|exact V].
    cbn [selected_point set_selected pwl_points set_points]. rewrite Sel.
    cbn [selection_ok].
    rewrite (Permutation_length (sort_by_time_perm l)), Ll, B, length_app.
    simpl. lia.
Qed.

Lemma consistent_add_point_at (s : state) (x y : option Q) :
  consistent s -> consistent (final (add_point_at s x y)).
Proof.
  intros C. unfold add_point_at.
  destruct (time_scale s) as [ts|] eqn:Ts; [|exact C].
  destruct (value_scale s) as [vs|] eqn:Vs; [|exact C].
  destruct (to_real (grid s) ts vs x y) as [rt rv].
  destruct (find_unique_time s rt None) as [u|] eqn:U; [|exact C].
  destruct C as [[L [S N]] [Se V]].
  pose proof (find_unique_time_nonneg s rt None ts u Ts N U) as U0.
  pose proof (list_insert_perm (insert_index u (pwl_points s)) (u, rv)
                (pwl_points s)) as P.
  apply consistent_update_plot.
  split; [split; [|split]|split; [|exact V]];
    cbn [selected_point set_selected pwl_points set_points].
  - rewrite (Permutation_length P). simpl. lia.
  - apply list_insert_sorted. exact S.
  - apply (Permutation_Forall (Permutation_sym P)).
    constructor; [exact U0 | exact N].
  - destruct (selected_point s) as [i|]; [|exact I]. cbn [selection_ok] in *.
    rewrite (Permutation_length P). simpl. lia.
Qed.

Lemma consistent_add_point (s : state) :
  consistent s -> consistent (final (add_point s)).
Proof.
  intros C. unfold add_point.
  destruct (match pwl_points s with
            | [] => Some 0
            | (t, _) :: r =>
                option_map (fun ts => list_max t (map fst r) + ts) (time_scale s)
            end) as [nt|]; [|exact C].
  destruct (find_unique_time s nt None) as [u|] eqn:U; [|exact C].
  assert (Ts : exists ts, time_scale s = Some ts).
  { unfold find_unique_time in U. destruct (time_scale s) as [ts|];
      [exists ts; reflexivity | discriminate U]. }
  destruct Ts as [ts Ts].
  destruct C as [[L [S N]] [Se V]].
  pose proof (find_unique_time_nonneg s nt None ts u Ts N U) as U0.
  assert (P : Permutation (pwl_points s ++ [(u, 0)]) ((u, 0) :: pwl_points s))
    by (rewrite Permutation_app_comm; reflexivity).
  apply consistent_update_plot.
  split; [|split; [|exact V]];
    cbn [selected_point set_selected pwl_points set_points].
  - apply store_ok_sort.
    + rewrite length_app. simpl. lia.
    + apply (Permutation_Forall (Permutation_sym P)).
      constructor; [exact U0 | exact N].
  - destruct (selected_point s) as [i|]; [|exact I]. cbn [selection_ok] in *.
    rewrite (Permutation_length (sort_by_time_perm _)), length_app. simpl. lia.
Qed.

Lemma consistent_delete_point (s : state) :
  consistent s -> consistent (final (delete_point s)).
Proof.
  intros C. unfold delete_point.
  destruct (selected_point s) as [sel|] eqn:Sel.
  2:{ apply (consistent_ext s); try reflexivity. exact C. }
  destruct (2 <? List.length (pwl_points s))%nat eqn:L2.
  2:{ destruct (List.length (pwl_points s) <=? 2)%nat;
        [apply (consistent_ext s); try reflexivity; exact C | exact C]. }
  apply Nat.ltb_lt in L2.
  destruct (list_delete sel (pwl_points s)) as [l'|] eqn:E; [|exact C].
  destruct (list_delete_split _ _ _ E) as [l1 [old [l2 [A [B _]]]]].
  destruct C as [[L [S N]] [_ V]].
  apply consistent_update_plot.
  split; [|split; [exact I | exact V]].
  cbn [pwl_points set_points set_selected]. subst l'. rewrite A in *.
  split; [|split].
  - rewrite length_app in *. simpl in L2. lia.
  - exact (sorted_remove _ _ _ S).
  - apply Forall_app in N. destruct N as [N1 N2].
    apply Forall_app. split; [exact N1 | exact (Forall_inv_tail N2)].
Qed.

Lemma snap_point_nonneg (g : grid_cfg) (ts vs : Q) (p : point) :
  0 < ts -> 0 <= fst p -> 0 <= fst (snap_point g ts vs p).
Proof.
  intros Ts N. rewrite snap_point_eq. cbn [fst].
  apply Qmult_le_0_compat; [|lra].
  assert (D : 0 <= fst p / ts) by (apply Qle_shift_div_l; lra).
  unfold snap_to_grid.
  destruct (negb (grid_snap_enabled g)); [exact D|].
  destruct (PyNum.leb (time_grid_size g) 0 || PyNum.leb (value_grid_size g) 0);
    [exact D|].
  cbn [fst]. apply max0_nonneg.
Qed.

Lemma consistent_snap_all (s : state) :
  consistent s -> consistent (final (snap_all_points_to_grid s)).
Proof.
  intros C. unfold snap_all_points_to_grid.
  destruct (negb (grid_snap_enabled (grid s))); [exact C|].
  destruct (time_scale s) as [ts|] eqn:Ts; [|exact C].
  destruct (value_scale s) as [vs|] eqn:Vs; [|exact C].
  destruct C as [[L [S N]] [Se V]].
  apply consistent_update_plot.
  split; [|split; [|exact V]];
    cbn [selected_point set_selected pwl_points set_points].
  - apply store_ok_sort; [rewrite length_map; exact L|].
    apply Forall_forall. intros q Hq. apply in_map_iff in Hq.
    destruct Hq as [p [<- Hp]]. rewrite Forall_forall in N.
    apply snap_point_nonneg; [exact (time_scale_pos s ts Ts) | exact (N p Hp)].
  - destruct (selected_point s) as [i|]; [|exact I]. cbn [selection_ok] in *.
    rewrite (Permutation_length (sort_by_time_perm _)), length_map. exact Se.
Qed.

Lemma clamp_time_nonneg (p : point) : 0 <= fst (clamp_time p).
Proof. unfold clamp_time. cbn [fst]. case_cmp; lra. Qed.

Lemma parse_points_store_ok (raw : PyStr.text) (pts : list point) :
  parse_points raw = Parsed pts -> store_ok pts.
Proof.
  unfold parse_points. intros H.
  destruct (parse_stripped_parsed _ _ H) as [S L].
  split; [exact L|]. split; [exact S|].
  rewrite parse_stripped_spec in H. cbv zeta in H.
  destruct ((4 <=? List.length (PyStr.split (strip_wrapper (PyStr.strip raw))))%nat
            && Nat.even (List.length (PyStr.split (strip_wrapper (PyStr.strip raw)))));
    [|discriminate H].
  destruct (existsb is_value_error _); [discriminate H|].
  destruct (all_numbers _) as [nums|]; [|discriminate H].
  destruct (2 <=? _)%nat; [|discriminate H].
  injection H as <-.
  apply (Permutation_Forall (Permutation_sym (sort_by_time_perm _))).
  apply Forall_forall. intros q Hq. apply in_map_iff in Hq.
  destruct Hq as [p [<- _]]. apply clamp_time_nonneg.
Qed.

Lemma consistent_parse (s s' : state) :
  consistent s -> parse_pwl_text s = Some s' -> consistent s'.
Proof.
  intros C. unfold parse_pwl_text.
  destruct (parse_points (pwl_text s)) as [pts| |] eqn:P; [| |discriminate].
  - intros H. injection H as <-.
    assert (C1 : consistent (set_selected None (set_points pts s))).
    { split; [exact (parse_points_store_ok _ _ P)|].
      split; [exact I | exact (proj2 (proj2 C))]. }
    destruct (grid_snap_enabled _);
      [apply consistent_snap_all | apply consistent_update_plot]; exact C1.
  - intros H. injection H as <-. exact C.
Qed.

Lemma consistent_on_scroll (s : state) (ev : event) :
  consistent s -> consistent (final (on_scroll s ev)).
Proof.
  intros C. destruct C as [A [B V]]. unfold on_scroll.
  destruct (negb (inaxes ev)); [split; [|split]; assumption|].
  destruct (xdata ev) as [cx|]; [|split; [|split]; assumption].
  destruct (ydata ev) as [cy|]; [|split; [|split]; assumption].
  destruct (key_is "control" ev);
    [apply consistent_update_range; [exact A | exact B]|].
  destruct (key_is "shift" ev); destruct (shift_right _ _);
    apply consistent_update_range; [exact A | exact B | exact A | exact B].
Qed.

Lemma consistent_on_motion (s : state) (ev : event) :
  consistent s -> consistent (final (on_motion s ev)).
Proof.
  intros C. unfold on_motion.
  destruct (negb (inaxes ev)); [exact C|].
  assert (M : consistent
                (final match selected_point s, button ev with
                       | Some _, MouseButton 1 => move_point s (xdata ev) (ydata ev)
                       | _, _ => Returned s
                       end)).
  { destruct (selected_point s) as [i|] eqn:Sel; [|exact C].
    destruct (button ev) as [[|[|n]]| |]; try exact C.
    apply consistent_move_point. exact C. }
  destruct (panning s); [|exact M].
  destruct (pan_start s) as [[px py]|]; [|exact M].
  destruct (xdata ev) as [x|]; [|exact C].
  destruct (ydata ev) as [y|]; [|exact C].
  destruct (shift_right _ _).
  destruct C as [A [B _]]. apply consistent_update_range; [exact A | exact B].
Qed.

Lemma distances_length (ts vs x y : Q) (pts : list point) :
  List.length (distances ts vs x y pts) = List.length pts.
Proof. apply length_map. Qed.

Lemma consistent_on_click (s : state) (ev : press) :
  consistent s -> consistent (final (on_click s ev)).
Proof.
  intros C. unfold on_click.
  destruct (negb (press_inaxes ev)); [exact C|].
  destruct ((press_button ev =? 2)%nat || (press_button ev =? 3)%nat).
  { apply (consistent_ext s); try reflexivity. exact C. }
  destruct (press_button ev =? 1)%nat; [|exact C].
  assert (M : consistent (final (click_miss s ev))).
  { unfold click_miss.
    assert (C0 : consistent (set_selected None s)).
    { destruct C as [A [_ V]]. split; [exact A|]. split; [exact I | exact V]. }
    pose proof (consistent_update_plot _ C0) as C1.
    destruct (update_plot (set_selected None s)) as [s1|s1]; [|exact C1].
    unfold andThen. cbn [final] in C1.
    destruct (dblclick ev); [apply consistent_add_point_at|]; exact C1. }
  destruct (pwl_points s) as [|p0 r] eqn:P; [exact M|].
  destruct (time_scale s) as [ts|]; [|exact C].
  destruct (value_scale s) as [vs|]; [|exact C].
  destruct (PyNum.ltb _ (tolerance (view s))); [|exact M].
  destruct (index_of _ _) as [i|] eqn:E; [|exact C].
  apply consistent_update_plot.
  destruct C as [A [_ V]]. split; [exact A|]. split; [|exact V].
  cbn [selected_point set_selected pwl_points selection_ok].
  destruct (index_of_first _ _ _ E) as [[e [Hn _]] _].
  rewrite <- (distances_length ts vs (press_x ev) (press_y ev)).
  rewrite P. apply nth_error_Some. congruence.
Qed.

Lemma consistent_auto_scale (s : state) :
  consistent s -> consistent (final (auto_scale s)).
Proof.
  intros C. unfold auto_scale.
  destruct (pwl_points s) as [|[t v] r] eqn:P; [exact C|].
  destruct (time_scale s) as [ts|]; [|exact C].
  destruct (value_scale s) as [vs|].
  - destruct C as [A [B _]]. apply consistent_update_range.
    + cbn [pwl_points set_y_max_var set_y_min_var set_x_max_var set_x_min_var
             set_view_vars]. rewrite P in A. rewrite P. exact A.
    + cbn [pwl_points selected_point set_y_max_var set_y_min_var set_x_max_var
             set_x_min_var set_view_vars]. exact B.
  - apply (consistent_ext s); try reflexivity. exact C.
Qed.

Lemma consistent_snap_outcome (s : state) (b : bool) :
  consistent s ->
  consistent
    match (if b then snap_all_points_to_grid s else Returned s) with
    | Returned s4 => s4
    | Raised s4 =>
        set_value_grid_var 1
          (set_time_grid_var 1
             (set_grid (mkGrid (grid_snap_enabled (grid s4)) 1 1)
                (show (ShowWarning "Grid Size Error") s4)))
    end.
Proof.
  intros C. destruct b; [|exact C].
  pose proof (consistent_snap_all s C) as C1.
  destruct (snap_all_points_to_grid s) as [s4|s4]; cbn [final] in C1;
    [exact C1|].
  apply (consistent_ext s4); try reflexivity. exact C1.
Qed.

Lemma consistent_grid_size (s : state) :
  consistent s -> consistent (on_grid_size_change s).
Proof.
  intros C. unfold on_grid_size_change. cbv zeta.
  apply consistent_snap_outcome.
  destruct (PyNum.leb (time_grid_size (grid_vars s)) 0);
    destruct (PyNum.leb (value_grid_size (grid_vars s)) 0);
    apply (consistent_ext s); try reflexivity; exact C.
Qed.

Lemma consistent_grid_snap (s : state) :
  consistent s -> consistent (final (on_grid_snap_change s)).
Proof.
  intros C. unfold on_grid_snap_change. cbv zeta.
  set (s1 := set_grid _ s).
  assert (C1 : consistent s1) by (apply (consistent_ext s); try reflexivity; exact C).
  destruct (grid_snap_enabled (grid s1)); [apply consistent_snap_all|]; exact C1.
Qed.

Lemma consistent_source_type (s : state) :
  consistent s -> consistent (final (on_source_type_change s)).
Proof.
  destruct (on_source_type_change_fields s) as [_ [[P [V [_ [_ [_ S]]]]] _]].
  apply consistent_ext; assumption.
Qed.

Lemma consistent_unit (s : state) :
  consistent s -> consistent (final (on_unit_change s)).
Proof.
  intros C. unfold on_unit_change. apply consistent_update_plot.
  apply (consistent_ext s); try reflexivity. exact C.
Qed.

Lemma consistent_handle (a : action) (s s' : state) :
  consistent s -> handle a s = Some s' -> consistent s'.
Proof.
  intros C H.
  destruct a; cbn [handle] in H;
    try (injection H as <-);
    try (apply (consistent_ext s); [reflexivity | reflexivity | reflexivity | exact C]).
  - destruct C as [A [B _]]. apply consistent_update_range; assumption.
  - apply consistent_source_type, C.
  - apply consistent_unit, C.
  - apply consistent_grid_snap, C.
  - apply consistent_grid_size, C.
  - exact (consistent_parse s s' C H).
  - apply consistent_add_point, C.
  - apply consistent_delete_point, C.
  - unfold generate_pwl.
    pose proof (consistent_update_plot s C) as C1.
    apply (consistent_ext (generate_pwl_text s)); try reflexivity.
    unfold generate_pwl_text.
    destruct (PyStr.text_eqb _ _); [exact C|].
    apply (consistent_ext s); try reflexivity. exact C.
  - apply consistent_auto_scale, C.
  - destruct C as [A [B _]]. unfold zoom_in. apply consistent_update_range; assumption.
  - destruct C as [A [B _]]. unfold zoom_out. apply consistent_update_range; assumption.
  - destruct C as [A [B _]]. unfold pan_left. destruct (shift_right _ _).
    apply consistent_update_range; assumption.
  - destruct C as [A [B _]]. unfold pan_right. apply consistent_update_range; assumption.
  - destruct C as [A [B _]]. unfold pan_up. apply consistent_update_range; assumption.
  - destruct C as [A [B _]]. unfold pan_down. apply consistent_update_range; assumption.
  - apply consistent_on_click, C.
  - apply consistent_on_motion, C.
  - unfold on_release.
    destruct ((_ =? 2)%nat || (_ =? 3)%nat); [|exact C].
    apply (consistent_ext s); try reflexivity. exact C.
  - apply consistent_on_scroll, C.
Qed.

Lemma consistent_startup : consistent startup.
Proof.
  assert (E : pwl_points startup = initial_points) by (vm_compute; reflexivity).
  assert (S : selected_point startup = None) by (vm_compute; reflexivity).
  assert (V : x_min (view startup) = 0) by (vm_compute; reflexivity).
  unfold consistent. rewrite E, S, V. unfold initial_points.
  split; [|split; [exact I | apply Qle_refl]].
  split; [simpl; lia|]. split.
  - repeat constructor. cbn [fst]. discriminate.
  - repeat constructor; cbn [fst]; discriminate.
Qed.

(** X26.  Whatever the user does, file loading apart, the editor stays in
    order.  After any sequence of field edits and handler calls from the
    state the window opens with, texts with an inf or nan excepted, the
    store holds two points at least, in ascending order of time, none at a
    negative time; the selection, if there is one, is an index of the
    store; and the left bound of the window is not negative. *)
Theorem sessions_keep_order (l : list action) (s' : state) :
  run l startup = Some s' ->
  (2 <= List.length (pwl_points s'))%nat
  /\ sorted_by_time (pwl_points s')
  /\ Forall (fun p => 0 <= fst p) (pwl_points s')
  /\ selection_ok (selected_point s') (pwl_points s')
  /\ 0 <= x_min (view s').
Proof.
  intros R.
  assert (C : consistent s').
  { revert R. generalize consistent_startup. generalize startup.
    induction l as [|a r IH]; intros s C R; simpl in R.
    - injection R as <-. exact C.
    - destruct (handle a s) as [s1|] eqn:H; [|discriminate R].
      exact (IH s1 (consistent_handle a s s1 C H) R). }
  destruct C as [[A [B N]] [S V]]. auto.
Qed.

Lemma sessions_keep_order_witness :
  let l := [AddPoint; Click (mkPress true 1 1 0 false); DeletePoint;
            TypeXMin (-3); UpdateRange; PanLeft] in
  exists s', run l startup = Some s' /\ 0 <= x_min (view s').
Proof.
  intros l. destruct (run l startup) as [s'|] eqn:R.
  - exists s'. split; [reflexivity|].
    exact (proj2 (proj2 (proj2 (proj2 (sessions_keep_order l s' R))))).
  - exfalso. vm_compute in R. discriminate R.
Defined.

(** ** The text shown is read back unchanged *)

Lemma decimal_exponent_unique (q : Q) (e : Z) :
  PyNum.pow10 e <= q -> q < PyNum.pow10 (e + 1) -> decimal_exponent q = e.
Proof.
  intros A B.
  assert (Hq : 0 < q) by (pose proof (pow10_pos e); lra).
  destruct (decimal_exponent_spec q Hq) as [C D].
  assert (L1 : PyNum.pow10 (decimal_exponent q) < PyNum.pow10 (e + 1)) by lra.
  assert (L2 : PyNum.pow10 e < PyNum.pow10 (decimal_exponent q + 1)) by lra.
  apply Qpower_lt_compat_l_inv in L1; [|reflexivity].
  apply Qpower_lt_compat_l_inv in L2; [|reflexivity].
  lia.
Qed.

Lemma decimal_exponent_compat (x y : Q) :
  0 < x -> x == y -> decimal_exponent y = decimal_exponent x.
Proof.
  intros Hx E. destruct (decimal_exponent_spec x Hx) as [A B].
  apply decimal_exponent_unique; lra.
Qed.

Lemma sci6_compat (x y : Q) : 0 < x -> x == y -> sci6 y = sci6 x.
Proof.
  intros Hx E. unfold sci6.
  rewrite (decimal_exponent_compat x y Hx E).
  rewrite (round_compat (y * PyNum.pow10 (5 - decimal_exponent x))
             (x * PyNum.pow10 (5 - decimal_exponent x)))
    by (apply Qmult_comp; [symmetry; exact E | reflexivity]).
  reflexivity.
Qed.

(** Six digits rounded to six digits are those digits. *)
Lemma sci6_fixed (q : Q) : 0 < q -> sci6 (sci_value (sci6 q)) = sci6 q.
Proof.
  intros Hq. pose proof (sci6_digits q Hq) as D.
  destruct (sci6 q) as [m e] eqn:S. cbn [fst] in D.
  unfold sci_value. cbn [fst snd].
  pose proof (pow10_pos (e - 5)) as P.
  assert (M1 : 100000 <= inject_Z m).
  { change 100000 with (inject_Z 100000). rewrite <- Zle_Qle. lia. }
  assert (M2 : inject_Z m < 1000000).
  { change 1000000 with (inject_Z 1000000). rewrite <- Zlt_Qlt. lia. }
  assert (E1 : PyNum.pow10 e == 100000 * PyNum.pow10 (e - 5)).
  { replace e with (5 + (e - 5))%Z at 1 by lia. rewrite pow10_plus.
    reflexivity. }
  assert (E2 : PyNum.pow10 (e + 1) == 1000000 * PyNum.pow10 (e - 5)).
  { replace (e + 1)%Z with (6 + (e - 5))%Z by lia. rewrite pow10_plus.
    reflexivity. }
  assert (A : PyNum.pow10 e <= inject_Z m * PyNum.pow10 (e - 5)).
  { rewrite E1. apply Qmult_le_compat_r; [exact M1 | lra]. }
  assert (B : inject_Z m * PyNum.pow10 (e - 5) < PyNum.pow10 (e + 1)).
  { rewrite E2. apply Qmult_lt_compat_r; [exact P | exact M2]. }
  unfold sci6. rewrite (decimal_exponent_unique _ e A B).
  assert (R : PyNum.round (inject_Z m * PyNum.pow10 (e - 5) * PyNum.pow10 (5 - e))
              = m).
  { rewrite <- (round_Z m) at 2. apply round_compat.
    rewrite <- Qmult_assoc, <- pow10_plus.
    replace (e - 5 + (5 - e))%Z with 0%Z by lia. rewrite pow10_0. ring. }
  rewrite R.
  assert (N : (m =? 1000000)%Z = false) by (apply Z.eqb_neq; lia).
  rewrite N. reflexivity.
Qed.

Lemma Qeq_bool_compat (x y : Q) : x == y -> Qeq_bool y 0 = Qeq_bool x 0.
Proof.
  intros E. destruct (Qeq_bool x 0) eqn:A.
  - apply Qeq_bool_iff in A. apply Qeq_bool_iff. rewrite <- E. exact A.
  - destruct (Qeq_bool y 0) eqn:B; [|reflexivity].
    apply Qeq_bool_iff in B. apply Qeq_bool_false in A. exfalso. apply A.
    rewrite E. exact B.
Qed.

Lemma ltb_compat_l (x y c : Q) : x == y -> PyNum.ltb y c = PyNum.ltb x c.
Proof. intros E. unfold PyNum.ltb. rewrite E. reflexivity. Qed.

(** [format] does not see how a number is written as a fraction. *)
Lemma fmt_g6_compat (x y : Q) : x == y -> fmt_g6 y = fmt_g6 x.
Proof.
  intros E. unfold fmt_g6.
  rewrite (Qeq_bool_compat x y E), (ltb_compat_l x y 0 E).
  destruct (Qeq_bool x 0) eqn:Z0; [reflexivity|].
  apply Qeq_bool_false in Z0.
  destruct (PyNum.ltb x 0) eqn:L.
  - apply ltb_true in L.
    rewrite (sci6_compat (- x) (- y)); [reflexivity | lra | rewrite E; reflexivity].
  - apply ltb_false in L.
    rewrite (sci6_compat x y); [reflexivity | | exact E].
    destruct (Qle_lt_or_eq _ _ L) as [H|H]; [exact H|].
    exfalso. apply Z0. symmetry. exact H.
Qed.

Lemma Qeq_bool_nonzero (v : Q) : v < 0 \/ 0 < v -> Qeq_bool v 0 = false.
Proof.
  intros H. destruct (Qeq_bool v 0) eqn:E; [|reflexivity].
  apply Qeq_bool_iff in E. exfalso. lra.
Qed.

(** A number rounded to six digits is written as the number itself. *)
Lemma fmt_g6_round6 (x : Q) : fmt_g6 (round6 x) = fmt_g6 x.
Proof.
  unfold round6.
  destruct (Qeq_bool x 0) eqn:Z0.
  - unfold fmt_g6. rewrite Z0. reflexivity.
  - pose proof (Qeq_bool_false _ _ Z0) as NZ.
    destruct (PyNum.ltb x 0) eqn:L.
    + apply ltb_true in L.
      assert (Hx : 0 < - x) by lra.
      pose proof (sci6_pos (- x) Hx) as P.
      unfold fmt_g6 at 1.
      assert (Z1 : Qeq_bool (- sci_value (sci6 (- x))) 0 = false)
        by (apply Qeq_bool_nonzero; lra).
      assert (L1 : PyNum.ltb (- sci_value (sci6 (- x))) 0 = true)
        by (apply ltb_true; lra).
      rewrite Z1, L1.
      rewrite (sci6_compat (sci_value (sci6 (- x))) (- - sci_value (sci6 (- x))) P)
        by ring.
      rewrite (sci6_fixed (- x) Hx).
      unfold fmt_g6. rewrite Z0.
      assert (L2 : PyNum.ltb x 0 = true) by (apply ltb_true; exact L).
      rewrite L2. reflexivity.
    + apply ltb_false in L.
      assert (Hx : 0 < x).
      { destruct (Qle_lt_or_eq _ _ L) as [H|H]; [exact H|].
        exfalso. apply NZ. symmetry. exact H. }
      pose proof (sci6_pos x Hx) as P.
      unfold fmt_g6 at 1.
      assert (Z1 : Qeq_bool (sci_value (sci6 x)) 0 = false)
        by (apply Qeq_bool_nonzero; lra).
      assert (L1 : PyNum.ltb (sci_value (sci6 x)) 0 = false)
        by (apply ltb_false; lra).
      rewrite Z1, L1, (sci6_fixed x Hx).
      unfold fmt_g6. rewrite Z0.
      assert (L2 : PyNum.ltb x 0 = false) by (apply ltb_false; exact L).
      rewrite L2. reflexivity.
Qed.

Lemma text_eqb_refl (a : PyStr.text) : PyStr.text_eqb a a = true.
Proof.
  induction a as [|c r IH]; [reflexivity|]. simpl.
  rewrite Ascii.eqb_refl. exact IH.
Qed.

Lemma rounded_to_fmt (pts pts' : list point) :
  rounded_to pts pts' -> map fmt_pair pts' = map fmt_pair pts.
Proof.
  induction 1 as [|p p' l l' [[E1 E2] _] _ IH]; [reflexivity|].
  simpl. rewrite IH. f_equal. unfold fmt_pair.
  rewrite (fmt_g6_compat _ _ (Qeq_sym _ _ E1)), (fmt_g6_compat _ _ (Qeq_sym _ _ E2)).
  rewrite !fmt_g6_round6. reflexivity.
Qed.

Lemma rounded_to_cmd (pts pts' : list point) :
  sorted_by_time pts -> sorted_by_time pts' -> rounded_to pts pts' ->
  pwl_cmd pts' = pwl_cmd pts.
Proof.
  intros S S' R. unfold pwl_cmd.
  rewrite (rounded_to_length _ _ R), (sort_by_time_id _ S),
    (sort_by_time_id _ S'), (rounded_to_fmt _ _ R).
  reflexivity.
Qed.

Lemma generate_pwl_text_stripped (s : state) :
  PyStr.strip (pwl_text (generate_pwl_text s)) = pwl_cmd (pwl_points s).
Proof.
  destruct (generate_pwl_text_shows s) as [E|E]; rewrite E;
    rewrite ?pwl_cmd_stripped; reflexivity.
Qed.

(** X27.  The text the editor shows reads back as itself.  For a store of
    two points or more in ascending order with no negative time, and with
    snapping off: when [parse_pwl_text] reads the text [generate_pwl_text]
    has left in the box, it stores the points rounded to six significant
    digits, drops the selection, and the redraw that follows finds the box
    already showing the command of these points, so the text stays exactly
    as it was. *)
Theorem shown_text_reads_back (s : state) :
  (2 <= List.length (pwl_points s))%nat ->
  sorted_by_time (pwl_points s) ->
  Forall (fun p => 0 <= fst p) (pwl_points s) ->
  grid_snap_enabled (grid s) = false ->
  let s1 := generate_pwl_text s in
  exists s2,
    parse_pwl_text s1 = Some s2
    /\ pwl_text s2 = pwl_text s1
    /\ rounded_to (pwl_points s) (pwl_points s2)
    /\ pwl_cmd (pwl_points s2) = pwl_cmd (pwl_points s)
    /\ selected_point s2 = None.
Proof.
  intros L S N G s1.
  destruct (parse_points_pwl_cmd (pwl_points s) L S N) as [pts' [Pc [R S']]].
  pose proof (rounded_to_cmd _ _ S S' R) as Cmd.
  unfold parse_pwl_text. subst s1.
  rewrite parse_points_generated, Pc.
  cbn [grid set_selected set_points]. rewrite generate_pwl_text_grid, G.
  eexists. split; [reflexivity|].
  rewrite update_plot_points, update_plot_selected.
  cbn [pwl_points selected_point set_selected set_points].
  split; [|split; [exact R | split; [exact Cmd | reflexivity]]].
  set (s1' := set_selected None (set_points pts' (generate_pwl_text s))).
  unfold update_plot.
  destruct (pwl_points s1'); [reflexivity|].
  destruct (time_scale s1'); [|reflexivity].
  destruct (value_scale s1'); [|reflexivity].
  cbn [final]. unfold generate_pwl_text at 1.
  change (pwl_text s1') with (pwl_text (generate_pwl_text s)).
  change (pwl_points s1') with pts'.
  rewrite generate_pwl_text_stripped, Cmd, text_eqb_refl. reflexivity.
Qed.

Lemma shown_text_reads_back_witness :
  exists s2,
    parse_pwl_text (generate_pwl_text startup) = Some s2
    /\ pwl_text s2 = pwl_text (generate_pwl_text startup).
Proof.
  assert (E : pwl_points startup = initial_points) by (vm_compute; reflexivity).
  destruct (shown_text_reads_back startup) as [s2 [P [T _]]].
  - rewrite E. simpl. lia.
  - rewrite E. repeat constructor. cbn [fst]. discriminate.
  - rewrite E. repeat constructor; cbn [fst]; discriminate.
  - vm_compute. reflexivity.
  - exists s2. split; [exact P | exact T].
Defined.

(** ** A new point under the cursor *)

Lemma to_real_eq (g : grid_cfg) (ts vs x y : Q) :
  to_real g ts vs (Some x) (Some y)
  = (PyNum.max0 (fst (snap_to_grid g x y) * ts), snd (snap_to_grid g x y) * vs).
Proof.
  unfold to_real. cbn [or_zero]. destruct (snap_to_grid g x y). reflexivity.
Qed.

(** X28.  [add_point_at] puts the new point under the cursor.  With units
    of the tables, let [c] be the cursor position after [snap_to_grid] (the
    position itself when snapping is off); if its time is not negative and
    at least half of [min_offset] away from every stored time, the handler
    returns with the old points and one new point, which in display units
    lies exactly at [c]. *)
Theorem add_point_at_under_cursor (s : state) (x y ts vs : Q) :
  time_scale s = Some ts -> value_scale s = Some vs ->
  let c := snap_to_grid (grid s) x y in
  0 <= fst c ->
  (forall p, In p (pwl_points s) ->
     min_offset (grid s) ts / 2 <= Qabs (fst c * ts - fst p)) ->
  exists s' p,
    add_point_at s (Some x) (Some y) = Returned s'
    /\ Permutation (pwl_points s') (p :: pwl_points s)
    /\ fst p / ts == fst c /\ snd p / vs == snd c.
Proof.
  intros Ts Vs c C0 Far.
  pose proof (time_scale_pos s ts Ts) as Tp.
  pose proof (value_scale_pos s vs Vs) as Vp.
  assert (T0 : 0 <= fst c * ts) by (apply Qmult_le_0_compat; lra).
  pose proof (max0_id _ T0) as M.
  unfold add_point_at. rewrite Ts, Vs, to_real_eq. fold c.
  assert (F : find_unique_time s (PyNum.max0 (fst c * ts)) None
              = Some (PyNum.max0 (fst c * ts))).
  { apply (find_unique_time_when_free s _ None ts Ts); [apply max0_nonneg|].
    apply is_duplicate_free. intros e He.
    destruct (existing_times_from_sound 0 None (pwl_points s) e He)
      as [p [Hp ->]].
    specialize (Far p Hp).
    assert (Q1 : Qabs (PyNum.max0 (fst c * ts) - fst p)
                 == Qabs (fst c * ts - fst p)) by (rewrite M; reflexivity).
    rewrite Q1. exact Far. }
  rewrite F.
  eexists. exists (PyNum.max0 (fst c * ts), snd c * vs).
  split; [apply (update_plot_returns _ ts vs); [exact Ts | exact Vs]|].
  rewrite update_plot_points. cbn [pwl_points set_points fst snd].
  split; [apply list_insert_perm|].
  split; [rewrite M; field; lra | field; lra].
Qed.

Lemma add_point_at_under_cursor_witness :
  exists s' p,
    add_point_at startup (Some 5) (Some 2) = Returned s'
    /\ Permutation (pwl_points s') (p :: pwl_points startup)
    /\ fst p / (1 # 1000000) == fst (snap_to_grid (grid startup) 5 2).
Proof.
  assert (E : pwl_points startup = initial_points) by (vm_compute; reflexivity).
  destruct (add_point_at_under_cursor startup 5 2 (1 # 1000000) (1 # 1000)
              eq_refl eq_refl) as [s' [p [R [P [A _]]]]].
  - vm_compute. discriminate.
  - rewrite E. intros p [<-|[<-|[]]]; vm_compute; discriminate.
  - exists s', p. split; [exact R|]. split; [exact P | exact A].
Defined.

(** ** The grid lines drawn *)






